(** * lib/rwsem.c: contention handling of the R/W semaphore

    A shallow embedding of [lib/rwsem.c] (slow paths of the read/write
    semaphore with writer lock stealing) and the properties of it that
    the design document states.

    - The semaphore, the waiter records that live on the stacks of the
      blocked threads, and the intrusive doubly linked [wait_list] are
      modelled at the level of the pointers the C code manipulates.
    - The functions are written in a monad of state, faults and fuel, one
      definition per C function, label or loop.  A fault is a step that C
      gives no meaning to (a read of an automatic variable nothing was
      assigned to, a dereference of NULL or of a pointer to no waiter).
      Fuel bounds the loops; the properties say how much is enough.
    - Calls into the rest of the kernel (scheduler, task reference counts,
      spin lock, memory barrier) and the atomic operations on the counter
      are recorded as events of a trace.
    - One thread runs at a time.  What the other threads do is part of the
      input: the additions they make to the counter on their lock-free
      paths while this thread is between two atomic operations, and what
      they do to the whole machine while it sleeps in [schedule()]. *)

From Stdlib Require Import ZArith List Lia Bool.
From stdpp Require Import base tactics option list gmap.

Local Open Scope Z_scope.

(** ** Machine integers *)

(** [signed long] of the 32-bit ARM11 core of the MSM7x25: the counter and
    the locals [woken], [loop], [adjustment], [oldcount], [count] all have
    this type.  Arithmetic wraps around (the kernel is built with
    [-fno-strict-overflow], and the atomic helpers wrap by nature). *)
Definition BITS_PER_LONG : Z := 32.

Definition wrap_long (z : Z) : Z :=
  (z + 2 ^ (BITS_PER_LONG - 1)) mod 2 ^ BITS_PER_LONG - 2 ^ (BITS_PER_LONG - 1).

(** ** Bias constants

    [RWSEM_UNLOCKED_VALUE], [RWSEM_ACTIVE_BIAS], [RWSEM_ACTIVE_MASK],
    [RWSEM_WAITING_BIAS] and [RWSEM_ACTIVE_WRITE_BIAS] come from the
    architecture header [asm/rwsem.h], which is not part of this
    translation unit.  The code is verified for every choice of them. *)
Class rwsem_bias := {
  RWSEM_UNLOCKED_VALUE : Z;
  RWSEM_ACTIVE_BIAS : Z;
  RWSEM_ACTIVE_MASK : Z;
  RWSEM_WAITING_BIAS : Z;
  RWSEM_ACTIVE_WRITE_BIAS : Z
}.

(** The layout the comment above [__rwsem_do_wake] describes: the active
    part is [count & 0x0000ffff], the waiting part [count & 0xffff0000]
    and negative.  Used for the concrete runs below. *)
Definition bias32 : rwsem_bias := {|
  RWSEM_UNLOCKED_VALUE := 0;
  RWSEM_ACTIVE_BIAS := 1;
  RWSEM_ACTIVE_MASK := 65535;
  RWSEM_WAITING_BIAS := -65536;
  RWSEM_ACTIVE_WRITE_BIAS := -65536 + 1
|}.

(** [#define RWSEM_WAITING_FOR_READ 0x00000001] and
    [#define RWSEM_WAITING_FOR_WRITE 0x00000002]. *)
Definition RWSEM_WAITING_FOR_READ : Z := 1.
Definition RWSEM_WAITING_FOR_WRITE : Z := 2.

(** ** Data model *)

(** A [struct task_struct *] that is not NULL. *)
Definition task_struct := nat.

(** The address of a [struct rwsem_waiter]. *)
Definition waiter_ptr := nat.

(** A [struct list_head *].  Only one semaphore is in play, so such a
    pointer is [&sem->wait_list], the [list] member of some waiter, one of
    the two poison values [list_del] leaves behind, or the indeterminate
    content of a list head nobody has written yet. *)
Inductive list_ptr :=
  | ListHead
  | ListOf (w : waiter_ptr)
  | LIST_POISON1
  | LIST_POISON2
  | ListIndeterminate.

#[global] Instance list_ptr_eq_dec : EqDecision list_ptr.
Proof. solve_decision. Defined.

Record list_head := { next : list_ptr; prev : list_ptr }.

(** [struct rwsem_waiter]; [task = None] is the NULL pointer. *)
Record rwsem_waiter := {
  w_list : list_head;
  task : option task_struct;
  flags : Z
}.

(** [struct rw_semaphore] ([wait_lock] is [true] while the spin lock is
    held). *)
Record rw_semaphore := {
  count : Z;
  wait_lock : bool;
  wait_list : list_head
}.

Inductive task_state := TASK_RUNNING | TASK_UNINTERRUPTIBLE.

(** What the code asks of the rest of the kernel, and its atomic
    operations on the counter. *)
Inductive event :=
  | EvSpinLock
  | EvSpinUnlock
  | EvAtomicAdd (delta : Z)
  | EvAtomicUpdate (delta : Z)
  | EvSmpMb
  | EvWakeUpProcess (t : task_struct)
  | EvGetTaskStruct (t : task_struct)
  | EvPutTaskStruct (t : task_struct)
  | EvSetTaskState (t : task_struct) (s : task_state)
  | EvSchedule.

(** The whole machine as one thread sees it: the semaphore, the waiter
    records on the stacks of the blocked threads, the changes other
    threads make to the counter on their lock-free fast paths ([others]:
    the head is the total they add before this thread's next atomic
    operation), and the events so far. *)
Record machine := {
  sem : rw_semaphore;
  stack : gmap waiter_ptr rwsem_waiter;
  others : list Z;
  trace : list event
}.

Definition set_sem (f : rw_semaphore -> rw_semaphore) (m : machine) : machine :=
  {| sem := f (sem m); stack := stack m; others := others m; trace := trace m |}.

Definition set_stack (f : gmap waiter_ptr rwsem_waiter -> gmap waiter_ptr rwsem_waiter)
    (m : machine) : machine :=
  {| sem := sem m; stack := f (stack m); others := others m; trace := trace m |}.

Definition set_others (l : list Z) (m : machine) : machine :=
  {| sem := sem m; stack := stack m; others := l; trace := trace m |}.

Definition emit (e : event) (m : machine) : machine :=
  {| sem := sem m; stack := stack m; others := others m; trace := trace m ++ [e] |}.

Definition set_count (c : Z) (s : rw_semaphore) : rw_semaphore :=
  {| count := c; wait_lock := wait_lock s; wait_list := wait_list s |}.

Definition set_wait_lock (b : bool) (s : rw_semaphore) : rw_semaphore :=
  {| count := count s; wait_lock := b; wait_list := wait_list s |}.

Definition set_wait_list (h : list_head) (s : rw_semaphore) : rw_semaphore :=
  {| count := count s; wait_lock := wait_lock s; wait_list := h |}.

Definition set_next (p : list_ptr) (h : list_head) : list_head :=
  {| next := p; prev := prev h |}.

Definition set_prev (p : list_ptr) (h : list_head) : list_head :=
  {| next := next h; prev := p |}.

Definition set_w_list (h : list_head) (r : rwsem_waiter) : rwsem_waiter :=
  {| w_list := h; task := task r; flags := flags r |}.

Definition set_task (t : option task_struct) (r : rwsem_waiter) : rwsem_waiter :=
  {| w_list := w_list r; task := t; flags := flags r |}.

Definition set_flags (f : Z) (r : rwsem_waiter) : rwsem_waiter :=
  {| w_list := w_list r; task := task r; flags := f |}.

(** ** The monad of the embedding: state, faults and fuel *)

Inductive fault :=
  | UninitialisedRead   (* an automatic variable is read before any write *)
  | NullTask            (* a NULL task pointer is dereferenced *)
  | BadWaiter           (* a waiter pointer that points at no live waiter *)
  | BadListPointer      (* poison or indeterminate list pointer followed *)
  | NotAWaiter          (* list_entry of the semaphore's own list head *)
  | SpinDeadlock        (* spinning on a lock this thread holds *)
  | UnlockUnheld.

Inductive result (A : Type) :=
  | Ok (a : A) (m : machine)
  | Fault (f : fault) (m : machine)
  | OutOfFuel.
Arguments Ok {A} a m.
Arguments Fault {A} f m.
Arguments OutOfFuel {A}.

Definition M (A : Type) := machine -> result A.

Definition ret {A} (a : A) : M A := fun m => Ok a m.

Definition bind {A B} (c : M A) (k : A -> M B) : M B :=
  fun m => match c m with
           | Ok a m' => k a m'
           | Fault f m' => Fault f m'
           | OutOfFuel => OutOfFuel
           end.

Definition raise {A} (f : fault) : M A := fun m => Fault f m.
Definition out_of_fuel {A} : M A := fun _ => OutOfFuel.
Definition get : M machine := fun m => Ok m m.
Definition modify (f : machine -> machine) : M unit := fun m => Ok tt (f m).
Definition event_ (e : event) : M unit := modify (emit e).

Notation "x <- c1 ;; c2" := (bind c1 (fun x => c2))
  (at level 100, c1 at next level, right associativity).
Notation "c1 ;; c2" := (bind c1 (fun _ => c2))
  (at level 100, right associativity).

(** Reading an automatic variable: [None] is a variable that no statement
    has assigned yet. *)
Definition read_local {A} (v : option A) : M A :=
  match v with Some a => ret a | None => raise UninitialisedRead end.

(** ** Memory accesses *)

Definition load_waiter (w : waiter_ptr) : M rwsem_waiter :=
  fun m => match stack m !! w with
           | Some r => Ok r m
           | None => Fault BadWaiter m
           end.

Definition store_waiter (w : waiter_ptr) (f : rwsem_waiter -> rwsem_waiter) : M unit :=
  r <- load_waiter w ;; modify (set_stack (insert w (f r))).

(** [p->next], [p->prev] and the two stores, for a [struct list_head *p]. *)
Definition load_list_head (p : list_ptr) : M list_head :=
  match p with
  | ListHead => m <- get ;; ret (wait_list (sem m))
  | ListOf w => r <- load_waiter w ;; ret (w_list r)
  | _ => raise BadListPointer
  end.

Definition store_list_head (p : list_ptr) (f : list_head -> list_head) : M unit :=
  match p with
  | ListHead => modify (set_sem (fun s => set_wait_list (f (wait_list s)) s))
  | ListOf w => store_waiter w (fun r => set_w_list (f (w_list r)) r)
  | _ => raise BadListPointer
  end.

(** [list_entry(p, struct rwsem_waiter, list)].  Every use in this file
    dereferences the result at once; the entry of the semaphore's own list
    head is no waiter, so that dereference has no meaning. *)
Definition list_entry (p : list_ptr) : M waiter_ptr :=
  match p with
  | ListOf w => ret w
  | ListHead => raise NotAWaiter
  | _ => raise BadListPointer
  end.

(** ** What the rest of the kernel provides *)

(** [spin_lock_irq], [raw_spin_lock_irq] and [spin_lock_irqsave] on
    [sem->wait_lock]. *)
Definition spin_lock : M unit :=
  m <- get ;;
  if wait_lock (sem m) then raise SpinDeadlock
  else modify (set_sem (set_wait_lock true)) ;; event_ EvSpinLock.

(** [spin_unlock_irq], [raw_spin_unlock_irq], [spin_unlock_irqrestore]. *)
Definition spin_unlock : M unit :=
  m <- get ;;
  if wait_lock (sem m) then modify (set_sem (set_wait_lock false)) ;; event_ EvSpinUnlock
  else raise UnlockUnheld.

Definition smp_mb : M unit := event_ EvSmpMb.

Definition with_task (t : option task_struct) (e : task_struct -> event) : M unit :=
  match t with
  | Some tsk => event_ (e tsk)
  | None => raise NullTask
  end.

Definition wake_up_process (t : option task_struct) : M unit := with_task t EvWakeUpProcess.
Definition get_task_struct (t : option task_struct) : M unit := with_task t EvGetTaskStruct.
Definition put_task_struct (t : option task_struct) : M unit := with_task t EvPutTaskStruct.

(** [set_task_state(tsk, s)] and the plain store [tsk->state = s]. *)
Definition set_task_state (t : option task_struct) (s : task_state) : M unit :=
  with_task t (fun tsk => EvSetTaskState tsk s).

(** The other threads' lock-free additions that land before this thread's
    next atomic operation. *)
Definition interfered (m : machine) : machine :=
  match others m with
  | [] => m
  | d :: rest => set_others rest (set_sem (fun s => set_count (wrap_long (count s + d)) s) m)
  end.

Definition interference : M unit := modify interfered.

(** Modelled from the spec: [rwsem_atomic_update] of the absent
    [asm/rwsem.h], the "atomic update" of the State Counter: an atomic
    addition that hands a value of the counter back.  The value handed
    back is the one after the addition.  The uses in this file fix that:
    line 134 gets the value before the addition as
    [rwsem_atomic_update(adjustment, sem) - adjustment], and line 174
    tests the value handed back for "no active locks" after the caller
    withdrew its own active unit.  (The design document is of two minds:
    its section 4.1 speaks of the old value, its sections 4.4 and 4.5 of
    the value before the update being derived and of "the resulting
    active-field".) *)
Definition rwsem_atomic_update (delta : Z) : M Z :=
  interference ;;
  m <- get ;;
  let c := wrap_long (count (sem m) + delta) in
  modify (set_sem (set_count c)) ;;
  event_ (EvAtomicUpdate delta) ;;
  ret c.

(** Modelled from the spec: [rwsem_atomic_add] of the absent
    [asm/rwsem.h], the atomic addition whose result the caller drops. *)
Definition rwsem_atomic_add (delta : Z) : M unit :=
  interference ;;
  m <- get ;;
  modify (set_sem (set_count (wrap_long (count (sem m) + delta)))) ;;
  event_ (EvAtomicAdd delta).

(** Modelled from the spec: [INIT_LIST_HEAD], [list_empty],
    [list_add_tail] and [list_del] of the absent [linux/list.h]: the wait
    queue's empty queue, emptiness test, enqueue (append to tail) and
    remove, on the circular doubly linked list that [__rwsem_do_wake]
    walks by hand. *)
Definition INIT_LIST_HEAD (head : list_ptr) : M unit :=
  store_list_head head (fun _ => {| next := head; prev := head |}).

Definition list_empty (head : list_ptr) : M bool :=
  h <- load_list_head head ;; ret (bool_decide (next h = head)).

Definition __list_add (new prv nxt : list_ptr) : M unit :=
  store_list_head nxt (set_prev new) ;;
  store_list_head new (set_next nxt) ;;
  store_list_head new (set_prev prv) ;;
  store_list_head prv (set_next new).

Definition list_add_tail (new head : list_ptr) : M unit :=
  h <- load_list_head head ;; __list_add new (prev h) head.

Definition list_del (entry : list_ptr) : M unit :=
  e <- load_list_head entry ;;
  store_list_head (next e) (set_prev (prev e)) ;;
  store_list_head (prev e) (set_next (next e)) ;;
  store_list_head entry (fun _ => {| next := LIST_POISON1; prev := LIST_POISON2 |}).

(** A [struct rwsem_waiter] declared as an automatic variable: a fresh
    record whose members hold nothing meaningful yet (every member is
    written before it is read), and its end of life. *)
Definition indeterminate_waiter : rwsem_waiter :=
  {| w_list := {| next := ListIndeterminate; prev := ListIndeterminate |};
     task := None; flags := 0 |}.

Definition alloca_waiter : M waiter_ptr :=
  m <- get ;;
  let w := fresh (dom (stack m)) in
  modify (set_stack (insert w indeterminate_waiter)) ;; ret w.

Definition leave_frame (w : waiter_ptr) : M unit := modify (set_stack (delete w)).

(** ** The functions of lib/rwsem.c *)

Section Rwsem.

Context {bias : rwsem_bias}.

(** What the other threads do to the machine while this one is off the
    processor inside [schedule()]. *)
Variable others_run : machine -> machine.

Definition schedule : M unit := event_ EvSchedule ;; modify others_run.

(** [__init_rwsem] (without lock debugging). *)
Definition __init_rwsem : M unit :=
  modify (set_sem (set_count RWSEM_UNLOCKED_VALUE)) ;;
  modify (set_sem (set_wait_lock false)) ;;
  INIT_LIST_HEAD ListHead.

(** The [do ... while] of [__rwsem_do_wake] (lines 79-88): count the
    waiters from [waiter] on, up to the end of the queue or the first one
    whose flags lack [RWSEM_WAITING_FOR_READ]. *)
Fixpoint readers_only_scan (fuel : nat) (waiter : waiter_ptr) (woken : Z) : M Z :=
  match fuel with
  | O => out_of_fuel
  | S fuel =>
      let woken := wrap_long (woken + 1) in
      h <- load_list_head (ListOf waiter) ;;
      if decide (next h = ListHead) then ret woken
      else
        waiter <- list_entry (next h) ;;
        r <- load_waiter waiter ;;
        if Z.land (flags r) RWSEM_WAITING_FOR_READ =? 0 then ret woken
        else readers_only_scan fuel waiter woken
  end.

(** The [for (; loop > 0; loop--)] of [__rwsem_do_wake] (lines 99-107);
    it hands back the final value of [next]. *)
Fixpoint grant_loop (loop : nat) (nxt : list_ptr) : M list_ptr :=
  match loop with
  | O => ret nxt
  | S loop =>
      waiter <- list_entry nxt ;;
      h <- load_list_head (ListOf waiter) ;;
      r <- load_waiter waiter ;;
      let tsk := task r in
      smp_mb ;;
      store_waiter waiter (set_task None) ;;
      wake_up_process tsk ;;
      put_task_struct tsk ;;
      grant_loop loop (next h)
  end.

(** Lines 98-107: [next = sem->wait_list.next] and the loop. *)
Definition grant_readers (loop : Z) : M list_ptr :=
  h <- load_list_head ListHead ;;
  grant_loop (Z.to_nat loop) (next h).

(** Lines 109-110. *)
Definition relink (nxt : list_ptr) : M unit :=
  store_list_head ListHead (set_next nxt) ;;
  store_list_head nxt (set_prev ListHead).

(** The value [woken] holds when it is handed to [rwsem_atomic_add]
    (lines 90-94). *)
Definition readers_adjustment (downgrading : bool) (woken : Z) : Z :=
  let woken := wrap_long (woken * wrap_long (RWSEM_ACTIVE_BIAS - RWSEM_WAITING_BIAS)) in
  if negb downgrading then wrap_long (woken - RWSEM_ACTIVE_BIAS) else woken.

(** From the label [readers_only] to the end (lines 77-113). *)
Definition readers_only (fuel : nat) (downgrading : bool) (waiter : waiter_ptr) : M unit :=
  woken <- readers_only_scan fuel waiter 0 ;;
  let loop := woken in
  rwsem_atomic_add (readers_adjustment downgrading woken) ;;
  nxt <- grant_readers loop ;;
  relink nxt.

(** From the label [dont_wake_writers] (lines 67-70). *)
Definition dont_wake_writers (fuel : nat) (downgrading : bool) : M unit :=
  h <- load_list_head ListHead ;;
  waiter <- list_entry (next h) ;;
  r <- load_waiter waiter ;;
  if negb (Z.land (flags r) RWSEM_WAITING_FOR_WRITE =? 0) then ret tt
  else readers_only fuel downgrading waiter.

(** [__rwsem_do_wake].  The automatic variable [waiter] has no
    initialiser, and the path for [downgrading == 0] (lines 62-64) reads
    it before any assignment; only the path through [dont_wake_writers]
    assigns it. *)
Definition __rwsem_do_wake (fuel : nat) (downgrading : bool) : M unit :=
  let waiter : option waiter_ptr := None in
  if downgrading then dont_wake_writers fuel downgrading
  else
    w <- read_local waiter ;;
    r <- load_waiter w ;;
    wake_up_process (task r).

(** Lines 128-131 of [try_get_writer_sem]: the adjustment for [waiter]
    when [fwaiter] is the first waiter of the queue. *)
Definition writer_adjustment (fwaiter waiter : waiter_ptr) : M Z :=
  let adjustment := RWSEM_ACTIVE_WRITE_BIAS in
  if decide (fwaiter = waiter) then
    h <- load_list_head (ListOf waiter) ;;
    if decide (next h = ListHead)
    then ret (wrap_long (adjustment - RWSEM_WAITING_BIAS))
    else ret adjustment
  else ret adjustment.

(** Lines 136-143: the waiter takes the lock itself. *)
Definition take_write_lock (waiter : waiter_ptr) : M Z :=
  r <- load_waiter waiter ;;
  let tsk := task r in
  list_del (ListOf waiter) ;;
  smp_mb ;;
  put_task_struct tsk ;;
  set_task_state tsk TASK_RUNNING ;;
  ret 1.

(** From the label [try_again_write] (lines 133-148); one unit of fuel
    per pass. *)
Fixpoint try_again_write (fuel : nat) (waiter : waiter_ptr) (adjustment : Z) : M Z :=
  match fuel with
  | O => out_of_fuel
  | S fuel =>
      c <- rwsem_atomic_update adjustment ;;
      let oldcount := wrap_long (c - adjustment) in
      if Z.land oldcount RWSEM_ACTIVE_MASK =? 0 then take_write_lock waiter
      else
        c <- rwsem_atomic_update (wrap_long (- adjustment)) ;;
        if negb (Z.land c RWSEM_ACTIVE_MASK =? 0) then ret 0
        else try_again_write fuel waiter adjustment
  end.

(** [try_get_writer_sem]; the caller holds [sem->wait_lock]. *)
Definition try_get_writer_sem (fuel : nat) (waiter : waiter_ptr) : M Z :=
  h <- load_list_head ListHead ;;
  fwaiter <- list_entry (next h) ;;
  fr <- load_waiter fwaiter ;;
  if Z.land (flags fr) RWSEM_WAITING_FOR_WRITE =? 0 then ret 0
  else
    adjustment <- writer_adjustment fwaiter waiter ;;
    try_again_write fuel waiter adjustment.

(** Lines 161-177 of [rwsem_down_failed_common]: queue the waiter. *)
Definition queue_waiter (fuel : nat) (tsk : task_struct) (waiter : waiter_ptr)
    (adjustment : Z) : M unit :=
  set_task_state (Some tsk) TASK_UNINTERRUPTIBLE ;;
  spin_lock ;;
  store_waiter waiter (set_task (Some tsk)) ;;
  get_task_struct (Some tsk) ;;
  list_add_tail (ListOf waiter) ListHead ;;
  count <- rwsem_atomic_update adjustment ;;
  (if Z.land count RWSEM_ACTIVE_MASK =? 0 then __rwsem_do_wake fuel false else ret tt) ;;
  spin_unlock.

(** How one pass of the [for (;;)] of [rwsem_down_failed_common] ends. *)
Inductive pass_end :=
  | Break       (* line 182 *)
  | ReturnSem   (* line 189 *)
  | Again.      (* the end of the body is reached *)

(** Lines 186 and 187 as they are written.  Line 186 tests [flags]: the
    function has the parameters [sem], [waiter], [adjustment] and the
    locals [tsk], [count], and nothing of this file declares a [flags]
    outside a function, so the name is not the waiter's member, and
    whatever object it is resolved to is declared elsewhere; its value is
    the parameter [flags_in_scope].  Line 187 passes [&waiter], the
    address of the parameter [waiter] itself, where [try_get_writer_sem]
    takes a waiter; [waiter_slot] is that address, in the frame of
    [rwsem_down_failed_common]. *)
Variable flags_in_scope : Z.
Variable waiter_slot : waiter_ptr.

(** One pass of the loop (lines 181-193). *)
Definition wait_pass (fuel : nat) (tsk : task_struct) (waiter : waiter_ptr) : M pass_end :=
  r <- load_waiter waiter ;;
  if bool_decide (task r = None) then ret Break
  else
    spin_lock ;;
    got <- (if flags_in_scope =? RWSEM_WAITING_FOR_WRITE
            then try_get_writer_sem fuel waiter_slot else ret 0) ;;
    if negb (got =? 0) then spin_unlock ;; ret ReturnSem
    else
      spin_unlock ;;
      schedule ;;
      set_task_state (Some tsk) TASK_UNINTERRUPTIBLE ;;
      ret Again.

(** The loop itself; one unit of fuel per pass. *)
Fixpoint wait_loop (fuel : nat) (tsk : task_struct) (waiter : waiter_ptr) : M pass_end :=
  match fuel with
  | O => out_of_fuel
  | S fuel' =>
      e <- wait_pass fuel tsk waiter ;;
      match e with
      | Again => wait_loop fuel' tsk waiter
      | _ => ret e
      end
  end.

(** [rwsem_down_failed_common]; [tsk] is [current]. *)
Definition rwsem_down_failed_common (fuel : nat) (tsk : task_struct)
    (waiter : waiter_ptr) (adjustment : Z) : M unit :=
  queue_waiter fuel tsk waiter adjustment ;;
  e <- wait_loop fuel tsk waiter ;;
  match e with
  | ReturnSem => ret tt
  | _ => set_task_state (Some tsk) TASK_RUNNING
  end.

(** [rwsem_down_read_failed]. *)
Definition rwsem_down_read_failed (fuel : nat) (tsk : task_struct) : M unit :=
  waiter <- alloca_waiter ;;
  store_waiter waiter (set_flags RWSEM_WAITING_FOR_READ) ;;
  rwsem_down_failed_common fuel tsk waiter
    (wrap_long (RWSEM_WAITING_BIAS - RWSEM_ACTIVE_BIAS)) ;;
  leave_frame waiter.

(** [rwsem_down_write_failed]. *)
Definition rwsem_down_write_failed (fuel : nat) (tsk : task_struct) : M unit :=
  waiter <- alloca_waiter ;;
  store_waiter waiter (set_flags RWSEM_WAITING_FOR_WRITE) ;;
  rwsem_down_failed_common fuel tsk waiter (wrap_long (- RWSEM_ACTIVE_BIAS)) ;;
  leave_frame waiter.

(** [rwsem_wake]. *)
Definition rwsem_wake (fuel : nat) : M unit :=
  spin_lock ;;
  e <- list_empty ListHead ;;
  (if negb e then __rwsem_do_wake fuel false else ret tt) ;;
  spin_unlock.

(** [rwsem_downgrade_wake]. *)
Definition rwsem_downgrade_wake (fuel : nat) : M unit :=
  spin_lock ;;
  e <- list_empty ListHead ;;
  (if negb e then __rwsem_do_wake fuel true else ret tt) ;;
  spin_unlock.

End Rwsem.

(** ** The wait queue as the pointers draw it *)

(** The pure counterparts of [load_list_head] and [store_list_head]. *)
Definition lh_get (m : machine) (p : list_ptr) : option list_head :=
  match p with
  | ListHead => Some (wait_list (sem m))
  | ListOf w => w_list <$> stack m !! w
  | _ => None
  end.

Definition lh_set (p : list_ptr) (f : list_head -> list_head) (m : machine) : machine :=
  match p with
  | ListHead => set_sem (fun s => set_wait_list (f (wait_list s)) s) m
  | ListOf w =>
      match stack m !! w with
      | Some r => set_stack (insert w (set_w_list (f (w_list r)) r)) m
      | None => m
      end
  | _ => m
  end.

(** Following the member [fld] ([next] or [prev]) from the list head at
    [from] visits the waiters [l] in order and then arrives at [e]. *)
Fixpoint chain (fld : list_head -> list_ptr) (m : machine) (from : list_ptr)
    (l : list waiter_ptr) (e : list_ptr) : Prop :=
  match l with
  | [] => fld <$> lh_get m from = Some e
  | w :: l' => fld <$> lh_get m from = Some (ListOf w) /\ chain fld m (ListOf w) l' e
  end.

(** [wait_list] holds exactly the waiters [l], first to last: from
    [sem->wait_list] the [next] pointers run through [l] and back, the
    [prev] pointers run through it backwards, and no waiter is queued
    twice. *)
Definition queue (m : machine) (l : list waiter_ptr) : Prop :=
  NoDup l /\
  chain next m ListHead l ListHead /\
  chain prev m ListHead (rev l) ListHead.

(** The pointer to the first of [l], or [e] when there is none; the
    pointer to the last of [l], or [from]. *)
Definition hd_ptr (l : list waiter_ptr) (e : list_ptr) : list_ptr :=
  match l with [] => e | w :: _ => ListOf w end.

Definition last_ptr (from : list_ptr) (l : list waiter_ptr) : list_ptr :=
  match last l with Some w => ListOf w | None => from end.

(** A queued waiter as [rwsem_down_read_failed] and
    [rwsem_down_write_failed] make them: waiting for read or for write,
    with the handle of its thread. *)
Definition live_waiter (r : rwsem_waiter) : Prop :=
  (flags r = RWSEM_WAITING_FOR_READ \/ flags r = RWSEM_WAITING_FOR_WRITE) /\
  task r <> None.

Definition live_queue (m : machine) (l : list waiter_ptr) : Prop :=
  forall w, w ∈ l -> exists r, stack m !! w = Some r /\ live_waiter r.

(** The number of waiters at the front of [l] whose flags have
    [RWSEM_WAITING_FOR_READ]. *)
Fixpoint reader_run (m : machine) (l : list waiter_ptr) : nat :=
  match l with
  | [] => 0%nat
  | w :: l' =>
      match stack m !! w with
      | Some r =>
          if Z.land (flags r) RWSEM_WAITING_FOR_READ =? 0 then 0%nat
          else S (reader_run m l')
      | None => 0%nat
      end
  end.

(** The thread a waiter holds, NULL for no waiter. *)
Definition task_of (m : machine) (w : waiter_ptr) : option task_struct :=
  match stack m !! w with Some r => task r | None => None end.

(** No waiter whose [task] is NULL is linked into [wait_list]. *)
Definition cleared_are_unlinked (m : machine) : Prop :=
  forall (l : list waiter_ptr) (w : waiter_ptr),
    queue m l -> w ∈ l -> task_of m w <> None.

(** ** The machines that the operations leave *)

(** After [list_del(&w->list)], when [w]'s list head is [e]. *)
Definition unlinked (w : waiter_ptr) (e : list_head) (m : machine) : machine :=
  lh_set (ListOf w) (fun _ => {| next := LIST_POISON1; prev := LIST_POISON2 |})
    (lh_set (prev e) (set_next (next e))
       (lh_set (next e) (set_prev (prev e)) m)).

(** After [list_add_tail(&w->list, &sem->wait_list)]. *)
Definition appended (w : waiter_ptr) (m : machine) : machine :=
  let prv := prev (wait_list (sem m)) in
  lh_set prv (set_next (ListOf w))
    (lh_set (ListOf w) (set_prev prv)
       (lh_set (ListOf w) (set_next ListHead)
          (lh_set ListHead (set_prev (ListOf w)) m))).

(** After lines 109-110 of [__rwsem_do_wake], [nxt] being the list head
    the grant loop stopped at. *)
Definition relinked (nxt : list_ptr) (m : machine) : machine :=
  lh_set nxt (set_prev ListHead) (lh_set ListHead (set_next nxt) m).

(** After [rwsem_atomic_add] and after [rwsem_atomic_update]. *)
Definition atomic_added (delta : Z) (m : machine) : machine :=
  emit (EvAtomicAdd delta)
    (set_sem (set_count (wrap_long (count (sem (interfered m)) + delta))) (interfered m)).

Definition atomic_updated (delta : Z) (m : machine) : machine :=
  emit (EvAtomicUpdate delta)
    (set_sem (set_count (wrap_long (count (sem (interfered m)) + delta))) (interfered m)).

(** After the grant loop has gone through the waiters [ws]: their [task]
    members are NULL, each thread was woken and its reference dropped. *)
Definition grant_events (t : option task_struct) : list event :=
  match t with
  | Some tsk => [EvSmpMb; EvWakeUpProcess tsk; EvPutTaskStruct tsk]
  | None => []
  end.

Fixpoint granted (ws : list waiter_ptr) (m : machine) : machine :=
  match ws with
  | [] => m
  | w :: ws' =>
      granted ws'
        {| sem := sem m;
           stack := alter (set_task None) w (stack m);
           others := others m;
           trace := trace m ++ grant_events (task_of m w) |}
  end.

(** After [spin_lock], after [spin_unlock], and after the rest of a pass
    of the wait loop that goes back to sleep (lines 191-193), [others_run]
    being what the other threads do meanwhile. *)
Definition locked (m : machine) : machine :=
  emit EvSpinLock (set_sem (set_wait_lock true) m).

Definition unlocked (m : machine) : machine :=
  emit EvSpinUnlock (set_sem (set_wait_lock false) m).

Definition resuspended (others_run : machine -> machine) (tsk : task_struct)
    (m : machine) : machine :=
  emit (EvSetTaskState tsk TASK_UNINTERRUPTIBLE)
    (others_run (emit EvSchedule (unlocked m))).

(** When [rwsem_down_failed_common] looks at the counter (line 174): the
    waiter holds the thread, is the last of the queue, and the adjustment
    is applied, all with the lock held. *)
Definition enqueued (tsk : task_struct) (w : waiter_ptr) (adjustment : Z)
    (m : machine) : machine :=
  atomic_updated adjustment
    (appended w
       (emit (EvGetTaskStruct tsk)
          (set_stack (alter (set_task (Some tsk)) w)
             (locked (emit (EvSetTaskState tsk TASK_UNINTERRUPTIBLE) m))))).

(** ** This thread's share of the changes to the counter *)

Definition sumZ (l : list Z) : Z := foldr Z.add 0 l.

(** What an event adds to the counter, and what a stretch of events adds
    in all (in [long] arithmetic). *)
Definition update_delta (e : event) : Z :=
  match e with
  | EvAtomicUpdate d => d
  | EvAtomicAdd d => d
  | _ => 0
  end.

Definition own_change (evs : list event) : Z :=
  wrap_long (sumZ (update_delta <$> evs)).

(** From [m] to [m'] this thread's own additions to the counter cancel:
    the counter moved by what the other threads added meanwhile (the first
    [k] entries of [others]) and by nothing else; the queue, the waiter
    records and the lock are as they were. *)
Definition rolled_back (m m' : machine) : Prop :=
  stack m' = stack m /\
  wait_list (sem m') = wait_list (sem m) /\
  wait_lock (sem m') = wait_lock (sem m) /\
  exists (k : nat) (evs : list event),
    others m' = drop k (others m) /\
    trace m' = trace m ++ evs /\
    own_change evs = 0 /\
    wrap_long (count (sem m')) = wrap_long (count (sem m) + sumZ (take k (others m))).

(** A computation that cannot run out of fuel. *)
Definition total {A} (c : M A) : Prop := forall m, c m <> OutOfFuel.

Create HintDb total.

(** ** Concrete machines, in the 32-bit layout *)

Definition waiter_rec (p n : list_ptr) (t : task_struct) (f : Z) : rwsem_waiter :=
  {| w_list := {| next := n; prev := p |}; task := Some t; flags := f |}.

(** Two queued writers, waiter 1 (thread 11) before waiter 2 (thread 12),
    the lock held. *)
Definition two_writers (c : Z) (interference_ : list Z) : machine :=
  {| sem := {| count := c; wait_lock := true;
               wait_list := {| next := ListOf 1%nat; prev := ListOf 2%nat |} |};
     stack := {[ 1%nat := waiter_rec ListHead (ListOf 2%nat) 11%nat RWSEM_WAITING_FOR_WRITE;
                 2%nat := waiter_rec (ListOf 1%nat) ListHead 12%nat RWSEM_WAITING_FOR_WRITE ]};
     others := interference_; trace := [] |}.

(** Readers 1 and 2 (threads 11, 12), then writer 3 (thread 13), the lock
    held. *)
Definition readers_then_writer (c : Z) : machine :=
  {| sem := {| count := c; wait_lock := true;
               wait_list := {| next := ListOf 1%nat; prev := ListOf 3%nat |} |};
     stack := {[ 1%nat := waiter_rec ListHead (ListOf 2%nat) 11%nat RWSEM_WAITING_FOR_READ;
                 2%nat := waiter_rec (ListOf 1%nat) (ListOf 3%nat) 12%nat RWSEM_WAITING_FOR_READ;
                 3%nat := waiter_rec (ListOf 2%nat) ListHead 13%nat RWSEM_WAITING_FOR_WRITE ]};
     others := []; trace := [] |}.

(** One queued writer, waiter 1 (thread 11). *)
Definition one_writer (c : Z) (lk : bool) : machine :=
  {| sem := {| count := c; wait_lock := lk;
               wait_list := {| next := ListOf 1%nat; prev := ListOf 1%nat |} |};
     stack := {[ 1%nat := waiter_rec ListHead ListHead 11%nat RWSEM_WAITING_FOR_WRITE ]};
     others := []; trace := [] |}.

(** Writer 1 (thread 11) is queued behind an active writer, and a reader
    (thread 12) whose fast path just failed has its waiter, 2, on its
    stack: flags set, nothing else written yet. *)
Definition reader_arrives : machine :=
  {| sem := {| count := -131070; wait_lock := false;
               wait_list := {| next := ListOf 1%nat; prev := ListOf 1%nat |} |};
     stack := {[ 1%nat := waiter_rec ListHead ListHead 11%nat RWSEM_WAITING_FOR_WRITE;
                 2%nat := set_flags RWSEM_WAITING_FOR_READ indeterminate_waiter ]};
     others := []; trace := [] |}.

(** What the holder of the write lock does to the counter when it
    releases while the thread sleeps ([up_write]'s fast path). *)
Definition holder_releases (m : machine) : machine :=
  set_sem (fun s => set_count (wrap_long (count s - @RWSEM_ACTIVE_WRITE_BIAS bias32)) s) m.

(** ** The machines the entry points leave *)

(** After the wake engine was called for a downgrade on a queue [l] of
    live waiters: the readers at the front of [l], if any, are granted. *)
Definition downgraded {bias : rwsem_bias} (m : machine) (l : list waiter_ptr) : machine :=
  match reader_run m l with
  | O => m
  | S k =>
      relinked (hd_ptr (drop (S k) l) ListHead)
        (granted (take (S k) l)
           (atomic_added (readers_adjustment true (Z.of_nat (S k))) m))
  end.

(** The events of the grants of the waiters [ws], first to last. *)
Definition grants (m : machine) (ws : list waiter_ptr) : list event :=
  flat_map (fun v => grant_events (task_of m v)) ws.

(** The flags of a waiter, 0 for no waiter. *)
Definition flags_of (m : machine) (w : waiter_ptr) : Z :=
  match stack m !! w with Some r => flags r | None => 0 end.

(** What follows the queueing in [rwsem_down_failed_common] (lines
    179-198): the wait loop and the way out of it. *)
Definition wait_for_grant {bias : rwsem_bias} (others_run : machine -> machine)
    (flags_in_scope : Z) (waiter_slot : waiter_ptr)
    (fuel : nat) (tsk : task_struct) (waiter : waiter_ptr) : M unit :=
  e <- wait_loop others_run flags_in_scope waiter_slot fuel tsk waiter ;;
  match e with
  | ReturnSem => ret tt
  | _ => set_task_state (Some tsk) TASK_RUNNING
  end.

(** The machine once [rwsem_down_read_failed] or
    [rwsem_down_write_failed] has its waiter on the stack, at a fresh
    address, with its flags set. *)
Definition new_waiter (m : machine) : waiter_ptr := fresh (dom (stack m)).

Definition framed (f : Z) (m : machine) : machine :=
  set_stack (insert (new_waiter m) (set_flags f indeterminate_waiter)) m.

(** What the other threads do while the thread sleeps, when the holder
    of the write lock downgrades and its [downgrade_write] comes to call
    [rwsem_downgrade_wake]. *)
Definition downgrade_meanwhile {bias : rwsem_bias} (fuel : nat) (m : machine) : machine :=
  match rwsem_downgrade_wake fuel m with
  | Ok _ m' => m'
  | _ => m
  end.

(** Readers 1 and 2 (threads 11, 12) queued behind an active writer, the
    lock free. *)
Definition two_readers (c : Z) : machine :=
  {| sem := {| count := c; wait_lock := false;
               wait_list := {| next := ListOf 1%nat; prev := ListOf 2%nat |} |};
     stack := {[ 1%nat := waiter_rec ListHead (ListOf 2%nat) 11%nat RWSEM_WAITING_FOR_READ;
                 2%nat := waiter_rec (ListOf 1%nat) ListHead 12%nat RWSEM_WAITING_FOR_READ ]};
     others := []; trace := [] |}.

(** A semaphore nobody waits for, and no waiter anywhere. *)
Definition no_waiters (c : Z) : machine :=
  {| sem := {| count := c; wait_lock := false;
               wait_list := {| next := ListHead; prev := ListHead |} |};
     stack := ∅; others := []; trace := [] |}.

(** * Properties *)

(** ** Machine integers *)

Lemma wrap_long_add_l (a b : Z) : wrap_long (wrap_long a + b) = wrap_long (a + b).
Proof.
  unfold wrap_long, BITS_PER_LONG.
  replace ((a + 2 ^ (32 - 1)) mod 2 ^ 32 - 2 ^ (32 - 1) + b + 2 ^ (32 - 1))
    with ((a + 2 ^ (32 - 1)) mod 2 ^ 32 + b) by lia.
  rewrite Zplus_mod_idemp_l. f_equal. f_equal. lia.
Qed.

Lemma wrap_long_small (a : Z) :
  - 2 ^ 31 <= a < 2 ^ 31 -> wrap_long a = a.
Proof.
  intros H. unfold wrap_long, BITS_PER_LONG.
  rewrite Z.mod_small; lia.
Qed.

Lemma wrap_long_sub_l (a b : Z) : wrap_long (wrap_long a - b) = wrap_long (a - b).
Proof. unfold Z.sub. apply wrap_long_add_l. Qed.

Lemma wrap_long_mul_r (a b : Z) : wrap_long (a * wrap_long b) = wrap_long (a * b).
Proof.
  unfold wrap_long, BITS_PER_LONG.
  set (P := 2 ^ (32 - 1)). set (Q := 2 ^ 32).
  f_equal.
  replace (a * ((b + P) mod Q - P) + P) with (a * ((b + P) mod Q) + (P - a * P)) by ring.
  rewrite Zplus_mod, Zmult_mod_idemp_r, <- Zplus_mod.
  f_equal. ring.
Qed.

(** ** List heads in memory *)

Lemma load_list_head_ok (m : machine) (p : list_ptr) (h : list_head) :
  lh_get m p = Some h -> load_list_head p m = Ok h m.
Proof.
  destruct p; simpl; try discriminate.
  - intros [= <-]. reflexivity.
  - unfold bind, load_waiter. destruct (stack m !! w); simpl; [|discriminate].
    intros [= <-]. reflexivity.
Qed.

Lemma store_list_head_ok (m : machine) (p : list_ptr) (f : list_head -> list_head) :
  is_Some (lh_get m p) -> store_list_head p f m = Ok tt (lh_set p f m).
Proof.
  intros [h Hh]. destruct p; simpl in *; try discriminate.
  - reflexivity.
  - unfold store_waiter, bind, load_waiter.
    destruct (stack m !! w); simpl in *; [reflexivity | discriminate].
Qed.

Lemma lh_get_set (m : machine) (p q : list_ptr) (f : list_head -> list_head) :
  lh_get (lh_set p f m) q =
    if decide (q = p) then f <$> lh_get m p else lh_get m q.
Proof.
  destruct (decide (q = p)) as [->|Hne].
  - destruct p; simpl; try reflexivity.
    destruct (stack m !! w) eqn:E; simpl.
    + rewrite lookup_insert_eq. reflexivity.
    + rewrite E. reflexivity.
  - destruct p; simpl; try reflexivity.
    + destruct q; try reflexivity. congruence.
    + destruct (stack m !! w) eqn:E; simpl; [|reflexivity].
      destruct q; try reflexivity. simpl.
      rewrite lookup_insert_ne by congruence. reflexivity.
Qed.

Lemma lh_get_set_eq (m : machine) (p : list_ptr) (f : list_head -> list_head) :
  lh_get (lh_set p f m) p = f <$> lh_get m p.
Proof. rewrite lh_get_set. destruct (decide (p = p)); congruence. Qed.

Lemma lh_get_set_ne (m : machine) (p q : list_ptr) (f : list_head -> list_head) :
  q <> p -> lh_get (lh_set p f m) q = lh_get m q.
Proof. intros H. rewrite lh_get_set. destruct (decide (q = p)); congruence. Qed.

(** A store into a list head leaves every waiter's [task] and [flags], the
    counter, the lock, and the trace alone. *)
Lemma lh_set_task (m : machine) (p : list_ptr) f (w : waiter_ptr) :
  task <$> stack (lh_set p f m) !! w = task <$> stack m !! w.
Proof.
  destruct p; simpl; try reflexivity.
  destruct (stack m !! w0) eqn:E; simpl; [|reflexivity].
  destruct (decide (w0 = w)) as [->|Hne].
  - rewrite lookup_insert_eq, E. reflexivity.
  - rewrite lookup_insert_ne by done. reflexivity.
Qed.

Lemma task_of_lh_set (m : machine) (p : list_ptr) f (w : waiter_ptr) :
  task_of (lh_set p f m) w = task_of m w.
Proof.
  unfold task_of. pose proof (lh_set_task m p f w) as H.
  destruct (stack (lh_set p f m) !! w), (stack m !! w); simpl in H; congruence.
Qed.

Lemma lh_set_rest (m : machine) (p : list_ptr) f :
  count (sem (lh_set p f m)) = count (sem m) /\
  wait_lock (sem (lh_set p f m)) = wait_lock (sem m) /\
  others (lh_set p f m) = others m /\
  trace (lh_set p f m) = trace m.
Proof.
  destruct p; simpl; auto.
  destruct (stack m !! w); simpl; auto.
Qed.

(** ** Chains of list heads *)

#[global] Instance ListOf_inj : Inj (=) (=) ListOf.
Proof. intros ? ? [=]. done. Qed.

Lemma last_ptr_nil (from : list_ptr) : last_ptr from [] = from.
Proof. reflexivity. Qed.

Lemma last_ptr_cons (from : list_ptr) (w : waiter_ptr) (l : list waiter_ptr) :
  last_ptr from (w :: l) = last_ptr (ListOf w) l.
Proof.
  unfold last_ptr. destruct l as [|w' l]; [reflexivity|].
  rewrite last_cons_cons. destruct (last (w' :: l)) eqn:E; [reflexivity|].
  apply last_None in E. discriminate.
Qed.

Lemma last_ptr_snoc (from : list_ptr) (l : list waiter_ptr) (w : waiter_ptr) :
  last_ptr from (l ++ [w]) = ListOf w.
Proof. unfold last_ptr. rewrite last_snoc. reflexivity. Qed.

Lemma hd_ptr_rev (l : list waiter_ptr) (e : list_ptr) :
  hd_ptr (rev l) e = last_ptr e l.
Proof.
  destruct l as [|w l] using rev_ind; [reflexivity|].
  rewrite rev_app_distr, last_ptr_snoc. reflexivity.
Qed.

Lemma last_ptr_rev (l : list waiter_ptr) (e : list_ptr) :
  last_ptr e (rev l) = hd_ptr l e.
Proof. rewrite <- (rev_involutive l) at 2. symmetry. apply hd_ptr_rev. Qed.

Lemma last_ptr_elem (from : list_ptr) (l : list waiter_ptr) :
  last_ptr from l ∈ from :: (ListOf <$> l).
Proof.
  unfold last_ptr. destruct (last l) as [w|] eqn:E; [|left].
  right. apply list_elem_of_fmap. exists w. split; [done|].
  apply last_Some in E as [l' ->]. apply elem_of_app. right. left.
Qed.

Lemma NoDup_rev_list {A} (l : list A) : NoDup l -> NoDup (rev l).
Proof. rewrite !NoDup_ListNoDup. apply List.NoDup_rev. Qed.

Lemma NoDup_head_ptrs (l : list waiter_ptr) :
  NoDup l -> NoDup (ListHead :: (ListOf <$> l)).
Proof.
  intros H. constructor.
  - intros (w & Hw & _)%list_elem_of_fmap. discriminate.
  - apply (NoDup_fmap_2 _). done.
Qed.

Section Chains.

Variable fld : list_head -> list_ptr.

Lemma chain_hd (m : machine) (from : list_ptr) (l : list waiter_ptr) (e : list_ptr) :
  chain fld m from l e -> fld <$> lh_get m from = Some (hd_ptr l e).
Proof. destruct l; simpl; [done | by intros [? _]]. Qed.

Lemma chain_app_cons (m : machine) (from : list_ptr) (l1 : list waiter_ptr)
    (w : waiter_ptr) (l2 : list waiter_ptr) (e : list_ptr) :
  chain fld m from (l1 ++ w :: l2) e <->
  chain fld m from l1 (ListOf w) /\ chain fld m (ListOf w) l2 e.
Proof.
  revert from. induction l1 as [|a l1 IH]; intros from; simpl.
  - reflexivity.
  - rewrite IH. tauto.
Qed.

Lemma chain_join (m : machine) (from : list_ptr) (l1 l2 : list waiter_ptr) (e : list_ptr) :
  chain fld m from l1 (hd_ptr l2 e) ->
  match l2 with [] => True | b :: l2' => chain fld m (ListOf b) l2' e end ->
  chain fld m from (l1 ++ l2) e.
Proof.
  destruct l2 as [|b l2]; simpl.
  - rewrite app_nil_r. done.
  - intros. apply chain_app_cons. done.
Qed.

Lemma chain_frame (m m' : machine) (from : list_ptr) (l : list waiter_ptr) (e : list_ptr) :
  (forall p, p ∈ from :: (ListOf <$> l) -> fld <$> lh_get m' p = fld <$> lh_get m p) ->
  chain fld m from l e -> chain fld m' from l e.
Proof.
  revert from. induction l as [|w l IH]; intros from Hag; simpl.
  - rewrite Hag by left. done.
  - intros [H1 H2]. split.
    + rewrite Hag by left. done.
    + apply IH; [|done]. intros p Hp. apply Hag. right. done.
Qed.

Lemma chain_set_last (m m' : machine) (from : list_ptr) (l : list waiter_ptr)
    (e e' : list_ptr) :
  chain fld m from l e ->
  NoDup (from :: (ListOf <$> l)) ->
  (forall p, p ∈ from :: (ListOf <$> l) -> p <> last_ptr from l ->
     fld <$> lh_get m' p = fld <$> lh_get m p) ->
  fld <$> lh_get m' (last_ptr from l) = Some e' ->
  chain fld m' from l e'.
Proof.
  revert from. induction l as [|w l IH]; intros from Hc Hnd Hag Hlast; simpl in *.
  - done.
  - destruct Hc as [H1 H2]. rewrite last_ptr_cons in Hlast.
    apply NoDup_cons in Hnd as [Hfrom Hnd].
    split.
    + rewrite Hag; [done | left |].
      rewrite last_ptr_cons. intros ->. apply Hfrom.
      apply (last_ptr_elem (ListOf w) l).
    + apply IH; [done | done | | done].
      intros p Hp Hne. apply Hag; [by right|].
      rewrite last_ptr_cons. done.
Qed.

Lemma chain_from (m : machine) (from : list_ptr) (l : list waiter_ptr) (e : list_ptr) :
  chain fld m from l e -> is_Some (lh_get m from).
Proof.
  intros H%chain_hd. destruct (lh_get m from); [done | discriminate].
Qed.

End Chains.

Lemma chain_app (fld : list_head -> list_ptr) (m : machine) (from : list_ptr)
    (l1 l2 : list waiter_ptr) (e : list_ptr) :
  chain fld m from (l1 ++ l2) e <->
  chain fld m from l1 (hd_ptr l2 e) /\ chain fld m (last_ptr from l1) l2 e.
Proof.
  revert from. induction l1 as [|a l1 IH]; intros from; simpl.
  - rewrite last_ptr_nil. split; [|tauto].
    intros H. split; [|done]. by apply chain_hd.
  - rewrite last_ptr_cons, IH. tauto.
Qed.

(** The same waiters hang off another list head, in another machine. *)
Lemma chain_change_from (fld : list_head -> list_ptr) (m m' : machine)
    (from from' : list_ptr) (l : list waiter_ptr) (e : list_ptr) :
  chain fld m from l e ->
  fld <$> lh_get m' from' = Some (hd_ptr l e) ->
  (forall p, p ∈ ListOf <$> l -> fld <$> lh_get m' p = fld <$> lh_get m p) ->
  chain fld m' from' l e.
Proof.
  destruct l as [|w l]; simpl; [done|].
  intros [_ H] Hfrom Hag. split; [done|].
  eapply chain_frame; [|exact H]. exact Hag.
Qed.

(** ** Stores into list heads, member by member *)

Lemma lh_set_is_Some (m : machine) (p q : list_ptr) (f : list_head -> list_head) :
  is_Some (lh_get m q) -> is_Some (lh_get (lh_set p f m) q).
Proof.
  intros H. rewrite lh_get_set. destruct (decide (q = p)) as [->|]; [|done].
  destruct H as [h ->]. by eexists.
Qed.

Lemma next_set_prev (m : machine) (p q v : list_ptr) :
  next <$> lh_get (lh_set q (set_prev v) m) p = next <$> lh_get m p.
Proof.
  rewrite lh_get_set. destruct (decide (p = q)) as [->|]; [|done].
  by destruct (lh_get m q).
Qed.

Lemma prev_set_next (m : machine) (p q v : list_ptr) :
  prev <$> lh_get (lh_set q (set_next v) m) p = prev <$> lh_get m p.
Proof.
  rewrite lh_get_set. destruct (decide (p = q)) as [->|]; [|done].
  by destruct (lh_get m q).
Qed.

Lemma next_set_next_eq (m : machine) (q v : list_ptr) :
  is_Some (lh_get m q) -> next <$> lh_get (lh_set q (set_next v) m) q = Some v.
Proof. intros [h Hh]. by rewrite lh_get_set_eq, Hh. Qed.

Lemma prev_set_prev_eq (m : machine) (q v : list_ptr) :
  is_Some (lh_get m q) -> prev <$> lh_get (lh_set q (set_prev v) m) q = Some v.
Proof. intros [h Hh]. by rewrite lh_get_set_eq, Hh. Qed.

Lemma fld_set_ne (fld : list_head -> list_ptr) (m : machine) (p q : list_ptr) f :
  p <> q -> fld <$> lh_get (lh_set q f m) p = fld <$> lh_get m p.
Proof. intros H. by rewrite lh_get_set_ne. Qed.

(** ** [list_del] *)

Lemma list_del_ok (m : machine) (w : waiter_ptr) (e : list_head) :
  lh_get m (ListOf w) = Some e ->
  is_Some (lh_get m (next e)) ->
  is_Some (lh_get m (prev e)) ->
  list_del (ListOf w) m = Ok tt (unlinked w e m).
Proof.
  intros He Hn Hp. unfold list_del, bind.
  rewrite (load_list_head_ok _ _ _ He).
  rewrite store_list_head_ok by done.
  rewrite store_list_head_ok by by apply lh_set_is_Some.
  rewrite store_list_head_ok; [reflexivity|].
  do 2 apply lh_set_is_Some. by rewrite He.
Qed.

(** Taking [w] out of a chain by pointing its predecessor [x] at its
    successor. *)
Lemma chain_unlink (fld : list_head -> list_ptr) (m m' : machine)
    (la lb : list waiter_ptr) (w : waiter_ptr) :
  NoDup (la ++ w :: lb) ->
  chain fld m ListHead (la ++ w :: lb) ListHead ->
  (forall p, p <> ListOf w -> p <> last_ptr ListHead la ->
     fld <$> lh_get m' p = fld <$> lh_get m p) ->
  fld <$> lh_get m' (last_ptr ListHead la) = Some (hd_ptr lb ListHead) ->
  chain fld m' ListHead (la ++ lb) ListHead.
Proof.
  intros Hnd Hc Hag Hx.
  apply NoDup_app in Hnd as (Hnda & Hdisj & [Hw Hndb]%NoDup_cons).
  apply chain_app_cons in Hc as [Ha Hb].
  apply chain_join.
  - eapply chain_set_last; [exact Ha | by apply NoDup_head_ptrs | | done].
    intros p Hp Hne. apply Hag; [|done].
    intros ->. apply elem_of_cons in Hp as [|Hp]; [done|].
    apply list_elem_of_fmap_inj_2 in Hp; [|apply _].
    apply (Hdisj w); [done | left].
  - destruct lb as [|b lb]; [done|]. destruct Hb as [_ Hb].
    eapply chain_frame; [|exact Hb].
    intros p Hp. apply Hag.
    + intros ->. apply Hw. apply list_elem_of_fmap_inj_2 with (f := ListOf); [apply _|].
      exact Hp.
    + intros Hlast. rewrite <- fmap_cons in Hp.
      apply list_elem_of_fmap in Hp as (v & -> & Hv).
      pose proof (last_ptr_elem ListHead la) as Hin. rewrite <- Hlast in Hin.
      apply elem_of_cons in Hin as [|Hin]; [done|].
      apply list_elem_of_fmap_inj_2 in Hin; [|apply _].
      apply (Hdisj v Hin). right. done.
Qed.

Lemma list_del_queue (m : machine) (l1 l2 : list waiter_ptr) (w : waiter_ptr) :
  queue m (l1 ++ w :: l2) ->
  exists e, lh_get m (ListOf w) = Some e /\
    list_del (ListOf w) m = Ok tt (unlinked w e m) /\
    queue (unlinked w e m) (l1 ++ l2).
Proof.
  intros (Hnd & Hn & Hp).
  rewrite rev_app_distr in Hp. simpl in Hp. rewrite <- app_assoc in Hp. simpl in Hp.
  pose proof Hn as [Hn1 Hn2]%chain_app_cons.
  pose proof Hp as [Hp1 Hp2]%chain_app_cons.
  pose proof (chain_hd _ _ _ _ _ Hn2) as Hnw.
  pose proof (chain_hd _ _ _ _ _ Hp2) as Hpw.
  destruct (lh_get m (ListOf w)) as [e|] eqn:He; [|discriminate].
  simpl in Hnw, Hpw. injection Hnw as Hnw. injection Hpw as Hpw.
  rewrite hd_ptr_rev in Hpw.
  assert (Hsn : is_Some (lh_get m (next e))).
  { rewrite Hnw. destruct l2 as [|b l2]; simpl; [done|].
    destruct Hn2 as [_ Hn2]. by apply chain_from in Hn2. }
  assert (Hsp : is_Some (lh_get m (prev e))).
  { rewrite Hpw, <- hd_ptr_rev. destruct (rev l1) as [|a l1']; simpl; [done|].
    destruct Hp2 as [_ Hp2]. by apply chain_from in Hp2. }
  assert (Hpne : prev e <> ListOf w).
  { rewrite Hpw. intros Heq.
    pose proof (last_ptr_elem ListHead l1) as Hin. rewrite Heq in Hin.
    apply elem_of_cons in Hin as [|Hin]; [done|].
    apply list_elem_of_fmap_inj_2 in Hin; [|apply _].
    apply NoDup_app in Hnd as (_ & Hd & _). apply (Hd w Hin). left. }
  assert (Hnne : next e <> ListOf w).
  { rewrite Hnw. destruct l2 as [|b l2]; simpl; [done|]. intros [= ->].
    apply NoDup_app in Hnd as (_ & _ & [Hw _]%NoDup_cons). apply Hw. left. }
  exists e. split; [done|]. split; [by apply list_del_ok|].
  unfold unlinked. split; [|split].
  - apply NoDup_app in Hnd as (? & Hd & [? ?]%NoDup_cons).
    apply NoDup_app. split; [done|]. split; [|done].
    intros x Hx Hx'. apply (Hd x Hx). by right.
  - eapply chain_unlink; [exact Hnd | exact Hn | |].
    + intros p Hp1' Hp2'. rewrite <- Hpw in Hp2'.
      rewrite fld_set_ne by done. rewrite fld_set_ne by done.
      apply next_set_prev.
    + rewrite <- Hpw, <- Hnw. rewrite fld_set_ne by done.
      apply next_set_next_eq. by apply lh_set_is_Some.
  - rewrite rev_app_distr.
    eapply chain_unlink; [| exact Hp | |].
    + apply NoDup_rev_list in Hnd. rewrite rev_app_distr in Hnd. simpl in Hnd.
      rewrite <- app_assoc in Hnd. exact Hnd.
    + intros p Hp1' Hp2'. rewrite last_ptr_rev, <- Hnw in Hp2'.
      rewrite fld_set_ne by done. rewrite prev_set_next.
      by rewrite fld_set_ne.
    + rewrite last_ptr_rev, hd_ptr_rev, <- Hnw, <- Hpw.
      rewrite fld_set_ne by done. rewrite prev_set_next.
      by apply prev_set_prev_eq.
Qed.

(** ** [list_add_tail] *)

Lemma list_add_tail_ok (m : machine) (w : waiter_ptr) :
  is_Some (stack m !! w) ->
  is_Some (lh_get m (prev (wait_list (sem m)))) ->
  list_add_tail (ListOf w) ListHead m = Ok tt (appended w m).
Proof.
  intros Hw Hp.
  assert (Hw' : is_Some (lh_get m (ListOf w))).
  { simpl. destruct Hw as [r ->]. by eexists. }
  unfold list_add_tail, bind.
  rewrite (load_list_head_ok m ListHead (wait_list (sem m)) eq_refl).
  unfold __list_add, bind.
  rewrite (store_list_head_ok _ ListHead) by done.
  rewrite (store_list_head_ok _ (ListOf w)) by by apply lh_set_is_Some.
  rewrite (store_list_head_ok _ (ListOf w)) by by do 2 apply lh_set_is_Some.
  rewrite store_list_head_ok by by do 3 apply lh_set_is_Some.
  reflexivity.
Qed.

Lemma queue_prev_head (m : machine) (l : list waiter_ptr) :
  queue m l ->
  prev (wait_list (sem m)) = last_ptr ListHead l /\
  is_Some (lh_get m (last_ptr ListHead l)).
Proof.
  intros (_ & _ & Hp). pose proof (chain_hd _ _ _ _ _ Hp) as H.
  simpl in H. injection H as H. rewrite hd_ptr_rev in H. split; [done|].
  rewrite <- hd_ptr_rev. destruct (rev l) as [|a l']; simpl; [done|].
  destruct Hp as [_ Hp]. by apply chain_from in Hp.
Qed.

Lemma queue_next_head (m : machine) (l : list waiter_ptr) :
  queue m l -> next (wait_list (sem m)) = hd_ptr l ListHead.
Proof.
  intros (_ & Hn & _). pose proof (chain_hd _ _ _ _ _ Hn) as H.
  simpl in H. by injection H.
Qed.

Lemma list_add_tail_queue (m : machine) (l : list waiter_ptr) (w : waiter_ptr) :
  queue m l -> is_Some (stack m !! w) -> w ∉ l ->
  list_add_tail (ListOf w) ListHead m = Ok tt (appended w m) /\
  queue (appended w m) (l ++ [w]).
Proof.
  intros Hq Hw Hnin.
  destruct (queue_prev_head _ _ Hq) as [Hprv Hsp].
  destruct Hq as (Hnd & Hn & Hp).
  assert (Hw' : is_Some (lh_get m (ListOf w))).
  { simpl. destruct Hw as [r ->]. by eexists. }
  assert (Hne : forall p, p ∈ ListHead :: (ListOf <$> l) -> p <> ListOf w).
  { intros p Hin ->. apply elem_of_cons in Hin as [|Hin]; [done|].
    by apply list_elem_of_fmap_inj_2 in Hin; [|apply _]. }
  assert (Hpne : last_ptr ListHead l <> ListOf w) by apply Hne, last_ptr_elem.
  split; [apply list_add_tail_ok; [done | by rewrite Hprv]|].
  unfold appended. rewrite Hprv. split; [|split].
  - apply NoDup_app. split; [done|]. split; [|apply NoDup_singleton].
    intros x Hx ->%list_elem_of_singleton. done.
  - apply chain_app_cons. split.
    + eapply chain_set_last; [exact Hn | by apply NoDup_head_ptrs | |].
      * intros p Hin Hlast. rewrite fld_set_ne by done.
        rewrite !fld_set_ne by by apply Hne.
        apply next_set_prev.
      * apply next_set_next_eq. by do 3 apply lh_set_is_Some.
    + cbn [chain]. rewrite fld_set_ne by done. rewrite next_set_prev.
      apply next_set_next_eq. by apply lh_set_is_Some.
  - rewrite rev_app_distr. cbn [rev app chain]. split.
    + rewrite prev_set_next. rewrite !fld_set_ne by done.
      by apply prev_set_prev_eq.
    + eapply chain_change_from; [exact Hp | |].
      * rewrite prev_set_next, hd_ptr_rev.
        apply prev_set_prev_eq. by do 2 apply lh_set_is_Some.
      * intros p Hin. rewrite prev_set_next.
        assert (p <> ListOf w).
        { apply Hne. right. apply list_elem_of_fmap in Hin as (v & -> & Hv).
          apply list_elem_of_fmap_2. apply list_elem_of_In.
          apply list_elem_of_In, in_rev in Hv. done. }
        rewrite !fld_set_ne by done.
        apply fld_set_ne. apply list_elem_of_fmap in Hin as (v & -> & _). done.
Qed.

(** ** Cutting the front of the queue off (lines 109-110) *)

Lemma relink_ok (m : machine) (nxt : list_ptr) :
  is_Some (lh_get m nxt) -> relink nxt m = Ok tt (relinked nxt m).
Proof.
  intros H. unfold relink, bind.
  rewrite store_list_head_ok by done.
  rewrite store_list_head_ok by by apply lh_set_is_Some.
  reflexivity.
Qed.

Lemma relinked_rest (m : machine) (nxt : list_ptr) :
  count (sem (relinked nxt m)) = count (sem m) /\
  wait_lock (sem (relinked nxt m)) = wait_lock (sem m) /\
  others (relinked nxt m) = others m /\
  trace (relinked nxt m) = trace m.
Proof.
  unfold relinked.
  destruct (lh_set_rest (lh_set ListHead (set_next nxt) m) nxt (set_prev ListHead))
    as (-> & -> & -> & ->).
  apply lh_set_rest.
Qed.

Lemma relinked_task (m : machine) (nxt : list_ptr) (w : waiter_ptr) :
  task <$> stack (relinked nxt m) !! w = task <$> stack m !! w.
Proof. unfold relinked. by rewrite !lh_set_task. Qed.

Lemma hd_ptr_is_Some (fld : list_head -> list_ptr) (m : machine) (from : list_ptr)
    (l : list waiter_ptr) (e : list_ptr) :
  chain fld m from l e -> is_Some (lh_get m e) -> is_Some (lh_get m (hd_ptr l e)).
Proof.
  destruct l as [|b l]; simpl; [done|]. intros [_ H] _. by apply chain_from in H.
Qed.

Lemma relink_queue (m : machine) (l1 l2 : list waiter_ptr) :
  queue m (l1 ++ l2) ->
  relink (hd_ptr l2 ListHead) m = Ok tt (relinked (hd_ptr l2 ListHead) m) /\
  queue (relinked (hd_ptr l2 ListHead) m) l2.
Proof.
  intros (Hnd & Hn & Hp).
  apply chain_app in Hn as [_ Hn]. rewrite rev_app_distr in Hp.
  apply chain_app in Hp as [Hp _].
  assert (Hs : is_Some (lh_get m (hd_ptr l2 ListHead))).
  { eapply hd_ptr_is_Some; [exact Hn | done]. }
  apply NoDup_app in Hnd as (_ & _ & Hnd2).
  split; [by apply relink_ok|]. unfold relinked. split; [done | split].
  - eapply chain_change_from; [exact Hn | |].
    + rewrite next_set_prev. by apply next_set_next_eq.
    + intros p Hin. rewrite next_set_prev. apply fld_set_ne.
      apply list_elem_of_fmap in Hin as (v & -> & _). done.
  - eapply chain_set_last; [exact Hp | | |].
    + apply NoDup_head_ptrs. by apply NoDup_rev_list.
    + intros p Hin Hlast. rewrite last_ptr_rev in Hlast.
      rewrite fld_set_ne by done. apply prev_set_next.
    + rewrite last_ptr_rev. apply prev_set_prev_eq. by apply lh_set_is_Some.
Qed.

(** ** The grant loop *)

Lemma granted_sem (ws : list waiter_ptr) (m : machine) :
  sem (granted ws m) = sem m /\ others (granted ws m) = others m.
Proof.
  revert m. induction ws as [|a ws IH]; intros m; simpl; [done|].
  destruct (IH {| sem := sem m; stack := alter (set_task None) a (stack m);
                  others := others m;
                  trace := trace m ++ grant_events (task_of m a) |}) as [-> ->].
  done.
Qed.

Lemma granted_lookup (ws : list waiter_ptr) (m : machine) (w : waiter_ptr) :
  stack (granted ws m) !! w =
    if decide (w ∈ ws) then set_task None <$> stack m !! w else stack m !! w.
Proof.
  revert m. induction ws as [|a ws IH]; intros m; simpl.
  - destruct (decide (w ∈ [])) as [H|]; [|done]. by apply elem_of_nil in H.
  - rewrite IH. simpl. rewrite lookup_alter.
    destruct (decide (w ∈ ws)) as [Hin|Hnin], (decide (a = w)) as [->|Hne].
    + rewrite decide_True by left. by destruct (stack m !! w).
    + rewrite decide_True by by right. done.
    + rewrite decide_True by left. done.
    + rewrite decide_False; [done|]. intros [->|?]%elem_of_cons; done.
Qed.

Lemma granted_lookup_in (ws : list waiter_ptr) (m : machine) (w : waiter_ptr) :
  w ∈ ws -> stack (granted ws m) !! w = set_task None <$> stack m !! w.
Proof. intros H. by rewrite granted_lookup, decide_True. Qed.

Lemma granted_lookup_notin (ws : list waiter_ptr) (m : machine) (w : waiter_ptr) :
  w ∉ ws -> stack (granted ws m) !! w = stack m !! w.
Proof. intros H. by rewrite granted_lookup, decide_False. Qed.

Lemma granted_lh_get (ws : list waiter_ptr) (m : machine) (p : list_ptr) :
  lh_get (granted ws m) p = lh_get m p.
Proof.
  destruct p; simpl; try reflexivity.
  - by destruct (granted_sem ws m) as [-> _].
  - rewrite granted_lookup. destruct (decide (w ∈ ws)); [|done].
    by destruct (stack m !! w).
Qed.

Lemma granted_queue (ws : list waiter_ptr) (m : machine) (l : list waiter_ptr) :
  queue m l -> queue (granted ws m) l.
Proof.
  intros (Hnd & Hn & Hp). split; [done|].
  split; (eapply chain_frame; [|eassumption]); intros p _; by rewrite granted_lh_get.
Qed.

Lemma flat_map_agree {A B} (f g : A -> list B) (l : list A) :
  (forall x, x ∈ l -> f x = g x) -> flat_map f l = flat_map g l.
Proof.
  induction l as [|a l IH]; intros H; simpl; [done|].
  rewrite H by left. rewrite IH; [done|]. intros x Hx. apply H. by right.
Qed.

Lemma granted_trace (ws : list waiter_ptr) (m : machine) :
  NoDup ws ->
  trace (granted ws m) = trace m ++ flat_map (fun w => grant_events (task_of m w)) ws.
Proof.
  revert m. induction ws as [|a ws IH]; intros m Hnd; simpl.
  - by rewrite app_nil_r.
  - apply NoDup_cons in Hnd as [Ha Hnd]. rewrite IH by done. simpl.
    rewrite <- app_assoc. do 2 f_equal.
    apply flat_map_agree. intros x Hx. unfold task_of. simpl.
    rewrite lookup_alter_ne; [done|]. intros ->. done.
Qed.

Lemma alter_as_insert (st : gmap waiter_ptr rwsem_waiter) (w : waiter_ptr)
    (r : rwsem_waiter) (f : rwsem_waiter -> rwsem_waiter) :
  st !! w = Some r -> <[w := f r]> st = alter f w st.
Proof.
  intros H. apply map_eq. intros i.
  rewrite lookup_insert, lookup_alter.
  destruct (decide (w = i)) as [->|]; [|done]. by rewrite H.
Qed.

Lemma grant_loop_spec (m : machine) (from : list_ptr) (l1 l2 : list waiter_ptr)
    (e : list_ptr) :
  chain next m from (l1 ++ l2) e ->
  NoDup l1 ->
  (forall w, w ∈ l1 -> task_of m w <> None) ->
  grant_loop (length l1) (hd_ptr (l1 ++ l2) e) m = Ok (hd_ptr l2 e) (granted l1 m).
Proof.
  revert m from. induction l1 as [|a l1 IH]; intros m from Hc Hnd Ht.
  - reflexivity.
  - destruct Hc as [_ Hc]. apply NoDup_cons in Hnd as [Ha Hnd].
    pose proof (chain_hd _ _ _ _ _ Hc) as Hh.
    pose proof (Ht a ltac:(left)) as Hta. unfold task_of in Hta.
    simpl in Hh. destruct (stack m !! a) as [r|] eqn:Hr; [|discriminate].
    simpl in Hh. injection Hh as Hh.
    destruct (task r) as [t|] eqn:Htask; [|done].
    cbn [length app hd_ptr granted grant_loop list_entry].
    unfold bind at 1. unfold ret at 1.
    unfold bind at 1. rewrite (load_list_head_ok m (ListOf a) (w_list r)); [|simpl; by rewrite Hr].
    unfold bind at 1. unfold load_waiter at 1. rewrite Hr.
    unfold bind at 1. unfold smp_mb, event_, modify at 1.
    unfold bind at 1. unfold store_waiter, bind, load_waiter. simpl stack. rewrite Hr.
    unfold modify at 1. rewrite Htask.
    unfold wake_up_process, put_task_struct, with_task, event_, modify.
    rewrite Hh.
    match goal with |- grant_loop _ _ ?m1 = _ =>
      replace m1 with
        {| sem := sem m; stack := alter (set_task None) a (stack m);
           others := others m; trace := trace m ++ grant_events (task_of m a) |}
    end.
    + apply (IH _ (ListOf a)); [|done|].
      * eapply chain_frame; [|exact Hc]. intros p _.
        destruct p; simpl; try reflexivity.
        rewrite lookup_alter. destruct (decide (a = w)) as [->|]; [|done].
        by rewrite Hr.
      * intros w Hw. unfold task_of. simpl. rewrite lookup_alter_ne.
        -- by apply Ht; right.
        -- intros ->. done.
    + unfold emit, set_stack, task_of, grant_events. simpl. rewrite Hr, Htask.
      rewrite (alter_as_insert _ _ r) by done.
      rewrite <- !app_assoc. reflexivity.
Qed.

(** ** The scan over the readers *)

Lemma readers_only_scan_spec {bias : rwsem_bias} (m : machine) (l : list waiter_ptr)
    (fuel : nat) (w : waiter_ptr) (woken : Z) :
  chain next m (ListOf w) l ListHead ->
  (length l < fuel)%nat ->
  readers_only_scan fuel w woken m =
    Ok (wrap_long (woken + 1 + Z.of_nat (reader_run m l))) m.
Proof.
  revert fuel w woken. induction l as [|b l IH]; intros fuel w woken Hc Hf.
  - destruct fuel as [|fuel]; [simpl in Hf; lia|].
    pose proof (chain_hd _ _ _ _ _ Hc) as Hh. simpl in Hh.
    destruct (stack m !! w) as [r|] eqn:Hr; [|discriminate].
    simpl in Hh. injection Hh as Hh.
    cbn [readers_only_scan]. unfold bind at 1.
    rewrite (load_list_head_ok m (ListOf w) (w_list r)); [|simpl; by rewrite Hr].
    rewrite Hh. rewrite decide_True by done. unfold ret. simpl.
    do 2 f_equal. lia.
  - destruct fuel as [|fuel]; [simpl in Hf; lia|].
    pose proof (chain_hd _ _ _ _ _ Hc) as Hh. simpl in Hh.
    destruct (stack m !! w) as [r|] eqn:Hr; [|discriminate].
    simpl in Hh. injection Hh as Hh. destruct Hc as [_ Hc].
    pose proof (chain_from _ _ _ _ _ Hc) as [hb Hb]. simpl in Hb.
    destruct (stack m !! b) as [rb|] eqn:Hrb; [|discriminate].
    cbn [readers_only_scan]. unfold bind at 1.
    rewrite (load_list_head_ok m (ListOf w) (w_list r)); [|simpl; by rewrite Hr].
    rewrite Hh. rewrite decide_False by done.
    cbn [list_entry]. unfold bind at 1. unfold ret at 1.
    unfold bind at 1. unfold load_waiter. rewrite Hrb.
    cbn [reader_run]. rewrite Hrb.
    destruct (Z.land (flags rb) RWSEM_WAITING_FOR_READ =? 0) eqn:Hfl.
    + unfold ret. do 2 f_equal. simpl. lia.
    + rewrite IH; [|done | simpl in Hf; lia].
      rewrite <- Z.add_assoc, wrap_long_add_l. do 2 f_equal. lia.
Qed.

(** ** Atomic operations on the counter *)

Lemma rwsem_atomic_add_ok (delta : Z) (m : machine) :
  rwsem_atomic_add delta m = Ok tt (atomic_added delta m).
Proof. reflexivity. Qed.

Lemma rwsem_atomic_update_ok (delta : Z) (m : machine) :
  rwsem_atomic_update delta m =
    Ok (count (sem (atomic_updated delta m))) (atomic_updated delta m).
Proof. reflexivity. Qed.

Lemma interfered_stack (m : machine) :
  stack (interfered m) = stack m /\
  wait_list (sem (interfered m)) = wait_list (sem m) /\
  wait_lock (sem (interfered m)) = wait_lock (sem m) /\
  trace (interfered m) = trace m.
Proof. unfold interfered. destruct (others m); simpl; auto. Qed.

Lemma atomic_added_stack (delta : Z) (m : machine) :
  stack (atomic_added delta m) = stack m /\
  wait_list (sem (atomic_added delta m)) = wait_list (sem m) /\
  wait_lock (sem (atomic_added delta m)) = wait_lock (sem m) /\
  trace (atomic_added delta m) = trace m ++ [EvAtomicAdd delta].
Proof.
  destruct (interfered_stack m) as (H1 & H2 & H3 & H4).
  unfold atomic_added. simpl. rewrite H1, H2, H3, H4. auto.
Qed.

Lemma atomic_updated_stack (delta : Z) (m : machine) :
  stack (atomic_updated delta m) = stack m /\
  wait_list (sem (atomic_updated delta m)) = wait_list (sem m) /\
  wait_lock (sem (atomic_updated delta m)) = wait_lock (sem m) /\
  trace (atomic_updated delta m) = trace m ++ [EvAtomicUpdate delta].
Proof.
  destruct (interfered_stack m) as (H1 & H2 & H3 & H4).
  unfold atomic_updated. simpl. rewrite H1, H2, H3, H4. auto.
Qed.

(** Whatever leaves the waiter records and [sem->wait_list] alone leaves
    the queue alone. *)
Lemma lh_get_same (m m' : machine) (p : list_ptr) :
  stack m' = stack m -> wait_list (sem m') = wait_list (sem m) ->
  lh_get m' p = lh_get m p.
Proof. intros Hs Hw. destruct p; simpl; by rewrite ?Hs, ?Hw. Qed.

Lemma queue_same (m m' : machine) (l : list waiter_ptr) :
  stack m' = stack m -> wait_list (sem m') = wait_list (sem m) ->
  queue m l -> queue m' l.
Proof.
  intros Hs Hw (Hnd & Hn & Hp). split; [done|].
  split; (eapply chain_frame; [|eassumption]); intros p _; by rewrite (lh_get_same m m').
Qed.

Lemma reader_run_le (m : machine) (l : list waiter_ptr) :
  (reader_run m l <= length l)%nat.
Proof.
  induction l as [|w l IH]; simpl; [lia|].
  destruct (stack m !! w) as [r|]; [|lia].
  destruct (Z.land (flags r) RWSEM_WAITING_FOR_READ =? 0); lia.
Qed.

(** ** The wake engine *)

Section WakeEngine.

Context {bias : rwsem_bias}.

(** The adjustment handed to [rwsem_atomic_add], as a number. *)
Lemma readers_adjustment_eq (downgrading : bool) (n : Z) :
  readers_adjustment downgrading n =
    wrap_long (n * (RWSEM_ACTIVE_BIAS - RWSEM_WAITING_BIAS)
               - (if downgrading then 0 else RWSEM_ACTIVE_BIAS)).
Proof.
  unfold readers_adjustment. destruct downgrading; cbn [negb].
  - rewrite wrap_long_mul_r. f_equal. lia.
  - rewrite wrap_long_mul_r, wrap_long_sub_l. done.
Qed.

(** Lines 98-107: the loop grants the first [n] waiters and leaves the
    list as it found it. *)
Lemma grant_readers_spec (m : machine) (l : list waiter_ptr) (n : nat) :
  queue m l ->
  (n <= length l)%nat ->
  (forall v, v ∈ take n l -> task_of m v <> None) ->
  grant_readers (Z.of_nat n) m =
    Ok (hd_ptr (drop n l) ListHead) (granted (take n l) m) /\
  queue (granted (take n l) m) l.
Proof.
  intros Hq Hn Ht. split; [|by apply granted_queue].
  unfold grant_readers, bind.
  rewrite (load_list_head_ok m ListHead (wait_list (sem m)) eq_refl).
  rewrite (queue_next_head _ _ Hq), Nat2Z.id.
  pose proof (take_drop n l) as Htd.
  pose proof (grant_loop_spec m ListHead (take n l) (drop n l) ListHead) as Hg.
  rewrite Htd, length_take_le in Hg by done.
  apply Hg; [by destruct Hq as (_ & ? & _) | | done].
  destruct Hq as (Hnd & _). rewrite <- Htd in Hnd.
  by apply NoDup_app in Hnd as (? & _).
Qed.

(** What the block from [readers_only] on does once it is entered with
    the first waiter of the queue: one atomic addition for the whole run
    of readers, then the grants, then the run is cut off the queue. *)
Lemma readers_only_spec (fuel : nat) (downgrading : bool) (m : machine)
    (w : waiter_ptr) (l : list waiter_ptr) :
  queue m (w :: l) ->
  live_queue m (w :: l) ->
  (length (w :: l) <= fuel)%nat ->
  Z.of_nat (length (w :: l)) < 2 ^ 31 ->
  let n := S (reader_run m l) in
  readers_only fuel downgrading w m =
    Ok tt (relinked (hd_ptr (drop n (w :: l)) ListHead)
             (granted (take n (w :: l))
                (atomic_added (readers_adjustment downgrading (Z.of_nat n)) m))).
Proof.
  intros Hq Hlive Hfuel Hlen n.
  pose proof (reader_run_le m l) as Hle.
  assert (Hn : (n <= length (w :: l))%nat) by (subst n; simpl; lia).
  pose proof Hq as (Hnd & Hnx & _). destruct Hnx as [_ Hnx].
  unfold readers_only, bind.
  rewrite (readers_only_scan_spec m l) by (done || simpl in Hfuel; lia).
  assert (Hw : wrap_long (0 + 1 + Z.of_nat (reader_run m l)) = Z.of_nat n).
  { rewrite wrap_long_small; subst n; simpl length in *; lia. }
  rewrite Hw, rwsem_atomic_add_ok.
  set (ma := atomic_added (readers_adjustment downgrading (Z.of_nat n)) m).
  destruct (atomic_added_stack (readers_adjustment downgrading (Z.of_nat n)) m)
    as (Hs & Hwl & _ & _). fold ma in Hs, Hwl.
  assert (Hqa : queue ma (w :: l)) by by eapply queue_same.
  destruct (grant_readers_spec ma (w :: l) n Hqa Hn) as [Hg Hqg].
  { intros v Hv. unfold task_of. rewrite Hs.
    destruct (Hlive v) as (r & -> & _ & Ht); [|done].
    rewrite <- (take_drop n (w :: l)). apply elem_of_app. by left. }
  rewrite Hg.
  rewrite <- (take_drop n (w :: l)) in Hqg at 2.
  by destruct (relink_queue _ _ _ Hqg) as [-> _].
Qed.

(** The queue and the waiters after that block. *)
Lemma readers_only_result (downgrading : bool) (m : machine) (l : list waiter_ptr)
    (n : nat) (delta : Z) :
  queue m l -> live_queue m l ->
  let m' := relinked (hd_ptr (drop n l) ListHead)
              (granted (take n l) (atomic_added delta m)) in
  queue m' (drop n l) /\
  (forall v, v ∈ l -> (task_of m' v = None <-> v ∈ take n l)) /\
  count (sem m') = wrap_long (count (sem (interfered m)) + delta) /\
  trace m' = trace m ++ EvAtomicAdd delta ::
               flat_map (fun v => grant_events (task_of m v)) (take n l).
Proof.
  intros Hq Hlive m'.
  destruct (atomic_added_stack delta m) as (Hs & Hwl & _ & Htr).
  set (ma := atomic_added delta m) in *.
  assert (Hqa : queue ma l) by by eapply queue_same.
  pose proof (granted_queue (take n l) _ _ Hqa) as Hqg.
  rewrite <- (take_drop n l) in Hqg at 2.
  destruct (relink_queue _ _ _ Hqg) as [_ Hqr].
  assert (Hnd : NoDup (take n l ++ drop n l)).
  { rewrite take_drop. by destruct Hq. }
  split; [exact Hqr|]. split; [|split].
  - intros v Hv. unfold task_of.
    pose proof (relinked_task (granted (take n l) ma) (hd_ptr (drop n l) ListHead) v) as H1.
    fold m' in H1.
    destruct (Hlive v Hv) as (r & Hr & _ & Ht).
    destruct (decide (v ∈ take n l)) as [Hin|Hnin].
    + rewrite granted_lookup_in, Hs, Hr in H1 by done. simpl in H1.
      destruct (stack m' !! v) as [r'|]; [|discriminate].
      simpl in H1. injection H1 as ->. done.
    + rewrite granted_lookup_notin, Hs, Hr in H1 by done. simpl in H1.
      destruct (stack m' !! v) as [r'|]; [|discriminate].
      simpl in H1. injection H1 as H1. rewrite H1. split; [done|]. done.
  - subst m'.
    destruct (relinked_rest (granted (take n l) ma) (hd_ptr (drop n l) ListHead))
      as (-> & _).
    destruct (granted_sem (take n l) ma) as [-> _]. reflexivity.
  - subst m'.
    destruct (relinked_rest (granted (take n l) ma) (hd_ptr (drop n l) ListHead))
      as (_ & _ & _ & ->).
    rewrite granted_trace by by apply NoDup_app in Hnd as (? & _).
    rewrite Htr, <- app_assoc. simpl. do 2 f_equal.
    apply flat_map_agree. intros v _. unfold task_of. by rewrite Hs.
Qed.

End WakeEngine.

(** The pointers draw one queue only. *)
Lemma chain_unique (fld : list_head -> list_ptr) (m : machine) (from : list_ptr)
    (l1 l2 : list waiter_ptr) :
  chain fld m from l1 ListHead -> chain fld m from l2 ListHead -> l1 = l2.
Proof.
  revert from l2. induction l1 as [|a l1 IH]; intros from [|b l2]; simpl.
  - done.
  - intros H1 [H2 _]. congruence.
  - intros [H1 _] H2. congruence.
  - intros [H1 H1'] [H2 H2']. assert (a = b) as -> by congruence.
    f_equal. by eapply IH.
Qed.

Lemma queue_unique (m : machine) (l1 l2 : list waiter_ptr) :
  queue m l1 -> queue m l2 -> l1 = l2.
Proof. intros (_ & H1 & _) (_ & H2 & _). by eapply chain_unique. Qed.

(** ** The concrete machines are well formed *)

Lemma two_writers_queue (c : Z) (i : list Z) : queue (two_writers c i) [1; 2]%nat.
Proof. split; [compute_done|]. split; vm_compute; auto. Qed.

Lemma readers_then_writer_queue (c : Z) : queue (readers_then_writer c) [1; 2; 3]%nat.
Proof. split; [compute_done|]. split; vm_compute; auto. Qed.

Lemma one_writer_queue (c : Z) (lk : bool) : queue (one_writer c lk) [1]%nat.
Proof. split; [compute_done|]. split; vm_compute; auto. Qed.

Lemma readers_then_writer_live (c : Z) :
  live_queue (readers_then_writer c) [1; 2; 3]%nat.
Proof.
  intros w Hw. unfold live_waiter.
  repeat (apply elem_of_cons in Hw as [->|Hw]);
    [eexists; split; [reflexivity | split; [auto | done]] ..
    | by apply elem_of_nil in Hw].
Qed.

(** ** The wake engine: what the design document says of it *)

Section WakeEngineDesign.

Context {bias : rwsem_bias}.

Lemma dont_wake_writers_head (fuel : nat) (downgrading : bool) (m : machine)
    (w : waiter_ptr) (r : rwsem_waiter) :
  next (wait_list (sem m)) = ListOf w ->
  stack m !! w = Some r ->
  dont_wake_writers fuel downgrading m =
    if negb (Z.land (flags r) RWSEM_WAITING_FOR_WRITE =? 0) then Ok tt m
    else readers_only fuel downgrading w m.
Proof.
  intros Hn Hr. unfold dont_wake_writers, bind.
  rewrite (load_list_head_ok m ListHead (wait_list (sem m)) eq_refl), Hn.
  cbn [list_entry]. unfold ret at 1. unfold load_waiter. rewrite Hr.
  destruct (Z.land (flags r) RWSEM_WAITING_FOR_WRITE =? 0); reflexivity.
Qed.

(** A call with [downgrading] false never looks at the queue: whatever
    the machine, the engine reads the local [waiter] before anything was
    assigned to it. *)
Lemma do_wake_reads_unset_waiter (fuel : nat) (m : machine) :
  __rwsem_do_wake fuel false m = Fault UninitialisedRead m.
Proof. reflexivity. Qed.

(** C1.  Called with [downgrading] false on a queue whose head [w] is a
    writer with thread [t]: the run ends at the read of the unset
    [waiter], with the counter and [wait_list] as they were; it is not
    the run that wakes [t] and returns. *)
Theorem do_wake_writer_head_not_woken (fuel : nat) (m : machine) (w : waiter_ptr)
    (l : list waiter_ptr) (r : rwsem_waiter) (t : task_struct) :
  queue m (w :: l) ->
  stack m !! w = Some r ->
  flags r = RWSEM_WAITING_FOR_WRITE ->
  task r = Some t ->
  __rwsem_do_wake fuel false m = Fault UninitialisedRead m /\
  __rwsem_do_wake fuel false m <> Ok tt (emit (EvWakeUpProcess t) m).
Proof.
  intros _ _ _ _. rewrite do_wake_reads_unset_waiter. split; [reflexivity | discriminate].
Qed.

(** C10.  A downgrade call that finds a writer at the head of the queue
    returns with the machine as it was: counter, queue, waiter records
    and trace (no thread is woken). *)
Theorem do_wake_downgrade_writer_head (fuel : nat) (m : machine)
    (w : waiter_ptr) (r : rwsem_waiter) :
  next (wait_list (sem m)) = ListOf w ->
  stack m !! w = Some r ->
  Z.land (flags r) RWSEM_WAITING_FOR_WRITE <> 0 ->
  __rwsem_do_wake fuel true m = Ok tt m.
Proof.
  intros Hn Hr Hf. unfold __rwsem_do_wake.
  rewrite (dont_wake_writers_head _ _ _ _ _ Hn Hr).
  apply Z.eqb_neq in Hf. by rewrite Hf.
Qed.

(** C3, for a call with [downgrading] false that finds a reader at the
    head of the queue: the run ends at the read of the unset [waiter],
    before any addition to the counter (the machine, counter and trace
    included, is as it was), and so it is no run that returns. *)
Theorem do_wake_reader_head_no_adjustment (fuel : nat) (m : machine) (w : waiter_ptr)
    (l : list waiter_ptr) (r : rwsem_waiter) :
  queue m (w :: l) ->
  stack m !! w = Some r ->
  flags r = RWSEM_WAITING_FOR_READ ->
  __rwsem_do_wake fuel false m = Fault UninitialisedRead m /\
  forall m', __rwsem_do_wake fuel false m <> Ok tt m'.
Proof.
  intros _ _ _. rewrite do_wake_reads_unset_waiter. split; [reflexivity | discriminate].
Qed.

(** A downgrade call that finds a reader at the head: the run of readers
    at the front of the queue, [n] of them, is granted with one atomic
    addition of [n * (RWSEM_ACTIVE_BIAS - RWSEM_WAITING_BIAS)]; the trace
    gains that addition and then, reader by reader, barrier, wake-up and
    release of the reference. *)
Lemma do_wake_downgrade_readers (fuel : nat) (m : machine) (w : waiter_ptr)
    (l : list waiter_ptr) (r : rwsem_waiter) :
  queue m (w :: l) ->
  live_queue m (w :: l) ->
  stack m !! w = Some r ->
  flags r = RWSEM_WAITING_FOR_READ ->
  (length (w :: l) <= fuel)%nat ->
  Z.of_nat (length (w :: l)) < 2 ^ 31 ->
  let n := reader_run m (w :: l) in
  let delta := wrap_long (Z.of_nat n * (RWSEM_ACTIVE_BIAS - RWSEM_WAITING_BIAS)) in
  exists m',
    __rwsem_do_wake fuel true m = Ok tt m' /\
    count (sem m') = wrap_long (count (sem (interfered m)) + delta) /\
    trace m' = trace m ++ EvAtomicAdd delta ::
                 flat_map (fun v => grant_events (task_of m v)) (take n (w :: l)) /\
    queue m' (drop n (w :: l)).
Proof.
  intros Hq Hlive Hr Hfl Hfuel Hlen n delta.
  assert (Hn : n = S (reader_run m l)).
  { subst n. simpl. rewrite Hr, Hfl. reflexivity. }
  assert (Hd : delta = readers_adjustment true (Z.of_nat n)).
  { subst delta. rewrite readers_adjustment_eq. f_equal. lia. }
  destruct (readers_only_result true m (w :: l) n delta Hq Hlive)
    as (H1 & _ & H3 & H4).
  eexists. split; [|split; [exact H3 | split; [exact H4 | exact H1]]].
  unfold __rwsem_do_wake.
  rewrite (dont_wake_writers_head _ _ _ _ _ (queue_next_head _ _ Hq) Hr), Hfl.
  change (Z.land RWSEM_WAITING_FOR_READ RWSEM_WAITING_FOR_WRITE =? 0) with true.
  cbn [negb]. rewrite (readers_only_spec fuel true m w l) by done.
  rewrite <- Hn, <- Hd. reflexivity.
Qed.

(** C4, as the code has it.  A downgrade call on a live queue returns
    with the first [n] waiters granted ([task] NULL) and cut off the
    queue, so that no waiter whose [task] is NULL is linked into
    [wait_list].  Inside a grant ([n] not zero) the loop of lines 98-107
    clears the [task] of each of the [n] readers while the list still
    holds them all; lines 109-110 then cut them off. *)
Theorem do_wake_cleared_are_unlinked (fuel : nat) (m : machine) (w : waiter_ptr)
    (l : list waiter_ptr) :
  queue m (w :: l) ->
  live_queue m (w :: l) ->
  (length (w :: l) <= fuel)%nat ->
  Z.of_nat (length (w :: l)) < 2 ^ 31 ->
  exists m' n,
    __rwsem_do_wake fuel true m = Ok tt m' /\
    queue m' (drop n (w :: l)) /\
    (forall v, v ∈ w :: l -> (task_of m' v = None <-> v ∈ take n (w :: l))) /\
    cleared_are_unlinked m' /\
    (n <> 0%nat ->
     let ma := atomic_added (readers_adjustment true (Z.of_nat n)) m in
     let mg := granted (take n (w :: l)) ma in
     grant_readers (Z.of_nat n) ma = Ok (hd_ptr (drop n (w :: l)) ListHead) mg /\
     queue mg (w :: l) /\
     (forall v, v ∈ take n (w :: l) -> task_of mg v = None) /\
     m' = relinked (hd_ptr (drop n (w :: l)) ListHead) mg).
Proof.
  intros Hq Hlive Hfuel Hlen.
  destruct (Hlive w ltac:(left)) as (r & Hr & Hlv).
  unfold __rwsem_do_wake.
  rewrite (dont_wake_writers_head _ _ _ _ _ (queue_next_head _ _ Hq) Hr).
  destruct (Z.land (flags r) RWSEM_WAITING_FOR_WRITE =? 0) eqn:Hw; cbn [negb].
  - rewrite (readers_only_spec fuel true m w l) by done.
    set (n := S (reader_run m l)).
    destruct (readers_only_result true m (w :: l) n
                (readers_adjustment true (Z.of_nat n)) Hq Hlive) as (Hq' & Ht & _).
    eexists _, n. split; [reflexivity|]. split; [exact Hq'|]. split; [exact Ht|].
    split.
    + intros l2 v Hq2 Hv Hnone.
      rewrite (queue_unique _ _ _ Hq2 Hq') in Hv.
      assert (Hvl : v ∈ w :: l).
      { rewrite <- (take_drop n (w :: l)). apply elem_of_app. by right. }
      apply (Ht v Hvl) in Hnone.
      destruct Hq as (Hnd & _). rewrite <- (take_drop n (w :: l)) in Hnd.
      apply NoDup_app in Hnd as (_ & Hd & _). by apply (Hd v).
    + intros _.
      set (ma := atomic_added (readers_adjustment true (Z.of_nat n)) m).
      set (mg := granted (take n (w :: l)) ma).
      destruct (atomic_added_stack (readers_adjustment true (Z.of_nat n)) m)
        as (Hs & Hwl & _ & _). fold ma in Hs, Hwl.
      assert (Hqa : queue ma (w :: l)) by by eapply queue_same.
      assert (Hn : (n <= length (w :: l))%nat).
      { pose proof (reader_run_le m l). subst n. simpl. lia. }
      destruct (grant_readers_spec ma (w :: l) n Hqa Hn) as [Hg Hqg].
      { intros v Hv. unfold task_of. rewrite Hs.
        destruct (Hlive v) as (rv & -> & _ & Htv); [|done].
        rewrite <- (take_drop n (w :: l)). apply elem_of_app. by left. }
      split; [exact Hg|]. split; [exact Hqg|]. split; [|reflexivity].
      intros v Hv. unfold task_of. subst mg.
      rewrite granted_lookup_in by done. by destruct (stack ma !! v).
  - exists m, 0%nat. split; [reflexivity|]. split; [exact Hq|]. split; [|split].
    + intros v Hv. destruct (Hlive v Hv) as (rv & Hrv & _ & Htv).
      unfold task_of. rewrite Hrv. split; [done|].
      intros Hin. by apply elem_of_nil in Hin.
    + intros l2 v Hq2 Hv.
      rewrite (queue_unique _ _ _ Hq2 Hq) in Hv.
      destruct (Hlive v Hv) as (rv & Hrv & _ & Htv).
      unfold task_of. by rewrite Hrv.
    + done.
Qed.

End WakeEngineDesign.

(** Witness of C10: the downgrade call on two queued writers. *)
Lemma do_wake_downgrade_writer_head_witness :
  __rwsem_do_wake (bias := bias32) 1 true (two_writers (-131071) []) =
    Ok tt (two_writers (-131071) []).
Proof.
  apply (do_wake_downgrade_writer_head (bias := bias32) 1 (two_writers (-131071) [])
           1%nat (waiter_rec ListHead (ListOf 2%nat) 11%nat RWSEM_WAITING_FOR_WRITE)).
  - reflexivity.
  - reflexivity.
  - vm_compute. discriminate.
Defined.

(** Witness of C3: the call made by [rwsem_wake] at a release that finds
    readers at the head of the queue (the counter holds three waiting
    units and no active one). *)
Lemma do_wake_reader_head_no_adjustment_witness :
  __rwsem_do_wake (bias := bias32) 3 false (readers_then_writer (-196608)) =
    Fault UninitialisedRead (readers_then_writer (-196608)) /\
  forall m', __rwsem_do_wake (bias := bias32) 3 false (readers_then_writer (-196608))
             <> Ok tt m'.
Proof.
  apply (do_wake_reader_head_no_adjustment (bias := bias32) 3
           (readers_then_writer (-196608)) 1%nat [2; 3]%nat
           (waiter_rec ListHead (ListOf 2%nat) 11%nat RWSEM_WAITING_FOR_READ)).
  - apply readers_then_writer_queue.
  - reflexivity.
  - reflexivity.
Defined.

(** The block the call never reaches would have done what is expected of
    it: entered with [downgrading] false it adds
    [n * (RWSEM_ACTIVE_BIAS - RWSEM_WAITING_BIAS) - RWSEM_ACTIVE_BIAS]. *)
Lemma readers_only_not_downgrading_run :
  exists m',
    readers_only (bias := bias32) 3 false 1%nat (readers_then_writer (-196607)) = Ok tt m' /\
    count (sem m') = -65534 /\
    trace m' = [EvAtomicAdd (2 * (1 - -65536) - 1);
                EvSmpMb; EvWakeUpProcess 11%nat; EvPutTaskStruct 11%nat;
                EvSmpMb; EvWakeUpProcess 12%nat; EvPutTaskStruct 12%nat] /\
    queue m' [3%nat].
Proof.
  eexists. split; [vm_compute; reflexivity|].
  split; [reflexivity|]. split; [reflexivity|].
  split; [compute_done|]. split; vm_compute; auto.
Qed.

(** C4 as stated fails inside the batch grant: after the loop of lines
    99-107 and before lines 109-110, waiter 1 has its [task] cleared and
    is still the first of [wait_list]. *)
Lemma grant_clears_before_unlink :
  exists nxt m',
    grant_readers 2 (readers_then_writer (-65533)) = Ok nxt m' /\
    queue m' [1; 2; 3]%nat /\
    task_of m' 1%nat = None /\
    ~ cleared_are_unlinked m'.
Proof.
  eexists _, _. split; [vm_compute; reflexivity|].
  assert (Hq : queue (granted [1; 2]%nat (readers_then_writer (-65533))) [1; 2; 3]%nat).
  { apply granted_queue, readers_then_writer_queue. }
  split; [|split].
  - split; [compute_done|]. split; vm_compute; auto.
  - reflexivity.
  - intros H. apply (H [1; 2; 3]%nat 1%nat).
    + split; [compute_done|]. split; vm_compute; auto.
    + left.
    + reflexivity.
Qed.

(** Witness of C4: the downgrade call on two readers and a writer. *)
Lemma do_wake_cleared_are_unlinked_witness :
  exists m' n,
    __rwsem_do_wake (bias := bias32) 3 true (readers_then_writer (-196607)) = Ok tt m' /\
    queue m' (drop n [1; 2; 3]%nat) /\
    (forall v, v ∈ [1; 2; 3]%nat -> (task_of m' v = None <-> v ∈ take n [1; 2; 3]%nat)) /\
    cleared_are_unlinked m'.
Proof.
  destruct (do_wake_cleared_are_unlinked (bias := bias32) 3 (readers_then_writer (-196607))
              1%nat [2; 3]%nat) as (m' & n & H1 & H2 & H3 & H4 & _).
  - apply readers_then_writer_queue.
  - apply readers_then_writer_live.
  - simpl. lia.
  - simpl. lia.
  - exists m', n. auto.
Defined.

(** Witness of C1: the call that [rwsem_wake] makes for one queued writer. *)
Lemma do_wake_writer_head_not_woken_witness :
  __rwsem_do_wake (bias := bias32) 1 false (one_writer (-65536) true) =
    Fault UninitialisedRead (one_writer (-65536) true) /\
  __rwsem_do_wake (bias := bias32) 1 false (one_writer (-65536) true) <>
    Ok tt (emit (EvWakeUpProcess 11%nat) (one_writer (-65536) true)).
Proof.
  apply (do_wake_writer_head_not_woken (bias := bias32) 1 (one_writer (-65536) true)
           1%nat [] (waiter_rec ListHead ListHead 11%nat RWSEM_WAITING_FOR_WRITE) 11%nat).
  - apply one_writer_queue.
  - reflexivity.
  - reflexivity.
  - reflexivity.
Defined.

(** ** Taking runs of the monad apart *)

Lemma bind_Ok {A B} (c : M A) (k : A -> M B) (m m' : machine) (b : B) :
  bind c k m = Ok b m' -> exists a m1, c m = Ok a m1 /\ k a m1 = Ok b m'.
Proof. unfold bind. destruct (c m) as [a m1| |]; [eauto | done | done]. Qed.

Lemma load_waiter_Ok (w : waiter_ptr) (m m' : machine) (r : rwsem_waiter) :
  load_waiter w m = Ok r m' -> stack m !! w = Some r /\ m' = m.
Proof. unfold load_waiter. destruct (stack m !! w); [|done]. by intros [= -> ->]. Qed.

Lemma load_list_head_Ok (p : list_ptr) (m m' : machine) (h : list_head) :
  load_list_head p m = Ok h m' -> lh_get m p = Some h /\ m' = m.
Proof.
  destruct p; simpl; try done.
  - by intros [= -> ->].
  - intros (r & m1 & [Hr ->]%load_waiter_Ok & [= <- <-])%bind_Ok.
    by rewrite Hr.
Qed.

Lemma list_entry_Ok (p : list_ptr) (m m' : machine) (w : waiter_ptr) :
  list_entry p m = Ok w m' -> p = ListOf w /\ m' = m.
Proof. destruct p; simpl; try done. by intros [= -> ->]. Qed.

Lemma total_ret {A} (a : A) : total (ret a).
Proof. done. Qed.

Lemma total_raise {A} (f : fault) : total (raise (A := A) f).
Proof. done. Qed.

Lemma total_get : total get.
Proof. done. Qed.

Lemma total_modify (f : machine -> machine) : total (modify f).
Proof. done. Qed.

Lemma total_event (e : event) : total (event_ e).
Proof. done. Qed.

Lemma total_bind {A B} (c : M A) (k : A -> M B) :
  total c -> (forall a, total (k a)) -> total (bind c k).
Proof.
  intros Hc Hk m. unfold bind. specialize (Hc m).
  destruct (c m) as [a m1| |]; [apply Hk | done | done].
Qed.

Lemma total_load_waiter (w : waiter_ptr) : total (load_waiter w).
Proof. intros m. unfold load_waiter. by destruct (stack m !! w). Qed.

#[global] Hint Resolve total_ret total_raise total_get total_modify total_event
  total_bind total_load_waiter : total.

Lemma total_store_waiter (w : waiter_ptr) f : total (store_waiter w f).
Proof. unfold store_waiter. auto with total. Qed.

#[global] Hint Resolve total_store_waiter : total.

Lemma total_load_list_head (p : list_ptr) : total (load_list_head p).
Proof. destruct p; simpl; auto with total. Qed.

Lemma total_store_list_head (p : list_ptr) f : total (store_list_head p f).
Proof. destruct p; simpl; auto with total. Qed.

#[global] Hint Resolve total_load_list_head total_store_list_head : total.

Lemma total_list_del (p : list_ptr) : total (list_del p).
Proof. unfold list_del. auto with total. Qed.

Lemma total_with_task (t : option task_struct) e : total (with_task t e).
Proof. destruct t; simpl; auto with total. Qed.

Lemma total_list_entry (p : list_ptr) : total (list_entry p).
Proof. destruct p; simpl; auto with total. Qed.

Lemma total_spin_lock : total spin_lock.
Proof.
  unfold spin_lock. apply total_bind; [auto with total|].
  intros m. destruct (wait_lock (sem m)); auto with total.
Qed.

Lemma total_spin_unlock : total spin_unlock.
Proof.
  unfold spin_unlock. apply total_bind; [auto with total|].
  intros m. destruct (wait_lock (sem m)); auto with total.
Qed.

Lemma total_rwsem_atomic_update (d : Z) : total (rwsem_atomic_update d).
Proof. done. Qed.

#[global] Hint Resolve total_list_del total_with_task total_list_entry
  total_spin_lock total_spin_unlock total_rwsem_atomic_update : total.

Ltac wrap_lia :=
  unfold wrap_long, BITS_PER_LONG in *;
  change (2 ^ (32 - 1)) with 2147483648 in *;
  change (2 ^ 32) with 4294967296 in *;
  Z.div_mod_to_equations; lia.

(** ** The lock-stealing helper *)

Lemma sumZ_take_add (a b : nat) (l : list Z) :
  sumZ (take (a + b) l) = sumZ (take a l) + sumZ (take b (drop a l)).
Proof.
  revert l. induction a as [|a IH]; intros l.
  - rewrite drop_0. simpl. lia.
  - destruct l as [|x l]; simpl.
    + by rewrite take_nil.
    + rewrite IH. lia.
Qed.

Lemma rolled_back_refl (m : machine) : rolled_back m m.
Proof.
  repeat split. exists 0%nat, []. simpl. rewrite app_nil_r.
  repeat split. f_equal. lia.
Qed.

(** One failed pass: the adjustment is added and taken back out. *)
Lemma two_updates (adj : Z) (m : machine) :
  let m2 := atomic_updated (wrap_long (- adj)) (atomic_updated adj m) in
  stack m2 = stack m /\
  wait_list (sem m2) = wait_list (sem m) /\
  wait_lock (sem m2) = wait_lock (sem m) /\
  trace m2 = trace m ++ [EvAtomicUpdate adj; EvAtomicUpdate (wrap_long (- adj))] /\
  exists k : nat,
    others m2 = drop k (others m) /\
    count (sem m2) = wrap_long (count (sem m) + sumZ (take k (others m))).
Proof.
  intros m2.
  destruct (atomic_updated_stack adj m) as (Hs1 & Hw1 & Hl1 & Ht1).
  destruct (atomic_updated_stack (wrap_long (- adj)) (atomic_updated adj m))
    as (Hs2 & Hw2 & Hl2 & Ht2).
  fold m2 in Hs2, Hw2, Hl2, Ht2.
  split; [congruence|]. split; [congruence|]. split; [congruence|].
  split; [rewrite Ht2, Ht1, <- app_assoc; reflexivity|].
  subst m2. clear. destruct m as [s st o tr].
  unfold atomic_updated, interfered.
  destruct o as [|d1 [|d2 rest]]; simpl.
  - exists 0%nat. split; [done|]. simpl. wrap_lia.
  - exists 1%nat. split; [done|]. simpl. wrap_lia.
  - exists 2%nat. split; [done|]. simpl. wrap_lia.
Qed.

Lemma rolled_back_step (adj : Z) (m m' : machine) :
  rolled_back (atomic_updated (wrap_long (- adj)) (atomic_updated adj m)) m' ->
  rolled_back m m'.
Proof.
  destruct (two_updates adj m) as (Hs & Hw & Hl & Ht & k0 & Ho & Hc).
  intros (Hs' & Hw' & Hl' & k & evs & Ho' & Ht' & Hown & Hc').
  split; [congruence|]. split; [congruence|]. split; [congruence|].
  exists (k0 + k)%nat, ([EvAtomicUpdate adj; EvAtomicUpdate (wrap_long (- adj))] ++ evs).
  split; [|split; [|split]].
  - rewrite Ho', Ho. apply drop_drop.
  - rewrite Ht', Ht, <- app_assoc. reflexivity.
  - unfold own_change in *.
    change (wrap_long (adj + (wrap_long (- adj) + sumZ (update_delta <$> evs))) = 0).
    set (S := sumZ (update_delta <$> evs)) in *. clearbody S. clear -Hown. wrap_lia.
  - rewrite Hc', Hc, Ho, sumZ_take_add.
    set (s0 := sumZ (take k0 (others m))).
    set (s1 := sumZ (take k (drop k0 (others m)))). clearbody s0 s1.
    set (c := count (sem m)). clearbody c. clear. wrap_lia.
Qed.

Section LockStealing.

Context {bias : rwsem_bias}.

(** One pass from the label [try_again_write]. *)
Lemma try_again_write_pass (fuel : nat) (w : waiter_ptr) (adj : Z) (m : machine) :
  let m1 := atomic_updated adj m in
  let m2 := atomic_updated (wrap_long (- adj)) m1 in
  try_again_write (S fuel) w adj m =
    if Z.land (wrap_long (count (sem m1) - adj)) RWSEM_ACTIVE_MASK =? 0
    then take_write_lock w m1
    else if negb (Z.land (count (sem m2)) RWSEM_ACTIVE_MASK =? 0) then Ok 0 m2
         else try_again_write fuel w adj m2.
Proof.
  intros m1 m2. cbn [try_again_write]. unfold bind at 1.
  rewrite rwsem_atomic_update_ok. fold m1.
  destruct (Z.land (wrap_long (count (sem m1) - adj)) RWSEM_ACTIVE_MASK =? 0);
    [reflexivity|].
  unfold bind. rewrite rwsem_atomic_update_ok. fold m2.
  by destruct (Z.land (count (sem m2)) RWSEM_ACTIVE_MASK =? 0).
Qed.

Lemma with_task_Ok (t : option task_struct) (e : task_struct -> event) (m m' : machine) :
  with_task t e m = Ok tt m' -> exists tsk, t = Some tsk /\ m' = emit (e tsk) m.
Proof. destruct t as [tsk|]; simpl; [|done]. intros [= <-]. eauto. Qed.

Lemma take_write_lock_ret (w : waiter_ptr) (m m' : machine) (v : Z) :
  take_write_lock w m = Ok v m' -> v = 1.
Proof.
  unfold take_write_lock.
  intros (r & m1 & _ & H)%bind_Ok.
  apply bind_Ok in H as (? & m2 & _ & H).
  apply bind_Ok in H as (? & m3 & _ & H).
  apply bind_Ok in H as (? & m4 & _ & H).
  apply bind_Ok in H as (? & m5 & _ & H).
  by injection H.
Qed.

Lemma try_again_write_ret (fuel : nat) (w : waiter_ptr) (adj : Z) (m m' : machine) (v : Z) :
  try_again_write fuel w adj m = Ok v m' -> v = 0 \/ v = 1.
Proof.
  revert m. induction fuel as [|fuel IH]; intros m; [done|].
  rewrite try_again_write_pass.
  destruct (Z.land _ RWSEM_ACTIVE_MASK =? 0).
  - intros ->%take_write_lock_ret. by right.
  - destruct (Z.land _ RWSEM_ACTIVE_MASK =? 0); simpl.
    + apply IH.
    + intros [= <- _]. by left.
Qed.

Lemma try_again_write_failure (fuel : nat) (w : waiter_ptr) (adj : Z) (m m' : machine) :
  try_again_write fuel w adj m = Ok 0 m' -> rolled_back m m'.
Proof.
  revert m. induction fuel as [|fuel IH]; intros m; [done|].
  rewrite try_again_write_pass.
  destruct (Z.land _ RWSEM_ACTIVE_MASK =? 0).
  - intros H%take_write_lock_ret. done.
  - destruct (Z.land _ RWSEM_ACTIVE_MASK =? 0); simpl.
    + intros H%IH. by eapply rolled_back_step.
    + intros [= <-]. eapply rolled_back_step, rolled_back_refl.
Qed.

(** Only the loops can run out of fuel. *)
Lemma take_write_lock_total (w : waiter_ptr) : total (take_write_lock w).
Proof. unfold take_write_lock, smp_mb, put_task_struct, set_task_state. auto 10 with total. Qed.

(** With no interference left, a pass decides: the loop needs at most one
    pass more than there are interfering additions. *)
Lemma try_again_write_terminates (fuel : nat) (w : waiter_ptr) (adj : Z) (m : machine) :
  (length (others m) < fuel)%nat ->
  try_again_write fuel w adj m <> OutOfFuel.
Proof.
  revert m. induction fuel as [|fuel IH]; intros m Hf; [lia|].
  rewrite try_again_write_pass.
  destruct (Z.land (wrap_long _) RWSEM_ACTIVE_MASK =? 0) eqn:Hold.
  - apply take_write_lock_total.
  - destruct (Z.land (count _) RWSEM_ACTIVE_MASK =? 0) eqn:Hnew; simpl; [|done].
    apply IH. revert Hold Hnew Hf. clear. destruct m as [s st o tr].
    unfold atomic_updated, interfered. destruct o as [|d1 [|d2 rest]]; simpl.
    + intros Hold Hnew _. exfalso.
      replace (wrap_long (wrap_long (count s + adj) + wrap_long (- adj)))
        with (wrap_long (wrap_long (count s + adj) - adj)) in Hnew by wrap_lia.
      congruence.
    + lia.
    + lia.
Qed.

End LockStealing.

(** ** The lock-stealing helper: what the design document says of it *)

Section LockStealingDesign.

Context {bias : rwsem_bias}.

Lemma writer_adjustment_Ok (f w : waiter_ptr) (m m' : machine) (a : Z) :
  writer_adjustment f w m = Ok a m' -> m' = m.
Proof.
  unfold writer_adjustment. destruct (decide (f = w)); [|by intros [= _ ->]].
  intros (h & m1 & [_ ->]%load_list_head_Ok & H)%bind_Ok.
  destruct (decide (next h = ListHead)); by injection H.
Qed.

Lemma writer_adjustment_queue (f w : waiter_ptr) (l : list waiter_ptr) (m : machine) :
  queue m (f :: l) ->
  writer_adjustment f w m =
    Ok (if decide (f :: l = [w])
        then wrap_long (RWSEM_ACTIVE_WRITE_BIAS - RWSEM_WAITING_BIAS)
        else RWSEM_ACTIVE_WRITE_BIAS) m.
Proof.
  intros (_ & [_ Hn] & _). unfold writer_adjustment.
  destruct (decide (f = w)) as [->|Hne].
  - pose proof (chain_hd _ _ _ _ _ Hn) as Hh.
    destruct (lh_get m (ListOf w)) as [h|] eqn:He; [|discriminate].
    simpl in Hh. injection Hh as Hh.
    unfold bind. rewrite (load_list_head_ok _ _ _ He), Hh.
    destruct l as [|b l]; cbn [hd_ptr].
    + rewrite decide_True by done. by rewrite decide_True.
    + rewrite decide_False by done. by rewrite decide_False.
  - rewrite decide_False; [done|]. intros [= -> _]. done.
Qed.

Lemma try_get_writer_sem_head (fuel : nat) (w f : waiter_ptr) (fr : rwsem_waiter)
    (m : machine) :
  next (wait_list (sem m)) = ListOf f ->
  stack m !! f = Some fr ->
  try_get_writer_sem fuel w m =
    if Z.land (flags fr) RWSEM_WAITING_FOR_WRITE =? 0 then Ok 0 m
    else bind (writer_adjustment f w) (try_again_write fuel w) m.
Proof.
  intros Hn Hr. unfold try_get_writer_sem. unfold bind at 1.
  rewrite (load_list_head_ok m ListHead (wait_list (sem m)) eq_refl), Hn.
  unfold bind at 1. cbn [list_entry]. unfold ret at 1.
  unfold bind at 1. unfold load_waiter. rewrite Hr.
  by destruct (Z.land (flags fr) RWSEM_WAITING_FOR_WRITE =? 0).
Qed.

Lemma try_get_writer_sem_cases (fuel : nat) (w : waiter_ptr) (m m' : machine) (v : Z) :
  try_get_writer_sem fuel w m = Ok v m' ->
  exists f fr,
    next (wait_list (sem m)) = ListOf f /\ stack m !! f = Some fr /\
    ((Z.land (flags fr) RWSEM_WAITING_FOR_WRITE = 0 /\ v = 0 /\ m' = m) \/
     (Z.land (flags fr) RWSEM_WAITING_FOR_WRITE <> 0 /\
      exists adj, try_again_write fuel w adj m = Ok v m')).
Proof.
  unfold try_get_writer_sem.
  intros (h & m1 & [Hh ->]%load_list_head_Ok & H)%bind_Ok.
  apply bind_Ok in H as (f & m2 & [Hf ->]%list_entry_Ok & H).
  apply bind_Ok in H as (fr & m3 & [Hfr ->]%load_waiter_Ok & H).
  simpl in Hh. injection Hh as <-.
  exists f, fr. split; [done|]. split; [done|].
  destruct (Z.land (flags fr) RWSEM_WAITING_FOR_WRITE =? 0) eqn:Hw.
  - left. apply Z.eqb_eq in Hw. by injection H as <- <-.
  - right. apply Z.eqb_neq in Hw. split; [done|].
    apply bind_Ok in H as (adj & m4 & ->%writer_adjustment_Ok & H). eauto.
Qed.

(** C5.  When the helper reports failure, what it added to the counter it
    has taken back out (its own additions cancel; the counter moved only
    by what other threads added meanwhile), and the queue and every waiter
    record are as they were, so the waiter is still linked.  After a pass
    that did not find the active part zero, the helper goes for another
    pass exactly when the counter handed back by the subtraction has its
    active part zero, and reports failure otherwise. *)
Theorem try_get_writer_sem_failure (fuel : nat) (w : waiter_ptr) (m m' : machine) :
  try_get_writer_sem fuel w m = Ok 0 m' ->
  rolled_back m m' /\
  (forall l, queue m l -> queue m' l) /\
  (forall (fuel' : nat) (adj : Z) (m0 : machine),
     let m1 := atomic_updated adj m0 in
     let m2 := atomic_updated (wrap_long (- adj)) m1 in
     Z.land (wrap_long (count (sem m1) - adj)) RWSEM_ACTIVE_MASK <> 0 ->
     try_again_write (S fuel') w adj m0 =
       if Z.land (count (sem m2)) RWSEM_ACTIVE_MASK =? 0
       then try_again_write fuel' w adj m2
       else Ok 0 m2).
Proof.
  intros H.
  assert (Hrb : rolled_back m m').
  { apply try_get_writer_sem_cases in H
      as (f & fr & _ & _ & [(_ & _ & ->)|(_ & adj & H)]).
    - apply rolled_back_refl.
    - by eapply try_again_write_failure. }
  split; [exact Hrb|]. split.
  - intros l. destruct Hrb as (Hs & Hw & _). by apply queue_same.
  - intros fuel' adj m0 m1 m2 Hold. rewrite try_again_write_pass.
    fold m1 m2. apply Z.eqb_neq in Hold. rewrite Hold.
    by destruct (Z.land (count (sem m2)) RWSEM_ACTIVE_MASK =? 0).
Qed.

(** The waiter takes the lock itself (lines 136-143). *)
Lemma take_write_lock_spec (m : machine) (l1 l2 : list waiter_ptr) (w : waiter_ptr)
    (t : task_struct) :
  queue m (l1 ++ w :: l2) ->
  task_of m w = Some t ->
  exists m',
    take_write_lock w m = Ok 1 m' /\
    queue m' (l1 ++ l2) /\
    task_of m' w = Some t /\
    count (sem m') = count (sem m) /\
    trace m' = trace m ++ [EvSmpMb; EvPutTaskStruct t; EvSetTaskState t TASK_RUNNING].
Proof.
  intros Hq Ht.
  destruct (list_del_queue _ _ _ _ Hq) as (e & He & Hdel & Hq').
  unfold task_of in Ht. destruct (stack m !! w) as [r|] eqn:Hr; [|done].
  exists (emit (EvSetTaskState t TASK_RUNNING)
            (emit (EvPutTaskStruct t) (emit EvSmpMb (unlinked w e m)))).
  split; [|split; [|split; [|split]]].
  - unfold take_write_lock, bind, load_waiter. rewrite Hr, Hdel, Ht. reflexivity.
  - eapply queue_same; [| |exact Hq']; reflexivity.
  - change (task_of (unlinked w e m) w = Some t). unfold unlinked.
    rewrite !task_of_lh_set. unfold task_of. by rewrite Hr.
  - simpl. unfold unlinked.
    repeat match goal with
           | |- context [count (sem (lh_set ?p ?f ?x))] =>
               destruct (lh_set_rest x p f) as (-> & _)
           end.
    reflexivity.
  - simpl. unfold unlinked.
    repeat match goal with
           | |- context [trace (lh_set ?p ?f ?x)] =>
               destruct (lh_set_rest x p f) as (_ & _ & _ & ->)
           end.
    rewrite <- !app_assoc. reflexivity.
Qed.

(** C6, as the code has it.  A pass that finds the active part of the
    value before its addition zero succeeds: the waiter is unlinked from
    [wait_list], the reference to its thread is dropped, the thread is
    marked running, and 1 is returned.  The [task] member of the waiter
    is left as it was. *)
Theorem try_again_write_steals (fuel : nat) (m : machine) (l1 l2 : list waiter_ptr)
    (w : waiter_ptr) (t : task_struct) (adj : Z) :
  queue m (l1 ++ w :: l2) ->
  task_of m w = Some t ->
  Z.land (wrap_long (count (sem (atomic_updated adj m)) - adj)) RWSEM_ACTIVE_MASK = 0 ->
  exists m',
    try_again_write (S fuel) w adj m = Ok 1 m' /\
    queue m' (l1 ++ l2) /\
    task_of m' w = Some t /\
    count (sem m') = count (sem (atomic_updated adj m)) /\
    trace m' = trace m ++ [EvAtomicUpdate adj; EvSmpMb; EvPutTaskStruct t;
                           EvSetTaskState t TASK_RUNNING].
Proof.
  intros Hq Ht Hold.
  destruct (atomic_updated_stack adj m) as (Hs & Hw & _ & Htr).
  destruct (take_write_lock_spec (atomic_updated adj m) l1 l2 w t)
    as (m' & Hrun & Hq' & Ht' & Hc & Htr').
  { by eapply queue_same. }
  { unfold task_of. by rewrite Hs. }
  exists m'. rewrite try_again_write_pass.
  apply Z.eqb_eq in Hold. rewrite Hold.
  split; [done|]. split; [done|]. split; [done|]. split; [done|].
  rewrite Htr', Htr, <- app_assoc. reflexivity.
Qed.

(** C9.  With a writer at the head [f] of the queue, the helper called
    for [w] works with the adjustment [RWSEM_ACTIVE_WRITE_BIAS], less
    [RWSEM_WAITING_BIAS] exactly when [w] is the only waiter queued. *)
Theorem try_get_writer_sem_adjustment (fuel : nat) (m : machine) (f : waiter_ptr)
    (l : list waiter_ptr) (fr : rwsem_waiter) (w : waiter_ptr) :
  queue m (f :: l) ->
  stack m !! f = Some fr ->
  Z.land (flags fr) RWSEM_WAITING_FOR_WRITE <> 0 ->
  try_get_writer_sem fuel w m =
    try_again_write fuel w
      (if decide (f :: l = [w])
       then wrap_long (RWSEM_ACTIVE_WRITE_BIAS - RWSEM_WAITING_BIAS)
       else RWSEM_ACTIVE_WRITE_BIAS) m.
Proof.
  intros Hq Hr Hw.
  rewrite (try_get_writer_sem_head fuel w f fr m (queue_next_head _ _ Hq) Hr).
  apply Z.eqb_neq in Hw. rewrite Hw.
  unfold bind. by rewrite (writer_adjustment_queue f w l m Hq).
Qed.

(** C2, as the code has it.  The helper succeeds only when the head of
    [wait_list] is waiting for write.  Nothing ties the waiter it is
    called for to that head: called for a waiter [w] queued behind a
    writer [f] when the counter shows no active holder, it succeeds and
    leaves [f], queued earlier, in the queue. *)
Theorem try_get_writer_sem_needs_writer_head (fuel : nat) (w : waiter_ptr) (m : machine) :
  (forall (v : Z) (m' : machine),
     try_get_writer_sem fuel w m = Ok v m' ->
     v <> 0 ->
     exists f fr,
       next (wait_list (sem m)) = ListOf f /\
       stack m !! f = Some fr /\
       Z.land (flags fr) RWSEM_WAITING_FOR_WRITE <> 0) /\
  (forall (f : waiter_ptr) (l1 l2 : list waiter_ptr) (fr : rwsem_waiter) (t : task_struct),
     queue m (f :: l1 ++ w :: l2) ->
     stack m !! f = Some fr ->
     Z.land (flags fr) RWSEM_WAITING_FOR_WRITE <> 0 ->
     task_of m w = Some t ->
     Z.land (wrap_long (count (sem (atomic_updated RWSEM_ACTIVE_WRITE_BIAS m))
                        - RWSEM_ACTIVE_WRITE_BIAS)) RWSEM_ACTIVE_MASK = 0 ->
     exists m',
       try_get_writer_sem (S fuel) w m = Ok 1 m' /\
       queue m' (f :: l1 ++ l2)).
Proof.
  split.
  - intros v m' (f & fr & Hn & Hr & [(_ & -> & _)|[Hw _]])%try_get_writer_sem_cases Hv;
      [done|].
    by exists f, fr.
  - intros f l1 l2 fr t Hq Hr Hw Ht Hold.
    rewrite (try_get_writer_sem_head (S fuel) w f fr m (queue_next_head _ _ Hq) Hr).
    apply Z.eqb_neq in Hw. rewrite Hw. unfold bind.
    rewrite (writer_adjustment_queue f w (l1 ++ w :: l2) m Hq).
    rewrite decide_False.
    + rewrite try_again_write_pass. apply Z.eqb_eq in Hold. rewrite Hold.
      destruct (atomic_updated_stack RWSEM_ACTIVE_WRITE_BIAS m) as (Hs & Hwl & _ & _).
      destruct (take_write_lock_spec (atomic_updated RWSEM_ACTIVE_WRITE_BIAS m)
                  (f :: l1) l2 w t) as (m' & Hrun & Hq' & _).
      { by eapply queue_same. }
      { unfold task_of. by rewrite Hs. }
      by exists m'.
    + intros Heq. apply (f_equal length) in Heq. simpl in Heq.
      rewrite length_app in Heq. simpl in Heq. lia.
Qed.

End LockStealingDesign.

(** C2 as stated fails: with writers 1 and 2 queued in that order and no
    active holder, the helper called for waiter 2 succeeds although
    waiter 1 is the head; afterwards writer 1 is still queued. *)
Lemma later_writer_steals_first :
  exists m',
    try_get_writer_sem (bias := bias32) 1 2%nat (two_writers (-131072) []) = Ok 1 m' /\
    next (wait_list (sem (two_writers (-131072) []))) = ListOf 1%nat /\
    queue m' [1%nat].
Proof.
  eexists. split; [vm_compute; reflexivity|]. split; [reflexivity|].
  split; [compute_done|]. split; vm_compute; auto.
Qed.

(** Witness of C2: the same machine; the head, waiter 1, is a writer,
    and the helper called for waiter 2 succeeds and leaves waiter 1. *)
Lemma try_get_writer_sem_needs_writer_head_witness :
  (exists f fr,
     next (wait_list (sem (two_writers (-131072) []))) = ListOf f /\
     stack (two_writers (-131072) []) !! f = Some fr /\
     Z.land (flags fr) RWSEM_WAITING_FOR_WRITE <> 0) /\
  (exists m',
     try_get_writer_sem (bias := bias32) 1 2%nat (two_writers (-131072) []) = Ok 1 m' /\
     queue m' [1%nat]).
Proof.
  destruct (try_get_writer_sem_needs_writer_head (bias := bias32) 0 2%nat
              (two_writers (-131072) [])) as [_ Hsteal].
  destruct (try_get_writer_sem_needs_writer_head (bias := bias32) 1 2%nat
              (two_writers (-131072) [])) as [Hhead _].
  split.
  - eapply (Hhead 1).
    + vm_compute. reflexivity.
    + discriminate.
  - apply (Hsteal 1%nat [] []
             (waiter_rec ListHead (ListOf 2%nat) 11%nat RWSEM_WAITING_FOR_WRITE) 12%nat).
    + apply two_writers_queue.
    + reflexivity.
    + vm_compute. discriminate.
    + reflexivity.
    + reflexivity.
Defined.

(** Witness of C5: waiter 1 of two writers, one reader active.  While the
    helper runs, a reader leaves (the first subtraction hands back an
    active part of zero: second pass) and another arrives; the helper
    reports failure after two passes. *)
Lemma try_get_writer_sem_failure_witness :
  exists m',
    try_get_writer_sem (bias := bias32) 2 1%nat (two_writers (-131071) [0; -1; 1]) = Ok 0 m' /\
    rolled_back (two_writers (-131071) [0; -1; 1]) m' /\
    count (sem m') = -131071 /\
    trace m' = [EvAtomicUpdate (-65535); EvAtomicUpdate 65535;
                EvAtomicUpdate (-65535); EvAtomicUpdate 65535].
Proof.
  eexists. split; [vm_compute; reflexivity|]. split; [|split; reflexivity].
  eapply (try_get_writer_sem_failure (bias := bias32) 2 1%nat
            (two_writers (-131071) [0; -1; 1])).
  vm_compute. reflexivity.
Defined.

(** Witness of C6: the only queued writer, nobody active. *)
Lemma try_again_write_steals_witness :
  exists m',
    try_again_write (bias := bias32) 1 1%nat 1 (one_writer (-65536) true) = Ok 1 m' /\
    queue m' [] /\
    task_of m' 1%nat = Some 11%nat /\
    count (sem m') = count (sem (atomic_updated 1 (one_writer (-65536) true))) /\
    trace m' = [EvAtomicUpdate 1; EvSmpMb; EvPutTaskStruct 11%nat;
                EvSetTaskState 11%nat TASK_RUNNING].
Proof.
  apply (try_again_write_steals (bias := bias32) 0 (one_writer (-65536) true)
           [] [] 1%nat 11%nat 1).
  - apply one_writer_queue.
  - reflexivity.
  - reflexivity.
Defined.

(** C6 as stated fails: the helper succeeds for the only queued writer
    (the counter, before the addition, has no active part) and the
    waiter's [task] member still holds the thread. *)
Lemma try_get_writer_sem_keeps_task :
  exists m',
    Z.land (count (sem (one_writer (-65536) true))) (@RWSEM_ACTIVE_MASK bias32) = 0 /\
    try_get_writer_sem (bias := bias32) 1 1%nat (one_writer (-65536) true) = Ok 1 m' /\
    queue m' [] /\
    task_of m' 1%nat = Some 11%nat /\
    task_of m' 1%nat <> None.
Proof.
  eexists. split; [reflexivity|]. split; [vm_compute; reflexivity|].
  split; [|split; [reflexivity | discriminate]].
  split; [compute_done|]. split; vm_compute; auto.
Qed.

(** Witness of C9: the only queued writer calls the helper for itself. *)
Lemma try_get_writer_sem_adjustment_witness :
  try_get_writer_sem (bias := bias32) 1 1%nat (one_writer (-65536) true) =
    try_again_write (bias := bias32) 1 1%nat
      (if decide ([1%nat] = [1%nat])
       then wrap_long (@RWSEM_ACTIVE_WRITE_BIAS bias32 - @RWSEM_WAITING_BIAS bias32)
       else @RWSEM_ACTIVE_WRITE_BIAS bias32)
      (one_writer (-65536) true).
Proof.
  apply (try_get_writer_sem_adjustment (bias := bias32) 1 (one_writer (-65536) true)
           1%nat [] (waiter_rec ListHead ListHead 11%nat RWSEM_WAITING_FOR_WRITE) 1%nat).
  - apply one_writer_queue.
  - reflexivity.
  - vm_compute. discriminate.
Defined.

(** ** The blocking acquire *)

Lemma spin_lock_ok (m : machine) :
  wait_lock (sem m) = false -> spin_lock m = Ok tt (locked m).
Proof. intros H. unfold spin_lock, bind, get. by rewrite H. Qed.

Lemma spin_unlock_ok (m : machine) :
  wait_lock (sem m) = true -> spin_unlock m = Ok tt (unlocked m).
Proof. intros H. unfold spin_unlock, bind, get. by rewrite H. Qed.

Lemma store_list_head_Ok (p : list_ptr) f (m m' : machine) (u : unit) :
  store_list_head p f m = Ok u m' -> m' = lh_set p f m.
Proof.
  destruct p; simpl; try done.
  - by intros [= <-].
  - unfold store_waiter.
    intros (r & m1 & [Hr ->]%load_waiter_Ok & [= <-])%bind_Ok. by rewrite Hr.
Qed.

Lemma list_del_lock (p : list_ptr) (m m' : machine) (u : unit) :
  list_del p m = Ok u m' -> wait_lock (sem m') = wait_lock (sem m).
Proof.
  unfold list_del.
  intros (e & m1 & [_ ->]%load_list_head_Ok & H1)%bind_Ok.
  apply bind_Ok in H1 as (? & m2 & Hs1 & H2). apply store_list_head_Ok in Hs1 as ->.
  apply bind_Ok in H2 as (? & m3 & Hs2 & Hs3).
  apply store_list_head_Ok in Hs2 as ->. apply store_list_head_Ok in Hs3 as ->.
  repeat match goal with
         | |- context [wait_lock (sem (lh_set ?p ?f ?x))] =>
             destruct (lh_set_rest x p f) as (_ & -> & _)
         end.
  reflexivity.
Qed.

Section BlockingAcquire.

Context {bias : rwsem_bias}.
Variable others_run : machine -> machine.
Variable flags_in_scope : Z.
Variable waiter_slot : waiter_ptr.

Lemma take_write_lock_lock (w : waiter_ptr) (m m' : machine) (v : Z) :
  take_write_lock w m = Ok v m' -> wait_lock (sem m') = wait_lock (sem m).
Proof.
  unfold take_write_lock.
  intros (r & m1 & [_ ->]%load_waiter_Ok & H1)%bind_Ok.
  apply bind_Ok in H1 as (? & m2 & Hdel & H2). apply list_del_lock in Hdel.
  apply bind_Ok in H2 as (? & m3 & Hmb & H3).
  injection Hmb as Hmb. subst m3.
  apply bind_Ok in H3 as ([] & m4 & Hput & H4).
  apply with_task_Ok in Hput as (t1 & _ & ->).
  apply bind_Ok in H4 as ([] & m5 & Hset & [= _ <-]).
  apply with_task_Ok in Hset as (t2 & _ & ->).
  simpl. done.
Qed.

Lemma try_again_write_lock (fuel : nat) (w : waiter_ptr) (adj : Z) (m m' : machine) (v : Z) :
  try_again_write fuel w adj m = Ok v m' -> wait_lock (sem m') = wait_lock (sem m).
Proof.
  revert m. induction fuel as [|fuel IH]; intros m; [done|].
  rewrite try_again_write_pass.
  destruct (atomic_updated_stack adj m) as (_ & _ & Hl1 & _).
  destruct (atomic_updated_stack (wrap_long (- adj)) (atomic_updated adj m))
    as (_ & _ & Hl2 & _).
  destruct (Z.land _ RWSEM_ACTIVE_MASK =? 0).
  - intros ->%take_write_lock_lock. done.
  - destruct (Z.land _ RWSEM_ACTIVE_MASK =? 0); simpl.
    + intros ->%IH. congruence.
    + intros [= _ <-]. congruence.
Qed.

Lemma try_get_writer_sem_lock (fuel : nat) (w : waiter_ptr) (m m' : machine) (v : Z) :
  try_get_writer_sem fuel w m = Ok v m' -> wait_lock (sem m') = wait_lock (sem m).
Proof.
  intros (f & fr & _ & _ & [(_ & _ & ->)|(_ & adj & H)])%try_get_writer_sem_cases;
    [done|].
  by eapply try_again_write_lock.
Qed.

(** C7.  The common slow path, for whatever adjustment its caller passes
    ([RWSEM_WAITING_BIAS - RWSEM_ACTIVE_BIAS] for a reader,
    [-RWSEM_ACTIVE_BIAS] for a writer): with the lock taken, the waiter is
    appended to the tail of [wait_list] and the adjustment is applied in
    one atomic operation; the wake engine is called, with [downgrading]
    false, exactly when the counter that operation hands back has its
    active part zero; the lock is released after that. *)
Theorem queue_waiter_spec (fuel : nat) (tsk : task_struct) (w : waiter_ptr)
    (adjustment : Z) (m : machine) (l : list waiter_ptr) :
  queue m l ->
  wait_lock (sem m) = false ->
  is_Some (stack m !! w) ->
  w ∉ l ->
  let mq := enqueued tsk w adjustment m in
  queue mq (l ++ [w]) /\
  wait_lock (sem mq) = true /\
  task_of mq w = Some tsk /\
  count (sem mq) = wrap_long (count (sem (interfered m)) + adjustment) /\
  trace mq = trace m ++ [EvSetTaskState tsk TASK_UNINTERRUPTIBLE; EvSpinLock;
                         EvGetTaskStruct tsk; EvAtomicUpdate adjustment] /\
  queue_waiter fuel tsk w adjustment m =
    if Z.land (count (sem mq)) RWSEM_ACTIVE_MASK =? 0
    then bind (__rwsem_do_wake fuel false) (fun _ => spin_unlock) mq
    else Ok tt (unlocked mq).
Proof.
  intros Hq Hlock [r Hr] Hnin mq. subst mq.
  set (m1 := emit (EvSetTaskState tsk TASK_UNINTERRUPTIBLE) m).
  set (m2 := locked m1).
  set (m3 := set_stack (alter (set_task (Some tsk)) w) m2).
  set (m4 := emit (EvGetTaskStruct tsk) m3).
  change (enqueued tsk w adjustment m) with (atomic_updated adjustment (appended w m4)).
  set (mq := atomic_updated adjustment (appended w m4)).
  assert (Hget : forall p, lh_get m4 p = lh_get m p).
  { intros p. destruct p; simpl; try reflexivity.
    rewrite lookup_alter. destruct (decide (w = w0)) as [<-|]; [|done].
    by rewrite Hr. }
  assert (Hq4 : queue m4 l).
  { destruct Hq as (Hnd & Hn & Hp). split; [done|].
    split; (eapply chain_frame; [|eassumption]); intros p _; by rewrite Hget. }
  assert (Hw4 : is_Some (stack m4 !! w)).
  { simpl. rewrite lookup_alter_eq, Hr. by eexists. }
  destruct (list_add_tail_queue m4 l w Hq4 Hw4 Hnin) as [Hadd Hq5].
  destruct (atomic_updated_stack adjustment (appended w m4)) as (Hs & Hwl & Hl & Htr).
  fold mq in Hs, Hwl, Hl, Htr.
  assert (Hlk : wait_lock (sem mq) = true).
  { rewrite Hl. unfold appended.
    repeat match goal with
           | |- context [wait_lock (sem (lh_set ?p ?f ?x))] =>
               destruct (lh_set_rest x p f) as (_ & -> & _)
           end.
    reflexivity. }
  split; [by eapply queue_same|]. split; [exact Hlk|]. split; [|split; [|split]].
  - unfold task_of. rewrite Hs. fold (task_of (appended w m4) w).
    unfold appended. rewrite !task_of_lh_set. unfold task_of. simpl.
    by rewrite lookup_alter_eq, Hr.
  - subst mq. unfold atomic_updated at 1.
    simpl. do 2 f_equal. unfold interfered.
    assert (Ho : others (appended w m4) = others m).
    { unfold appended.
      repeat match goal with
             | |- context [others (lh_set ?p ?f ?x)] =>
                 destruct (lh_set_rest x p f) as (_ & _ & -> & _)
             end.
      reflexivity. }
    assert (Hc : count (sem (appended w m4)) = count (sem m)).
    { unfold appended.
      repeat match goal with
             | |- context [count (sem (lh_set ?p ?f ?x))] =>
                 destruct (lh_set_rest x p f) as (-> & _)
             end.
      reflexivity. }
    rewrite Ho. destruct (others m); simpl; by rewrite Hc.
  - rewrite Htr. unfold appended.
    repeat match goal with
           | |- context [trace (lh_set ?p ?f ?x)] =>
               destruct (lh_set_rest x p f) as (_ & _ & _ & ->)
           end.
    simpl. rewrite <- !app_assoc. reflexivity.
  - unfold queue_waiter. unfold bind at 1. cbn [set_task_state with_task event_ modify].
    fold m1. unfold bind at 1. rewrite (spin_lock_ok m1) by done. fold m2.
    unfold bind at 1. unfold store_waiter, bind, load_waiter.
    replace (stack m2 !! w) with (Some r) by (symmetry; exact Hr).
    assert (Hm3 : modify (set_stack (insert w (set_task (Some tsk) r))) m2 = Ok tt m3).
    { unfold modify, m3, set_stack.
      by rewrite (alter_as_insert (stack m2) w r) by exact Hr. }
    rewrite Hm3. cbn [get_task_struct with_task event_ modify]. fold m4.
    rewrite Hadd. rewrite rwsem_atomic_update_ok. fold mq.
    destruct (Z.land (count (sem mq)) RWSEM_ACTIVE_MASK =? 0); [reflexivity|].
    unfold ret. by rewrite spin_unlock_ok.
Qed.

(** The helper run for an address at which no waiter lives: it gets as
    far as the read of [waiter->task] (line 137) and cannot report
    success. *)
Lemma take_write_lock_no_waiter (s : waiter_ptr) (m : machine) :
  stack m !! s = None -> take_write_lock s m = Fault BadWaiter m.
Proof. intros H. unfold take_write_lock, bind, load_waiter. by rewrite H. Qed.

Lemma try_again_write_no_waiter (fuel : nat) (s : waiter_ptr) (adj : Z) (m m' : machine)
    (v : Z) :
  stack m !! s = None ->
  try_again_write fuel s adj m = Ok v m' -> v = 0.
Proof.
  revert m. induction fuel as [|fuel IH]; intros m Hs; [done|].
  rewrite try_again_write_pass.
  destruct (atomic_updated_stack adj m) as (Hs1 & _).
  destruct (atomic_updated_stack (wrap_long (- adj)) (atomic_updated adj m)) as (Hs2 & _).
  destruct (Z.land _ RWSEM_ACTIVE_MASK =? 0).
  - rewrite take_write_lock_no_waiter; [done|]. by rewrite Hs1.
  - destruct (Z.land _ RWSEM_ACTIVE_MASK =? 0); simpl.
    + apply IH. by rewrite Hs2, Hs1.
    + by intros [= <- _].
Qed.

(** The call of line 187 when a writer is the first waiter: the address
    passed is not the first waiter, so the adjustment is
    [RWSEM_ACTIVE_WRITE_BIAS], whoever is queued. *)
Lemma try_get_writer_sem_slot (fuel : nat) (f : waiter_ptr) (l : list waiter_ptr)
    (fr : rwsem_waiter) (m : machine) :
  queue m (f :: l) ->
  stack m !! f = Some fr ->
  Z.land (flags fr) RWSEM_WAITING_FOR_WRITE <> 0 ->
  stack m !! waiter_slot = None ->
  try_get_writer_sem fuel waiter_slot m =
    try_again_write fuel waiter_slot RWSEM_ACTIVE_WRITE_BIAS m.
Proof.
  intros Hq Hfr Hw Hslot.
  rewrite (try_get_writer_sem_head fuel waiter_slot f fr m (queue_next_head _ _ Hq) Hfr).
  apply Z.eqb_neq in Hw. rewrite Hw. unfold bind.
  rewrite (writer_adjustment_queue f waiter_slot l m Hq).
  rewrite decide_False; [done|].
  intros [= -> _]. by rewrite Hfr in Hslot.
Qed.

(** C8.  One pass of the wait loop as lines 181-193 are written, for a
    waiter [w] whose [task] is set, with a writer first in the queue ([w]
    itself when it is a writer waiting alone) and the lock free.  The
    flags of [w] play no part in it.  When the [flags] of line 186 is not
    [RWSEM_WAITING_FOR_WRITE], the lock-stealing helper is not called and
    the thread sleeps again, waiting for write or not.  When it is, the
    helper is called for the address of the parameter and not for [w]:
    its adjustment is [RWSEM_ACTIVE_WRITE_BIAS] even when [w] is the only
    waiter, and when it finds nobody active it has added that to the
    counter and goes on to take the waiter at that address, where none
    is, off the queue; [w] is still queued, its [task] set, the lock
    held.  No pass ends the loop at line 189. *)
Theorem wait_pass_serves_parameter_address (fuel : nat) (tsk : task_struct)
    (w f : waiter_ptr) (l : list waiter_ptr) (m : machine) (r fr : rwsem_waiter) :
  stack m !! w = Some r ->
  task r <> None ->
  wait_lock (sem m) = false ->
  queue m (f :: l) ->
  stack m !! f = Some fr ->
  Z.land (flags fr) RWSEM_WAITING_FOR_WRITE <> 0 ->
  stack m !! waiter_slot = None ->
  (flags_in_scope <> RWSEM_WAITING_FOR_WRITE ->
     wait_pass others_run flags_in_scope waiter_slot fuel tsk w m =
       Ok Again (resuspended others_run tsk (locked m))) /\
  (flags_in_scope = RWSEM_WAITING_FOR_WRITE ->
     let m1 := atomic_updated RWSEM_ACTIVE_WRITE_BIAS (locked m) in
     Z.land (wrap_long (count (sem m1) - RWSEM_ACTIVE_WRITE_BIAS)) RWSEM_ACTIVE_MASK = 0 ->
     wait_pass others_run flags_in_scope waiter_slot (S fuel) tsk w m = Fault BadWaiter m1 /\
     queue m1 (f :: l) /\
     task_of m1 w = task r /\
     wait_lock (sem m1) = true /\
     count (sem m1) =
       wrap_long (count (sem (interfered m)) + RWSEM_ACTIVE_WRITE_BIAS) /\
     trace m1 = trace m ++ [EvSpinLock; EvAtomicUpdate RWSEM_ACTIVE_WRITE_BIAS]) /\
  (forall m', wait_pass others_run flags_in_scope waiter_slot fuel tsk w m <>
                Ok ReturnSem m').
Proof.
  intros Hr Ht Hlock Hq Hfr Hw Hslot.
  assert (Hql : queue (locked m) (f :: l)) by (by apply (queue_same m)).
  assert (Hpass : wait_pass others_run flags_in_scope waiter_slot fuel tsk w m =
            bind (if flags_in_scope =? RWSEM_WAITING_FOR_WRITE
                  then try_get_writer_sem fuel waiter_slot else ret 0)
              (fun got => if negb (got =? 0) then bind spin_unlock (fun _ => ret ReturnSem)
                          else bind spin_unlock (fun _ => bind (schedule others_run)
                                 (fun _ => bind (set_task_state (Some tsk) TASK_UNINTERRUPTIBLE)
                                    (fun _ => ret Again))))
              (locked m)).
  { unfold wait_pass. unfold bind at 1. unfold load_waiter. rewrite Hr.
    rewrite bool_decide_eq_false_2 by done.
    unfold bind at 1. by rewrite spin_lock_ok. }
  split; [|split].
  - intros Hf. rewrite Hpass. apply Z.eqb_neq in Hf. rewrite Hf.
    unfold bind at 1. unfold ret at 1. cbn [Z.eqb negb].
    unfold bind at 1. rewrite spin_unlock_ok by reflexivity.
    reflexivity.
  - intros Hf m1 Hfree.
    destruct (atomic_updated_stack RWSEM_ACTIVE_WRITE_BIAS (locked m))
      as (Hs1 & Hwl1 & Hl1 & Htr1).
    fold m1 in Hs1, Hwl1, Hl1, Htr1.
    split; [|split; [|split; [|split; [|split]]]].
    + unfold wait_pass. unfold bind at 1. unfold load_waiter. rewrite Hr.
      rewrite bool_decide_eq_false_2 by done.
      unfold bind at 1. rewrite spin_lock_ok by done.
      apply Z.eqb_eq in Hf. rewrite Hf. unfold bind at 1.
      rewrite (try_get_writer_sem_slot (S fuel) f l fr (locked m) Hql Hfr Hw Hslot).
      rewrite try_again_write_pass. fold m1.
      apply Z.eqb_eq in Hfree. rewrite Hfree.
      rewrite take_write_lock_no_waiter; [done|]. by rewrite Hs1.
    + by eapply queue_same.
    + unfold task_of. rewrite Hs1. simpl. by rewrite Hr.
    + by rewrite Hl1.
    + unfold m1, atomic_updated. simpl. do 2 f_equal.
      unfold interfered. simpl. by destruct (others m).
    + rewrite Htr1. simpl. by rewrite <- app_assoc.
  - intros m' Hret. rewrite Hpass in Hret.
    apply bind_Ok in Hret as (got & m2 & Hgot & Hk).
    destruct (got =? 0) eqn:Hg; cbn [negb] in Hk.
    + apply bind_Ok in Hk as (? & m3 & _ & Hk).
      apply bind_Ok in Hk as (? & m4 & _ & Hk).
      apply bind_Ok in Hk as (? & m5 & _ & Hk). done.
    + apply Z.eqb_neq in Hg.
      destruct (flags_in_scope =? RWSEM_WAITING_FOR_WRITE).
      * rewrite (try_get_writer_sem_slot fuel f l fr (locked m) Hql Hfr Hw Hslot) in Hgot.
        by apply try_again_write_no_waiter in Hgot.
      * by injection Hgot as <- _.
Qed.

End BlockingAcquire.

(** ** Runs of the blocking acquire *)

Lemma reader_arrives_queue : queue reader_arrives [1%nat].
Proof. split; [compute_done|]. split; vm_compute; auto. Qed.

(** Witness of C7: the reader is queued behind writer 1; the counter
    still shows the active writer, so the wake engine is not called. *)
Lemma queue_waiter_spec_witness :
  queue (enqueued 12%nat 2%nat (-65537) reader_arrives) [1; 2]%nat /\
  count (sem (enqueued 12%nat 2%nat (-65537) reader_arrives)) = -196607 /\
  queue_waiter (bias := bias32) 1 12%nat 2%nat (-65537) reader_arrives =
    Ok tt (unlocked (enqueued 12%nat 2%nat (-65537) reader_arrives)).
Proof.
  destruct (queue_waiter_spec (bias := bias32) 1 12%nat 2%nat (-65537) reader_arrives
              [1%nat]) as (H1 & _ & _ & H4 & _ & H6).
  - apply reader_arrives_queue.
  - reflexivity.
  - by eexists.
  - compute_done.
  - split; [exact H1|]. split; [exact H4|]. exact H6.
Defined.

(** The other side of C7: the reader arrives when the writer that held
    the semaphore is gone already (its own active unit is the only one).
    The counter handed back has no active part, the wake engine is called
    with the lock held, and the run ends there. *)
Example queue_waiter_calls_wake_engine :
  let m := set_sem (set_count (-65535)) reader_arrives in
  count (sem (enqueued 12%nat 2%nat (-65537) m)) = -131072 /\
  queue_waiter (bias := bias32) 1 12%nat 2%nat (-65537) m =
    Fault UninitialisedRead (enqueued 12%nat 2%nat (-65537) m).
Proof. split; reflexivity. Qed.

(** Witness of C8: writer 1 (thread 11) is the only waiter and nobody is
    active.  With a [flags] of 0 it is put back to sleep; with a [flags]
    of [RWSEM_WAITING_FOR_WRITE] the helper has added
    [RWSEM_ACTIVE_WRITE_BIAS] (-65535, where the only waiter is due 1) for
    the address of the parameter (0 here), and writer 1 stays queued. *)
Lemma wait_pass_serves_parameter_address_witness :
  let m := one_writer (-65536) false in
  wait_pass (bias := bias32) (fun m => m) 0 0%nat 1 11%nat 1%nat m =
    Ok Again (resuspended (fun m => m) 11%nat (locked m)) /\
  wait_pass (bias := bias32) (fun m => m) RWSEM_WAITING_FOR_WRITE 0%nat 1 11%nat 1%nat m =
    Fault BadWaiter (atomic_updated (-65535) (locked m)) /\
  count (sem (atomic_updated (-65535) (locked m))) = -131071 /\
  queue (atomic_updated (-65535) (locked m)) [1%nat].
Proof.
  intros m.
  destruct (wait_pass_serves_parameter_address (bias := bias32) (fun m => m) 0 0%nat
              1 11%nat 1%nat 1%nat [] m
              (waiter_rec ListHead ListHead 11%nat RWSEM_WAITING_FOR_WRITE)
              (waiter_rec ListHead ListHead 11%nat RWSEM_WAITING_FOR_WRITE))
    as (H1 & _ & _); [reflexivity|discriminate|reflexivity|apply one_writer_queue
                     |reflexivity|vm_compute; discriminate|reflexivity|].
  destruct (wait_pass_serves_parameter_address (bias := bias32) (fun m => m)
              RWSEM_WAITING_FOR_WRITE 0%nat
              0 11%nat 1%nat 1%nat [] m
              (waiter_rec ListHead ListHead 11%nat RWSEM_WAITING_FOR_WRITE)
              (waiter_rec ListHead ListHead 11%nat RWSEM_WAITING_FOR_WRITE))
    as (_ & H2 & _); [reflexivity|discriminate|reflexivity|apply one_writer_queue
                     |reflexivity|vm_compute; discriminate|reflexivity|].
  destruct (H2 eq_refl eq_refl) as (H3 & H4 & _ & _ & H5 & _).
  split; [apply H1; discriminate|]. split; [exact H3|]. split; [exact H5|exact H4].
Defined.

(** A whole [rwsem_down_write_failed], the [flags] of line 186 being
    [RWSEM_WAITING_FOR_WRITE] and the parameter at address 9: thread 7
    failed to take a semaphore that a writer holds (the counter holds
    both their write biases).  It queues its waiter (at address 0), fails
    to steal, sleeps; the holder releases; on its next pass the helper
    finds nobody active, and the run ends at line 137 with the waiter
    still queued and the lock held. *)
Example rwsem_down_write_failed_run :
  exists m',
    rwsem_down_write_failed (bias := bias32) holder_releases RWSEM_WAITING_FOR_WRITE 9%nat
      2 7%nat
      {| sem := {| count := -131070; wait_lock := false;
                   wait_list := {| next := ListHead; prev := ListHead |} |};
         stack := ∅; others := []; trace := [] |} = Fault BadWaiter m' /\
    count (sem m') = -131071 /\
    wait_lock (sem m') = true /\
    queue m' [0%nat] /\
    trace m' =
      [EvSetTaskState 7%nat TASK_UNINTERRUPTIBLE; EvSpinLock; EvGetTaskStruct 7%nat;
       EvAtomicUpdate (-1); EvSpinUnlock;
       EvSpinLock; EvAtomicUpdate (-65535); EvAtomicUpdate 65535; EvSpinUnlock;
       EvSchedule; EvSetTaskState 7%nat TASK_UNINTERRUPTIBLE;
       EvSpinLock; EvAtomicUpdate (-65535)].
Proof.
  eexists. split; [vm_compute; reflexivity|]. split; [reflexivity|].
  split; [reflexivity|]. split; [|reflexivity].
  split; [compute_done|]. split; vm_compute; auto.
Qed.

(** [rwsem_wake] on a queue that is not empty stops in the wake engine,
    with the lock still held. *)
Example rwsem_wake_run :
  rwsem_wake (bias := bias32) 1 (one_writer (-65536) false) =
    Fault UninitialisedRead (locked (one_writer (-65536) false)).
Proof. reflexivity. Qed.

(** [rwsem_downgrade_wake] with readers queued in front of a writer (the
    caller holds the lock for read after its downgrade: one active, three
    waiting). *)
Example rwsem_downgrade_wake_run :
  exists m',
    rwsem_downgrade_wake (bias := bias32) 3
      (set_sem (set_wait_lock false) (readers_then_writer (-196607))) = Ok tt m' /\
    count (sem m') = -65533 /\
    queue m' [3%nat] /\
    trace m' = [EvSpinLock; EvAtomicAdd 131074;
                EvSmpMb; EvWakeUpProcess 11%nat; EvPutTaskStruct 11%nat;
                EvSmpMb; EvWakeUpProcess 12%nat; EvPutTaskStruct 12%nat;
                EvSpinUnlock].
Proof.
  eexists. split; [vm_compute; reflexivity|]. split; [reflexivity|].
  split; [|reflexivity]. split; [compute_done|]. split; vm_compute; auto.
Qed.


(** * More of the file: the entry points *)

(** ** Helpers *)

Lemma lh_set_flags (m : machine) (p : list_ptr) f (w : waiter_ptr) :
  flags <$> stack (lh_set p f m) !! w = flags <$> stack m !! w.
Proof.
  destruct p; simpl; try reflexivity.
  destruct (stack m !! w0) eqn:E; simpl; [|reflexivity].
  destruct (decide (w0 = w)) as [->|Hne].
  - rewrite lookup_insert_eq, E. reflexivity.
  - rewrite lookup_insert_ne by done. reflexivity.
Qed.

Lemma flags_of_lh_set (m : machine) (p : list_ptr) f (w : waiter_ptr) :
  flags_of (lh_set p f m) w = flags_of m w.
Proof.
  unfold flags_of. pose proof (lh_set_flags m p f w) as H.
  destruct (stack (lh_set p f m) !! w), (stack m !! w); simpl in H; congruence.
Qed.

Lemma flags_of_granted (ws : list waiter_ptr) (m : machine) (w : waiter_ptr) :
  flags_of (granted ws m) w = flags_of m w.
Proof.
  unfold flags_of. rewrite granted_lookup.
  destruct (decide (w ∈ ws)); [|done]. by destruct (stack m !! w).
Qed.

Lemma task_of_granted_notin (ws : list waiter_ptr) (m : machine) (w : waiter_ptr) :
  w ∉ ws -> task_of (granted ws m) w = task_of m w.
Proof. intros H. unfold task_of. by rewrite granted_lookup_notin. Qed.

(** [list_empty(&sem->wait_list)] tells whether the queue is empty. *)
Lemma list_empty_queue (m : machine) (l : list waiter_ptr) :
  queue m l -> list_empty ListHead m = Ok (bool_decide (l = [])) m.
Proof.
  intros Hq. unfold list_empty, bind.
  rewrite (load_list_head_ok m ListHead (wait_list (sem m)) eq_refl).
  rewrite (queue_next_head _ _ Hq). unfold ret. f_equal.
  destruct l as [|w l]; cbn [hd_ptr].
  - by rewrite !bool_decide_eq_true_2.
  - by rewrite !bool_decide_eq_false_2.
Qed.

Lemma locked_queue (m : machine) (l : list waiter_ptr) :
  queue m l -> queue (locked m) l.
Proof. by apply queue_same. Qed.

Lemma unlocked_queue (m : machine) (l : list waiter_ptr) :
  queue m l -> queue (unlocked m) l.
Proof. by apply queue_same. Qed.

(** The run of readers at the front of a queue: they are flagged for
    read, and the waiter after them, if any, is not. *)
Lemma reader_run_take (m : machine) (l : list waiter_ptr) (v : waiter_ptr) :
  v ∈ take (reader_run m l) l ->
  Z.land (flags_of m v) RWSEM_WAITING_FOR_READ <> 0.
Proof.
  induction l as [|w l IH]; simpl.
  - intros H. by apply elem_of_nil in H.
  - destruct (stack m !! w) as [r|] eqn:Hr.
    + destruct (Z.land (flags r) RWSEM_WAITING_FOR_READ =? 0) eqn:Hf; simpl.
      * intros H. by apply elem_of_nil in H.
      * intros [->|H]%elem_of_cons; [|by apply IH].
        unfold flags_of. rewrite Hr. by apply Z.eqb_neq.
    + simpl. intros H. by apply elem_of_nil in H.
Qed.

Lemma reader_run_drop (m : machine) (l : list waiter_ptr) (v : waiter_ptr)
    (rest : list waiter_ptr) :
  drop (reader_run m l) l = v :: rest ->
  Z.land (flags_of m v) RWSEM_WAITING_FOR_READ = 0.
Proof.
  induction l as [|w l IH]; simpl; [done|].
  destruct (stack m !! w) as [r|] eqn:Hr.
  - destruct (Z.land (flags r) RWSEM_WAITING_FOR_READ =? 0) eqn:Hf; simpl.
    + intros [= <- _]. unfold flags_of. rewrite Hr. by apply Z.eqb_eq.
    + exact IH.
  - simpl. intros [= <- _]. unfold flags_of. by rewrite Hr.
Qed.

Lemma task_of_relinked (m : machine) (nxt : list_ptr) (w : waiter_ptr) :
  task_of (relinked nxt m) w = task_of m w.
Proof. unfold relinked. by rewrite !task_of_lh_set. Qed.

Lemma flags_of_relinked (m : machine) (nxt : list_ptr) (w : waiter_ptr) :
  flags_of (relinked nxt m) w = flags_of m w.
Proof. unfold relinked. by rewrite !flags_of_lh_set. Qed.

Lemma live_queue_same (m m' : machine) (l : list waiter_ptr) :
  (forall v, v ∈ l -> task_of m' v = task_of m v /\ flags_of m' v = flags_of m v) ->
  (forall v, v ∈ l -> is_Some (stack m' !! v)) ->
  live_queue m l -> live_queue m' l.
Proof.
  intros Hsame Hsome Hlive v Hv.
  destruct (Hlive v Hv) as (r & Hr & Hfl & Ht).
  destruct (Hsome v Hv) as [r' Hr'].
  destruct (Hsame v Hv) as [H1 H2]. unfold task_of, flags_of in H1, H2.
  rewrite Hr, Hr' in H1, H2.
  exists r'. split; [done|]. split; congruence.
Qed.

Lemma queue_is_Some (m : machine) (l : list waiter_ptr) (v : waiter_ptr) :
  queue m l -> v ∈ l -> is_Some (stack m !! v).
Proof.
  intros (_ & Hn & _) Hv. apply list_elem_of_split in Hv as (l1 & l2 & ->).
  apply chain_app_cons in Hn as [_ Hn]. apply chain_from in Hn.
  simpl in Hn. destruct (stack m !! v); [done|]. by destruct Hn.
Qed.

Section WakeEntryPoints.

Context {bias : rwsem_bias}.

(** The wake engine on a downgrade call, for a queue of live waiters. *)
Lemma do_wake_downgrade_run (fuel : nat) (m : machine) (w : waiter_ptr)
    (l : list waiter_ptr) :
  queue m (w :: l) ->
  live_queue m (w :: l) ->
  (length (w :: l) <= fuel)%nat ->
  Z.of_nat (length (w :: l)) < 2 ^ 31 ->
  __rwsem_do_wake fuel true m = Ok tt (downgraded m (w :: l)).
Proof.
  intros Hq Hlive Hfuel Hlen.
  destruct (Hlive w ltac:(left)) as (r & Hr & Hfl & _).
  unfold __rwsem_do_wake.
  rewrite (dont_wake_writers_head _ _ _ _ _ (queue_next_head _ _ Hq) Hr).
  unfold downgraded. cbn [reader_run]. rewrite Hr.
  destruct Hfl as [Hfl|Hfl]; rewrite Hfl.
  - change (Z.land RWSEM_WAITING_FOR_READ RWSEM_WAITING_FOR_WRITE =? 0) with true.
    change (Z.land RWSEM_WAITING_FOR_READ RWSEM_WAITING_FOR_READ =? 0) with false.
    cbn [negb]. by rewrite (readers_only_spec fuel true m w l).
  - change (Z.land RWSEM_WAITING_FOR_WRITE RWSEM_WAITING_FOR_WRITE =? 0) with false.
    change (Z.land RWSEM_WAITING_FOR_WRITE RWSEM_WAITING_FOR_READ =? 0) with true.
    reflexivity.
Qed.

(** What the engine leaves, in the words of the queue. *)
Lemma downgraded_facts (m : machine) (l : list waiter_ptr) :
  queue m l ->
  live_queue m l ->
  let n := reader_run m l in
  let m' := downgraded m l in
  queue m' (drop n l) /\
  wait_lock (sem m') = wait_lock (sem m) /\
  (forall v, flags_of m' v = flags_of m v) /\
  (forall v, v ∉ take n l -> task_of m' v = task_of m v) /\
  (forall v, v ∈ take n l -> task_of m' v = None).
Proof.
  intros Hq Hlive n m'. subst m'. unfold downgraded. fold n.
  destruct n as [|k] eqn:Hn.
  - rewrite drop_0, take_0. split; [done|]. split; [done|]. split; [done|].
    split; [done|]. intros v Hv. by apply elem_of_nil in Hv.
  - set (d := readers_adjustment true (Z.of_nat (S k))).
    destruct (atomic_added_stack d m) as (Hs & Hwl & Hl & _).
    set (ma := atomic_added d m) in *.
    assert (Hqa : queue ma l) by by eapply queue_same.
    pose proof (granted_queue (take (S k) l) _ _ Hqa) as Hqg.
    rewrite <- (take_drop (S k) l) in Hqg at 2.
    destruct (relink_queue _ _ _ Hqg) as [_ Hqr].
    split; [exact Hqr|]. split; [|split; [|split]].
    + destruct (relinked_rest (granted (take (S k) l) ma)
                  (hd_ptr (drop (S k) l) ListHead)) as (_ & -> & _).
      destruct (granted_sem (take (S k) l) ma) as [-> _]. exact Hl.
    + intros v. rewrite flags_of_relinked, flags_of_granted.
      unfold flags_of. by rewrite Hs.
    + intros v Hv. rewrite task_of_relinked, task_of_granted_notin by done.
      unfold task_of. by rewrite Hs.
    + intros v Hv. rewrite task_of_relinked. unfold task_of.
      rewrite granted_lookup_in by done. by destruct (stack ma !! v).
Qed.

(** [rwsem_downgrade_wake] on a queue of live waiters, the lock free. *)
Lemma rwsem_downgrade_wake_eq (fuel : nat) (m : machine) (l : list waiter_ptr) :
  queue m l ->
  live_queue m l ->
  wait_lock (sem m) = false ->
  (length l <= fuel)%nat ->
  Z.of_nat (length l) < 2 ^ 31 ->
  rwsem_downgrade_wake fuel m = Ok tt (unlocked (downgraded (locked m) l)).
Proof.
  intros Hq Hlive Hlock Hfuel Hlen.
  pose proof (locked_queue _ _ Hq) as Hql.
  unfold rwsem_downgrade_wake. unfold bind at 1. rewrite spin_lock_ok by done.
  unfold bind at 1. rewrite (list_empty_queue _ _ Hql).
  destruct l as [|w l].
  - rewrite bool_decide_eq_true_2 by done. cbn [negb]. unfold bind, ret.
    by rewrite spin_unlock_ok.
  - rewrite bool_decide_eq_false_2 by done. cbn [negb]. unfold bind.
    rewrite (do_wake_downgrade_run fuel (locked m) w l) by done.
    rewrite spin_unlock_ok; [done|].
    destruct (downgraded_facts (locked m) (w :: l) Hql Hlive) as (_ & -> & _).
    reflexivity.
Qed.

End WakeEntryPoints.

Lemma reader_run_same (m m' : machine) (l : list waiter_ptr) :
  stack m' = stack m -> reader_run m' l = reader_run m l.
Proof. intros H. induction l as [|w l IH]; simpl; [done|]. by rewrite H, IH. Qed.

Lemma lock_unlock (m : machine) :
  wait_lock (sem m) = false -> unlocked (locked m) = emit EvSpinUnlock (emit EvSpinLock m).
Proof. destruct m as [[c lk wl] st o tr]. simpl. by intros ->. Qed.

Lemma live_flags (m : machine) (l : list waiter_ptr) (v : waiter_ptr) :
  live_queue m l -> v ∈ l ->
  (Z.land (flags_of m v) RWSEM_WAITING_FOR_READ <> 0 -> flags_of m v = RWSEM_WAITING_FOR_READ) /\
  (Z.land (flags_of m v) RWSEM_WAITING_FOR_READ = 0 -> flags_of m v = RWSEM_WAITING_FOR_WRITE).
Proof.
  intros Hlive Hv. destruct (Hlive v Hv) as (r & Hr & [Hf|Hf] & _);
    unfold flags_of; rewrite Hr, Hf; split; intros H; try done.
Qed.

Section WakeEntryPointsDesign.

Context {bias : rwsem_bias}.

(** X1.  "Do nothing if list empty": with no waiter queued, [rwsem_wake]
    and [rwsem_downgrade_wake] take the lock and release it, and that is
    all: the counter, the list head and every waiter record stay as they
    were and no thread is woken. *)
Theorem wake_on_empty_queue (fuel : nat) (m : machine) :
  queue m [] ->
  wait_lock (sem m) = false ->
  rwsem_wake fuel m = Ok tt (emit EvSpinUnlock (emit EvSpinLock m)) /\
  rwsem_downgrade_wake fuel m = Ok tt (emit EvSpinUnlock (emit EvSpinLock m)).
Proof.
  intros Hq Hlock. pose proof (locked_queue _ _ Hq) as Hql.
  rewrite <- (lock_unlock m Hlock). split.
  - unfold rwsem_wake. unfold bind at 1. rewrite spin_lock_ok by done.
    unfold bind at 1. rewrite (list_empty_queue _ _ Hql).
    rewrite bool_decide_eq_true_2 by done. cbn [negb]. unfold bind, ret.
    by rewrite spin_unlock_ok.
  - unfold rwsem_downgrade_wake. unfold bind at 1. rewrite spin_lock_ok by done.
    unfold bind at 1. rewrite (list_empty_queue _ _ Hql).
    rewrite bool_decide_eq_true_2 by done. cbn [negb]. unfold bind, ret.
    by rewrite spin_unlock_ok.
Qed.


(** X3.  A downgrade never wakes a writer: with a writer at the head of
    the queue, [rwsem_downgrade_wake] takes and releases the lock and
    changes nothing else, whoever is queued behind. *)
Theorem rwsem_downgrade_wake_writer_head (fuel : nat) (m : machine) (w : waiter_ptr)
    (l : list waiter_ptr) (r : rwsem_waiter) :
  queue m (w :: l) ->
  stack m !! w = Some r ->
  Z.land (flags r) RWSEM_WAITING_FOR_WRITE <> 0 ->
  wait_lock (sem m) = false ->
  rwsem_downgrade_wake fuel m = Ok tt (emit EvSpinUnlock (emit EvSpinLock m)).
Proof.
  intros Hq Hr Hw Hlock. pose proof (locked_queue _ _ Hq) as Hql.
  rewrite <- (lock_unlock m Hlock).
  unfold rwsem_downgrade_wake. unfold bind at 1. rewrite spin_lock_ok by done.
  unfold bind at 1. rewrite (list_empty_queue _ _ Hql).
  rewrite bool_decide_eq_false_2 by done. cbn [negb]. unfold bind.
  unfold __rwsem_do_wake.
  rewrite (dont_wake_writers_head fuel true (locked m) w r
             (queue_next_head _ _ Hql) Hr).
  apply Z.eqb_neq in Hw. rewrite Hw. cbn [negb].
  by rewrite spin_unlock_ok.
Qed.

(** X4.  With a reader at the head, [rwsem_downgrade_wake] grants the [n]
    readers at the front of the queue under the lock: one atomic addition
    of [n * (RWSEM_ACTIVE_BIAS - RWSEM_WAITING_BIAS)] to the counter, then
    the wake-ups in queue order, each after a barrier and followed by the
    release of the reference; the queue keeps the waiters behind the run,
    in their order, and the lock is released. *)
Theorem rwsem_downgrade_wake_grants_readers (fuel : nat) (m : machine) (w : waiter_ptr)
    (l : list waiter_ptr) (r : rwsem_waiter) :
  queue m (w :: l) ->
  live_queue m (w :: l) ->
  stack m !! w = Some r ->
  flags r = RWSEM_WAITING_FOR_READ ->
  wait_lock (sem m) = false ->
  (length (w :: l) <= fuel)%nat ->
  Z.of_nat (length (w :: l)) < 2 ^ 31 ->
  let n := reader_run m (w :: l) in
  let delta := wrap_long (Z.of_nat n * (RWSEM_ACTIVE_BIAS - RWSEM_WAITING_BIAS)) in
  exists m',
    rwsem_downgrade_wake fuel m = Ok tt m' /\
    (1 <= n)%nat /\
    queue m' (drop n (w :: l)) /\
    wait_lock (sem m') = false /\
    count (sem m') = wrap_long (count (sem (interfered m)) + delta) /\
    trace m' = trace m ++ [EvSpinLock; EvAtomicAdd delta]
                 ++ grants m (take n (w :: l)) ++ [EvSpinUnlock].
Proof.
  intros Hq Hlive Hr Hfl Hlock Hfuel Hlen n delta.
  pose proof (locked_queue _ _ Hq) as Hql.
  assert (Hn : n = S (reader_run m l)).
  { subst n. simpl. by rewrite Hr, Hfl. }
  assert (Hd : delta = readers_adjustment true (Z.of_nat n)).
  { subst delta. rewrite readers_adjustment_eq. f_equal. lia. }
  rewrite (rwsem_downgrade_wake_eq fuel m (w :: l)) by done.
  unfold downgraded.
  rewrite (reader_run_same m (locked m)) by done. fold n. rewrite Hn, <- Hn, <- Hd.
  destruct (readers_only_result true (locked m) (w :: l) n delta Hql Hlive)
    as (H1 & _ & H3 & H4).
  eexists. split; [reflexivity|]. split; [lia|].
  split; [by apply unlocked_queue|]. split; [reflexivity|]. split.
  - cbn [unlocked emit set_sem sem count set_wait_lock]. rewrite H3.
    do 2 f_equal. unfold interfered. cbn [others locked emit set_sem].
    by destruct (others m).
  - change (trace (unlocked ?x)) with (trace x ++ [EvSpinUnlock]). rewrite H4.
    change (trace (locked m)) with (trace m ++ [EvSpinLock]).
    unfold grants. rewrite <- !app_assoc. reflexivity.
Qed.

(** X5.  Who is granted by a downgrade, for any queue of live waiters:
    exactly the waiters of the longest run of readers at the front.
    Each of them is flagged for read and has its [task] cleared; a waiter
    left at the head is a writer; the waiters left are untouched (still
    live, in their order); and no waiter whose [task] is NULL is linked. *)
Theorem rwsem_downgrade_wake_grants_front (fuel : nat) (m : machine)
    (l : list waiter_ptr) :
  queue m l ->
  live_queue m l ->
  wait_lock (sem m) = false ->
  (length l <= fuel)%nat ->
  Z.of_nat (length l) < 2 ^ 31 ->
  let n := reader_run m l in
  exists m',
    rwsem_downgrade_wake fuel m = Ok tt m' /\
    queue m' (drop n l) /\
    live_queue m' (drop n l) /\
    (forall v, v ∈ take n l ->
       flags_of m v = RWSEM_WAITING_FOR_READ /\ task_of m' v = None) /\
    (forall v rest, drop n l = v :: rest -> flags_of m v = RWSEM_WAITING_FOR_WRITE) /\
    cleared_are_unlinked m'.
Proof.
  intros Hq Hlive Hlock Hfuel Hlen n.
  pose proof (locked_queue _ _ Hq) as Hql.
  rewrite (rwsem_downgrade_wake_eq fuel m l) by done.
  destruct (downgraded_facts (locked m) l Hql Hlive) as (Hq' & _ & Hfl & Hkeep & Hclr).
  rewrite (reader_run_same m (locked m)) in Hq', Hkeep, Hclr by done. fold n in Hq', Hkeep, Hclr.
  assert (Hnd : NoDup (take n l ++ drop n l)).
  { rewrite take_drop. by destruct Hq. }
  apply NoDup_app in Hnd as (_ & Hdisj & _).
  assert (Hin : forall v, v ∈ drop n l -> v ∈ l).
  { intros v Hv. rewrite <- (take_drop n l). apply elem_of_app. by right. }
  assert (Hlive' : live_queue (unlocked (downgraded (locked m) l)) (drop n l)).
  { apply (live_queue_same m).
    - intros v Hv. split.
      + change (task_of (downgraded (locked m) l) v = task_of (locked m) v).
        apply Hkeep. intros Ht. by apply (Hdisj v Ht).
      + change (flags_of (downgraded (locked m) l) v = flags_of (locked m) v).
        apply Hfl.
    - intros v Hv. by apply (queue_is_Some _ _ _ (unlocked_queue _ _ Hq')).
    - intros v Hv. apply Hlive. by apply Hin. }
  eexists. split; [reflexivity|]. split; [by apply unlocked_queue|].
  split; [exact Hlive'|]. split; [|split].
  - intros v Hv. split; [|by apply Hclr].
    assert (Hvl : v ∈ l).
    { rewrite <- (take_drop n l). apply elem_of_app. by left. }
    destruct (live_flags m l v Hlive Hvl) as [H1 _].
    apply H1. by apply (reader_run_take m l).
  - intros v rest Hd.
    assert (Hvl : v ∈ l).
    { apply Hin. rewrite Hd. left. }
    destruct (live_flags m l v Hlive Hvl) as [_ H2].
    apply H2. by apply (reader_run_drop m l v rest).
  - intros l2 v Hq2 Hv.
    rewrite (queue_unique _ _ _ Hq2 (unlocked_queue _ _ Hq')) in Hv.
    destruct (Hlive' v Hv) as (rv & Hrv & _ & Ht).
    unfold task_of. by rewrite Hrv.
Qed.

(** X6.  A downgrade wake leaves nothing for a second one: called again
    at once, [rwsem_downgrade_wake] takes and releases the lock and
    changes nothing else. *)
Theorem rwsem_downgrade_wake_twice (fuel : nat) (m : machine) (l : list waiter_ptr) :
  queue m l ->
  live_queue m l ->
  wait_lock (sem m) = false ->
  (length l <= fuel)%nat ->
  Z.of_nat (length l) < 2 ^ 31 ->
  exists m',
    rwsem_downgrade_wake fuel m = Ok tt m' /\
    rwsem_downgrade_wake fuel m' = Ok tt (emit EvSpinUnlock (emit EvSpinLock m')).
Proof.
  intros Hq Hlive Hlock Hfuel Hlen.
  pose proof (locked_queue _ _ Hq) as Hql.
  rewrite (rwsem_downgrade_wake_eq fuel m l) by done.
  set (n := reader_run m l).
  destruct (downgraded_facts (locked m) l Hql Hlive) as (Hq' & _ & Hfl & Hkeep & _).
  rewrite (reader_run_same m (locked m)) in Hq', Hkeep by done. fold n in Hq', Hkeep.
  set (m1 := unlocked (downgraded (locked m) l)) in *.
  assert (Hq1 : queue m1 (drop n l)) by by apply unlocked_queue.
  assert (Hnd : NoDup (take n l ++ drop n l)).
  { rewrite take_drop. by destruct Hq. }
  apply NoDup_app in Hnd as (_ & Hdisj & _).
  assert (Hin : forall v, v ∈ drop n l -> v ∈ l).
  { intros v Hv. rewrite <- (take_drop n l). apply elem_of_app. by right. }
  assert (Hlive1 : live_queue m1 (drop n l)).
  { apply (live_queue_same m).
    - intros v Hv. split.
      + change (task_of (downgraded (locked m) l) v = task_of (locked m) v).
        apply Hkeep. intros Ht. by apply (Hdisj v Ht).
      + change (flags_of (downgraded (locked m) l) v = flags_of (locked m) v).
        apply Hfl.
    - intros v Hv. by apply (queue_is_Some _ _ _ Hq1).
    - intros v Hv. apply Hlive. by apply Hin. }
  assert (Hrun1 : reader_run (locked m1) (drop n l) = 0%nat).
  { destruct (drop n l) as [|v rest] eqn:Hd; [done|].
    pose proof (reader_run_drop m l v rest Hd) as Hv.
    assert (flags_of m1 v = flags_of m v) as Hsame by apply Hfl.
    destruct (Hlive1 v ltac:(left)) as (rv & Hrv & _).
    unfold flags_of in Hsame. rewrite Hrv in Hsame.
    cbn [reader_run]. change (stack (locked m1) !! v) with (stack m1 !! v).
    rewrite Hrv, Hsame.
    unfold flags_of in Hv. apply Z.eqb_eq in Hv. by rewrite Hv. }
  exists m1. split; [reflexivity|].
  assert (Hl1 : wait_lock (sem m1) = false) by reflexivity.
  rewrite (rwsem_downgrade_wake_eq fuel m1 (drop n l)); try done.
  - unfold downgraded. rewrite Hrun1. by rewrite lock_unlock.
  - rewrite length_drop. lia.
  - rewrite length_drop. lia.
Qed.

End WakeEntryPointsDesign.

(** * More of the file: the blocking acquire *)

(** ** Helpers *)

Lemma list_del_Ok (w : waiter_ptr) (m m' : machine) (u : unit) :
  list_del (ListOf w) m = Ok u m' ->
  exists e, lh_get m (ListOf w) = Some e /\ m' = unlinked w e m.
Proof.
  unfold list_del.
  intros (e & m1 & [He ->]%load_list_head_Ok & H1)%bind_Ok.
  apply bind_Ok in H1 as (? & m2 & Hs1 & H2). apply store_list_head_Ok in Hs1 as ->.
  apply bind_Ok in H2 as (? & m3 & Hs2 & Hs3).
  apply store_list_head_Ok in Hs2 as ->. apply store_list_head_Ok in Hs3 as ->.
  by exists e.
Qed.

(** What a successful [take_write_lock] has done. *)
Lemma take_write_lock_Ok (w : waiter_ptr) (m m' : machine) (v : Z) :
  take_write_lock w m = Ok v m' ->
  exists e t,
    v = 1 /\ lh_get m (ListOf w) = Some e /\ task_of m w = Some t /\
    m' = emit (EvSetTaskState t TASK_RUNNING)
           (emit (EvPutTaskStruct t) (emit EvSmpMb (unlinked w e m))).
Proof.
  unfold take_write_lock.
  intros (r & m1 & [Hr ->]%load_waiter_Ok & H1)%bind_Ok.
  apply bind_Ok in H1 as (? & m2 & Hdel & H2).
  apply list_del_Ok in Hdel as (e & He & ->).
  apply bind_Ok in H2 as (? & m3 & Hmb & H3). injection Hmb as Hmb. subst m3.
  apply bind_Ok in H3 as ([] & m4 & Hput & H4).
  apply with_task_Ok in Hput as (t1 & Ht1 & ->).
  apply bind_Ok in H4 as ([] & m5 & Hset & Hret).
  apply with_task_Ok in Hset as (t2 & Ht2 & ->).
  injection Hret as <- <-.
  assert (t2 = t1) as -> by congruence.
  exists e, t1. unfold task_of. by rewrite Hr.
Qed.

Lemma task_of_unlinked (w : waiter_ptr) (e : list_head) (m : machine) (u : waiter_ptr) :
  task_of (unlinked w e m) u = task_of m u.
Proof. unfold unlinked. by rewrite !task_of_lh_set. Qed.

Lemma flags_of_unlinked (w : waiter_ptr) (e : list_head) (m : machine) (u : waiter_ptr) :
  flags_of (unlinked w e m) u = flags_of m u.
Proof. unfold unlinked. by rewrite !flags_of_lh_set. Qed.

Lemma task_of_same (m m' : machine) (u : waiter_ptr) :
  stack m' = stack m -> task_of m' u = task_of m u.
Proof. intros H. unfold task_of. by rewrite H. Qed.

Lemma flags_of_same (m m' : machine) (u : waiter_ptr) :
  stack m' = stack m -> flags_of m' u = flags_of m u.
Proof. intros H. unfold flags_of. by rewrite H. Qed.

Section BlockingAcquireRuns.

Context {bias : rwsem_bias}.
Variable others_run : machine -> machine.

(** The helper writes list heads and the counter, nothing else of a
    waiter. *)
Lemma take_write_lock_payload (w : waiter_ptr) (m m' : machine) (v : Z) (u : waiter_ptr) :
  take_write_lock w m = Ok v m' ->
  task_of m' u = task_of m u /\ flags_of m' u = flags_of m u.
Proof.
  intros (e & t & _ & _ & _ & ->)%take_write_lock_Ok.
  split.
  - change (task_of (unlinked w e m) u = task_of m u). apply task_of_unlinked.
  - change (flags_of (unlinked w e m) u = flags_of m u). apply flags_of_unlinked.
Qed.

Lemma try_again_write_payload (fuel : nat) (w : waiter_ptr) (adj : Z) (m m' : machine)
    (v : Z) (u : waiter_ptr) :
  try_again_write fuel w adj m = Ok v m' ->
  task_of m' u = task_of m u /\ flags_of m' u = flags_of m u.
Proof.
  revert m. induction fuel as [|fuel IH]; intros m; [done|].
  rewrite try_again_write_pass.
  destruct (atomic_updated_stack adj m) as (Hs1 & _).
  destruct (atomic_updated_stack (wrap_long (- adj)) (atomic_updated adj m)) as (Hs2 & _).
  destruct (Z.land _ RWSEM_ACTIVE_MASK =? 0).
  - intros [H1 H2]%(take_write_lock_payload _ _ _ _ u).
    rewrite H1, H2. split; [by apply task_of_same | by apply flags_of_same].
  - destruct (Z.land _ RWSEM_ACTIVE_MASK =? 0); simpl.
    + intros [H1 H2]%IH. rewrite H1, H2.
      split; [apply task_of_same | apply flags_of_same]; congruence.
    + intros [= _ <-].
      split; [apply task_of_same | apply flags_of_same]; congruence.
Qed.

End BlockingAcquireRuns.

Lemma total_writer_adjustment {bias : rwsem_bias} (f w : waiter_ptr) :
  total (writer_adjustment f w).
Proof.
  unfold writer_adjustment. destruct (decide (f = w)); [|auto with total].
  apply total_bind; [auto with total|].
  intros h. destruct (decide (next h = ListHead)); auto with total.
Qed.

Section BlockingAcquireDesign.

Context {bias : rwsem_bias}.
Variable others_run : machine -> machine.
Variable flags_in_scope : Z.
Variable waiter_slot : waiter_ptr.

(** The pass of a waiter that has not been granted the lock, while a
    reader is the first waiter: whatever the [flags] of line 186 is and
    whatever address line 187 passes, the helper, if it is called at all,
    returns at line 126. *)
Lemma reader_head_pass_run (fuel : nat) (tsk : task_struct) (w f : waiter_ptr)
    (l : list waiter_ptr) (m : machine) (r fr : rwsem_waiter) :
  queue m (f :: l) ->
  stack m !! f = Some fr ->
  Z.land (flags fr) RWSEM_WAITING_FOR_WRITE = 0 ->
  stack m !! w = Some r ->
  task r <> None ->
  wait_lock (sem m) = false ->
  wait_pass others_run flags_in_scope waiter_slot fuel tsk w m =
    Ok Again (resuspended others_run tsk (locked m)).
Proof.
  intros Hq Hfr Hfl Hr Ht Hlock.
  unfold wait_pass. unfold bind at 1. unfold load_waiter. rewrite Hr.
  rewrite bool_decide_eq_false_2 by done.
  unfold bind at 1. rewrite spin_lock_ok by done.
  assert (Hgot : (if flags_in_scope =? RWSEM_WAITING_FOR_WRITE
                  then try_get_writer_sem fuel waiter_slot else ret 0) (locked m) =
                 Ok 0 (locked m)).
  { destruct (flags_in_scope =? RWSEM_WAITING_FOR_WRITE); [|done].
    rewrite (try_get_writer_sem_head fuel waiter_slot f fr (locked m)
               (queue_next_head _ _ (locked_queue _ _ Hq)) Hfr).
    apply Z.eqb_eq in Hfl. by rewrite Hfl. }
  unfold bind at 1. rewrite Hgot. cbn [Z.eqb negb].
  unfold bind at 1. rewrite spin_unlock_ok by reflexivity.
  reflexivity.
Qed.

(** X9.  The retry loop of the lock-stealing helper ends: each further
    pass needs another thread to have changed the counter in between, so
    with [n] interfering additions pending the helper is done within
    [n + 1] passes. *)
Theorem try_get_writer_sem_terminates (fuel : nat) (w : waiter_ptr) (m : machine) :
  (length (others m) < fuel)%nat ->
  try_get_writer_sem fuel w m <> OutOfFuel.
Proof.
  intros Hf. unfold try_get_writer_sem. unfold bind at 1.
  destruct (load_list_head ListHead m) as [h m1| |] eqn:H1;
    [|done|by apply total_load_list_head in H1].
  apply load_list_head_Ok in H1 as [_ ->]. unfold bind at 1.
  destruct (list_entry (next h) m) as [f m1| |] eqn:H2;
    [|done|by apply total_list_entry in H2].
  apply list_entry_Ok in H2 as [_ ->]. unfold bind at 1.
  destruct (load_waiter f m) as [fr m1| |] eqn:H3;
    [|done|by apply total_load_waiter in H3].
  apply load_waiter_Ok in H3 as [_ ->].
  destruct (Z.land (flags fr) RWSEM_WAITING_FOR_WRITE =? 0); [done|].
  unfold bind.
  destruct (writer_adjustment f w m) as [adj m1| |] eqn:H4;
    [|done|by apply total_writer_adjustment in H4].
  apply writer_adjustment_Ok in H4 as ->. by apply try_again_write_terminates.
Qed.

(** X10.  While a reader is at the head of the queue nobody steals: the
    pass of any waiter whose [task] is set takes the lock, leaves the
    counter and the queue alone, releases the lock and goes to sleep
    again.  That is so whatever the [flags] of line 186 is and whatever
    address line 187 passes: the helper, when called, tests the first
    waiter's flags and returns before it uses its argument. *)
Theorem wait_pass_behind_reader (fuel : nat) (tsk : task_struct) (w f : waiter_ptr)
    (l : list waiter_ptr) (m : machine) (r fr : rwsem_waiter) :
  queue m (f :: l) ->
  stack m !! f = Some fr ->
  Z.land (flags fr) RWSEM_WAITING_FOR_WRITE = 0 ->
  stack m !! w = Some r ->
  task r <> None ->
  wait_lock (sem m) = false ->
  wait_pass others_run flags_in_scope waiter_slot fuel tsk w m =
    Ok Again (resuspended others_run tsk (locked m)) /\
  wait_loop others_run flags_in_scope waiter_slot (S fuel) tsk w m =
    wait_loop others_run flags_in_scope waiter_slot fuel tsk w
      (resuspended others_run tsk (locked m)).
Proof.
  intros Hq Hfr Hfl Hr Ht Hlock.
  pose proof (fun fl => reader_head_pass_run fl tsk w f l m r fr Hq Hfr Hfl Hr Ht Hlock)
    as Hpass.
  split; [apply Hpass|].
  cbn [wait_loop]. unfold bind. by rewrite Hpass.
Qed.

(** X11.  What the lock-stealing helper cannot do: it returns 0 or 1 and
    nothing else, it gives the queue lock back as it got it, and in
    neither outcome does it write the [task] or the [flags] of any
    waiter, the one it runs for included. *)
Theorem try_get_writer_sem_frame (fuel : nat) (w : waiter_ptr) (m m' : machine) (v : Z) :
  try_get_writer_sem fuel w m = Ok v m' ->
  (v = 0 \/ v = 1) /\
  wait_lock (sem m') = wait_lock (sem m) /\
  forall u, task_of m' u = task_of m u /\ flags_of m' u = flags_of m u.
Proof.
  intros (f & fr & _ & _ & [(_ & -> & ->)|(_ & adj & Hrun)])%try_get_writer_sem_cases.
  - split; [by left|]. done.
  - split; [by eapply try_again_write_ret|].
    split; [by eapply try_again_write_lock|].
    intros u. by eapply try_again_write_payload.
Qed.

End BlockingAcquireDesign.

(** ** Queueing a waiter of one's own *)

Lemma appended_rest (w : waiter_ptr) (m : machine) :
  count (sem (appended w m)) = count (sem m) /\
  wait_lock (sem (appended w m)) = wait_lock (sem m) /\
  others (appended w m) = others m /\
  trace (appended w m) = trace m.
Proof.
  unfold appended.
  set (prv := prev (wait_list (sem m))).
  set (m1 := lh_set ListHead (set_prev (ListOf w)) m).
  set (m2 := lh_set (ListOf w) (set_next ListHead) m1).
  set (m3 := lh_set (ListOf w) (set_prev prv) m2).
  destruct (lh_set_rest m ListHead (set_prev (ListOf w))) as (A1 & A2 & A3 & A4).
  destruct (lh_set_rest m1 (ListOf w) (set_next ListHead)) as (B1 & B2 & B3 & B4).
  destruct (lh_set_rest m2 (ListOf w) (set_prev prv)) as (C1 & C2 & C3 & C4).
  destruct (lh_set_rest m3 prv (set_next (ListOf w))) as (D1 & D2 & D3 & D4).
  fold m1 in A1, A2, A3, A4. fold m2 in B1, B2, B3, B4. fold m3 in C1, C2, C3, C4.
  repeat split; congruence.
Qed.

Lemma task_of_appended (w : waiter_ptr) (m : machine) (u : waiter_ptr) :
  task_of (appended w m) u = task_of m u.
Proof. unfold appended. by rewrite !task_of_lh_set. Qed.

Lemma flags_of_appended (w : waiter_ptr) (m : machine) (u : waiter_ptr) :
  flags_of (appended w m) u = flags_of m u.
Proof. unfold appended. by rewrite !flags_of_lh_set. Qed.

Section Enqueue.

Context {bias : rwsem_bias}.

(** The machine at line 174, and how lines 161-177 run from a queue [l]
    for a waiter [w] that is not in it. *)
Lemma enqueued_facts (tsk : task_struct) (w : waiter_ptr) (adjustment : Z) (m : machine)
    (l : list waiter_ptr) (r : rwsem_waiter) :
  queue m l ->
  stack m !! w = Some r ->
  w ∉ l ->
  let mq := enqueued tsk w adjustment m in
  queue mq (l ++ [w]) /\
  wait_lock (sem mq) = true /\
  count (sem mq) = wrap_long (count (sem (interfered m)) + adjustment) /\
  trace mq = trace m ++ [EvSetTaskState tsk TASK_UNINTERRUPTIBLE; EvSpinLock;
                         EvGetTaskStruct tsk; EvAtomicUpdate adjustment] /\
  task_of mq w = Some tsk /\
  (forall u, flags_of mq u = flags_of m u) /\
  (forall u, u <> w -> task_of mq u = task_of m u) /\
  (wait_lock (sem m) = false ->
   forall fuel,
     queue_waiter fuel tsk w adjustment m =
       if Z.land (count (sem mq)) RWSEM_ACTIVE_MASK =? 0
       then Fault UninitialisedRead mq
       else Ok tt (unlocked mq)).
Proof.
  intros Hq Hr Hnin mq. subst mq.
  set (m1 := emit (EvSetTaskState tsk TASK_UNINTERRUPTIBLE) m).
  set (m2 := locked m1).
  set (m3 := set_stack (alter (set_task (Some tsk)) w) m2).
  set (m4 := emit (EvGetTaskStruct tsk) m3).
  change (enqueued tsk w adjustment m) with (atomic_updated adjustment (appended w m4)).
  set (mq := atomic_updated adjustment (appended w m4)).
  assert (Hget : forall p, lh_get m4 p = lh_get m p).
  { intros p. destruct p; simpl; try reflexivity.
    rewrite lookup_alter. destruct (decide (w = w0)) as [<-|]; [|done].
    by rewrite Hr. }
  assert (Hq4 : queue m4 l).
  { destruct Hq as (Hnd & Hn & Hp). split; [done|].
    split; (eapply chain_frame; [|eassumption]); intros p _; by rewrite Hget. }
  assert (Hw4 : is_Some (stack m4 !! w)).
  { simpl. rewrite lookup_alter_eq, Hr. by eexists. }
  destruct (list_add_tail_queue m4 l w Hq4 Hw4 Hnin) as [Hadd Hq5].
  destruct (atomic_updated_stack adjustment (appended w m4)) as (Hs & Hwl & Hl & Htr).
  destruct (appended_rest w m4) as (Hac & Hal & Hao & Hat).
  fold mq in Hs, Hwl, Hl, Htr.
  assert (Hlk : wait_lock (sem mq) = true) by (rewrite Hl, Hal; reflexivity).
  split; [by eapply queue_same|]. split; [exact Hlk|].
  split; [|split; [|split; [|split; [|split]]]].
  - subst mq. unfold atomic_updated at 1.
    simpl. do 2 f_equal. unfold interfered.
    rewrite Hao. change (others m4) with (others m).
    destruct (others m); simpl; by rewrite Hac.
  - rewrite Htr, Hat. simpl. rewrite <- !app_assoc. reflexivity.
  - rewrite (task_of_same _ _ w Hs), task_of_appended.
    unfold task_of. simpl. by rewrite lookup_alter_eq, Hr.
  - intros u. rewrite (flags_of_same _ _ u Hs), flags_of_appended.
    unfold flags_of. simpl. rewrite lookup_alter.
    destruct (decide (w = u)) as [<-|]; [|done]. by rewrite Hr.
  - intros u Hu. rewrite (task_of_same _ _ u Hs), task_of_appended.
    unfold task_of. simpl. by rewrite lookup_alter_ne.
  - intros Hlock fuel.
    unfold queue_waiter. unfold bind at 1. cbn [set_task_state with_task event_ modify].
    fold m1. unfold bind at 1. rewrite (spin_lock_ok m1) by done. fold m2.
    unfold bind at 1. unfold store_waiter, bind, load_waiter.
    replace (stack m2 !! w) with (Some r) by (symmetry; exact Hr).
    assert (Hm3 : modify (set_stack (insert w (set_task (Some tsk) r))) m2 = Ok tt m3).
    { unfold modify, m3, set_stack.
      by rewrite (alter_as_insert (stack m2) w r) by exact Hr. }
    rewrite Hm3. cbn [get_task_struct with_task event_ modify]. fold m4.
    rewrite Hadd. rewrite rwsem_atomic_update_ok. fold mq.
    destruct (Z.land (count (sem mq)) RWSEM_ACTIVE_MASK =? 0); [reflexivity|].
    unfold ret. by rewrite spin_unlock_ok.
Qed.

End Enqueue.

(** ** The waiter on the caller's stack *)

Lemma new_waiter_fresh (m : machine) : stack m !! new_waiter m = None.
Proof. unfold new_waiter. apply not_elem_of_dom, is_fresh. Qed.

Lemma new_waiter_not_queued (m : machine) (l : list waiter_ptr) :
  queue m l -> new_waiter m ∉ l.
Proof.
  intros Hq Hin. destruct (queue_is_Some _ _ _ Hq Hin) as [r Hr].
  by rewrite new_waiter_fresh in Hr.
Qed.

(** A queue does not see the records of waiters that are not in it. *)
Lemma queue_frame (m m' : machine) (l : list waiter_ptr) :
  wait_list (sem m') = wait_list (sem m) ->
  (forall v, v ∈ l -> stack m' !! v = stack m !! v) ->
  queue m l -> queue m' l.
Proof.
  intros Hw Hs (Hnd & Hn & Hp).
  assert (Hag : forall p, p ∈ ListHead :: (ListOf <$> l) -> lh_get m' p = lh_get m p).
  { intros p [->|Hin]%elem_of_cons; simpl; [by rewrite Hw|].
    apply list_elem_of_fmap in Hin as (v & -> & Hv). simpl. by rewrite Hs. }
  split; [done|]. split.
  - eapply chain_frame; [|eassumption]. intros p Hp'. by rewrite Hag.
  - eapply chain_frame; [|eassumption]. intros p Hp'. rewrite Hag; [done|].
    apply elem_of_cons in Hp' as [->|Hin]; [left|right].
    apply list_elem_of_fmap in Hin as (v & -> & Hv).
    apply list_elem_of_fmap. exists v. split; [done|].
    apply list_elem_of_In. apply list_elem_of_In in Hv. by apply in_rev.
Qed.

Lemma framed_facts (f : Z) (m : machine) (l : list waiter_ptr) :
  queue m l ->
  (new_waiter m ∉ l) /\
  stack (framed f m) !! new_waiter m = Some (set_flags f indeterminate_waiter) /\
  queue (framed f m) l /\
  (forall u, u <> new_waiter m ->
     task_of (framed f m) u = task_of m u /\ flags_of (framed f m) u = flags_of m u).
Proof.
  intros Hq. pose proof (new_waiter_not_queued _ _ Hq) as Hnin.
  split; [done|]. split; [apply lookup_insert_eq|]. split.
  - eapply queue_frame; [| |exact Hq]; [done|].
    intros v Hv. simpl. apply lookup_insert_ne. by intros <-.
  - intros u Hu. unfold task_of, flags_of. simpl.
    by rewrite lookup_insert_ne.
Qed.

(** Lines 207 and 209 (223): the declaration and the store of the flags. *)
Lemma frame_run {A} (f : Z) (k : waiter_ptr -> M A) (m : machine) :
  bind alloca_waiter (fun w => bind (store_waiter w (set_flags f)) (fun _ => k w)) m =
  k (new_waiter m) (framed f m).
Proof.
  unfold alloca_waiter, store_waiter, load_waiter, bind, get, modify, ret.
  fold (new_waiter m). cbn [stack set_stack].
  rewrite lookup_insert_eq. cbn [stack set_stack].
  unfold framed, set_stack. cbn [sem stack others trace].
  by rewrite insert_insert_eq.
Qed.

Section Callers.

Context {bias : rwsem_bias}.
Variable others_run : machine -> machine.
Variable flags_in_scope : Z.
Variable waiter_slot : waiter_ptr.

(** The body shared by [rwsem_down_read_failed] and
    [rwsem_down_write_failed], up to the wait loop. *)
Lemma down_failed_run (fuel : nat) (tsk : task_struct) (f adj : Z) (m : machine)
    (l : list waiter_ptr) :
  queue m l ->
  wait_lock (sem m) = false ->
  let w := new_waiter m in
  let mq := enqueued tsk w adj (framed f m) in
  let wait := bind (wait_for_grant others_run flags_in_scope waiter_slot fuel tsk w)
                (fun _ => leave_frame w) in
  queue mq (l ++ [w]) /\
  flags_of mq w = f /\
  task_of mq w = Some tsk /\
  count (sem mq) = wrap_long (count (sem (interfered m)) + adj) /\
  (forall u, u ∈ l -> task_of mq u = task_of m u /\ flags_of mq u = flags_of m u) /\
  bind alloca_waiter
    (fun w => bind (store_waiter w (set_flags f))
       (fun _ => bind (rwsem_down_failed_common others_run flags_in_scope waiter_slot
                         fuel tsk w adj)
          (fun _ => leave_frame w))) m =
    if Z.land (count (sem mq)) RWSEM_ACTIVE_MASK =? 0
    then bind (__rwsem_do_wake fuel false) (fun _ => bind spin_unlock (fun _ => wait)) mq
    else wait (unlocked mq).
Proof.
  intros Hq Hlock w mq wait.
  destruct (framed_facts f m l Hq) as (Hnin & Hw & Hqf & Hsame). fold w in Hnin, Hw, Hsame.
  destruct (enqueued_facts tsk w adj (framed f m) l _ Hqf Hw Hnin)
    as (Hqq & _ & Hc & _ & Ht & Hfl & Hto & Hrun).
  fold mq in Hqq, Hc, Ht, Hfl, Hto, Hrun.
  split; [exact Hqq|]. split; [|split; [exact Ht|split; [|split]]].
  - rewrite Hfl. unfold flags_of. by rewrite Hw.
  - rewrite Hc. do 2 f_equal. unfold interfered, framed. simpl.
    by destruct (others m).
  - intros u Hu.
    assert (Hne : u <> w) by (by intros ->).
    destruct (Hsame u Hne) as [H1 H2]. rewrite Hfl, Hto by done. done.
  - rewrite frame_run. fold w.
    change (rwsem_down_failed_common others_run flags_in_scope waiter_slot fuel tsk w adj)
      with (bind (queue_waiter fuel tsk w adj)
              (fun _ => wait_for_grant others_run flags_in_scope waiter_slot fuel tsk w)).
    unfold bind at 1. unfold bind at 1. rewrite (Hrun Hlock fuel).
    by destruct (Z.land (count (sem mq)) RWSEM_ACTIVE_MASK =? 0).
Qed.


End Callers.

Lemma enqueued_others (tsk : task_struct) (w : waiter_ptr) (adj : Z) (m : machine) :
  others (enqueued tsk w adj m) = tail (others m).
Proof.
  unfold enqueued, atomic_updated. cbn [emit others set_sem].
  set (ma := appended w _).
  assert (Ho : others ma = others m).
  { subst ma. by destruct (appended_rest w
      (emit (EvGetTaskStruct tsk)
         (set_stack (alter (set_task (Some tsk)) w)
            (locked (emit (EvSetTaskState tsk TASK_UNINTERRUPTIBLE) m)))))
      as (_ & _ & -> & _). }
  unfold interfered. rewrite Ho. by destruct (others m).
Qed.

(** ** A reader, from the queueing to the grant *)

Lemma reader_run_all (m : machine) (l : list waiter_ptr) :
  (forall v, v ∈ l -> exists r, stack m !! v = Some r /\ flags r = RWSEM_WAITING_FOR_READ) ->
  reader_run m l = length l.
Proof.
  induction l as [|w l IH]; intros H; simpl; [done|].
  destruct (H w ltac:(left)) as (r & -> & ->).
  change (Z.land RWSEM_WAITING_FOR_READ RWSEM_WAITING_FOR_READ =? 0) with false.
  rewrite IH; [done|]. intros v Hv. apply H. by right.
Qed.

Lemma lh_set_record (m : machine) (p : list_ptr) (f : list_head -> list_head)
    (v : waiter_ptr) :
  is_Some (stack m !! v) -> is_Some (stack (lh_set p f m) !! v).
Proof.
  intros H. apply (fmap_is_Some w_list).
  apply (lh_set_is_Some m p (ListOf v) f). simpl. by apply fmap_is_Some.
Qed.

(** The engine frees no waiter record. *)
Lemma granted_records (p : list_ptr) (ws : list waiter_ptr) (d : Z) (m : machine)
    (v : waiter_ptr) :
  is_Some (stack m !! v) ->
  is_Some (stack (relinked p (granted ws (atomic_added d m))) !! v).
Proof.
  intros H. unfold relinked. do 2 apply lh_set_record.
  rewrite granted_lookup. destruct (atomic_added_stack d m) as (-> & _).
  destruct (decide (v ∈ ws)); [by apply fmap_is_Some|done].
Qed.

Section Passes.

Context {bias : rwsem_bias}.
Variable others_run : machine -> machine.
Variable flags_in_scope : Z.
Variable waiter_slot : waiter_ptr.

(** The pass of a waiter that has been granted the lock. *)
Lemma break_pass_run (fuel : nat) (tsk : task_struct) (w : waiter_ptr) (m : machine)
    (r : rwsem_waiter) :
  stack m !! w = Some r ->
  task r = None ->
  wait_pass others_run flags_in_scope waiter_slot fuel tsk w m = Ok Break m.
Proof.
  intros Hr Ht. unfold wait_pass, bind, load_waiter. rewrite Hr.
  by rewrite bool_decide_eq_true_2.
Qed.

End Passes.

Section ReaderGranted.

Context {bias : rwsem_bias}.
Variable flags_in_scope : Z.
Variable waiter_slot : waiter_ptr.

(** X14.  A reader from the queueing to the grant.  Readers only are
    queued (a writer holds the lock), and a further reader enters
    [rwsem_down_read_failed]: it queues its waiter behind them, finds a
    holder active, and sleeps.  Meanwhile the holder downgrades and
    [rwsem_downgrade_wake] runs.  Then the call returns after a single
    [schedule()]: the engine has granted every queued reader, this one
    last, with one addition to the counter for all of them; the queue is
    empty, the thread is running, and its waiter is gone from the
    stack.  Lines 186 and 187 do not bear on this run, whatever their
    [flags] is and whatever address is passed: on the one pass that
    reaches them a reader is first in the queue, and the helper, if
    called, returns at line 126. *)
Theorem reader_granted_by_downgrade (fw fuel : nat) (tsk : task_struct) (m : machine)
    (l : list waiter_ptr) :
  queue m l ->
  live_queue m l ->
  (forall v, v ∈ l -> flags_of m v = RWSEM_WAITING_FOR_READ) ->
  wait_lock (sem m) = false ->
  others m = [] ->
  (S (length l) <= fw)%nat ->
  Z.of_nat (S (length l)) < 2 ^ 31 ->
  let w := new_waiter m in
  let radj := wrap_long (RWSEM_WAITING_BIAS - RWSEM_ACTIVE_BIAS) in
  let delta := wrap_long (Z.of_nat (S (length l)) * (RWSEM_ACTIVE_BIAS - RWSEM_WAITING_BIAS)) in
  Z.land (wrap_long (count (sem m) + radj)) RWSEM_ACTIVE_MASK <> 0 ->
  exists m',
    rwsem_down_read_failed (downgrade_meanwhile fw) flags_in_scope waiter_slot
      (S (S fuel)) tsk m = Ok tt m' /\
    queue m' [] /\
    (forall v, v ∈ l -> task_of m' v = None) /\
    stack m' !! w = None /\
    wait_lock (sem m') = false /\
    count (sem m') = wrap_long (count (sem m) + radj + delta) /\
    trace m' = trace m ++
      [EvSetTaskState tsk TASK_UNINTERRUPTIBLE; EvSpinLock; EvGetTaskStruct tsk;
       EvAtomicUpdate radj; EvSpinUnlock; EvSpinLock; EvSpinUnlock; EvSchedule;
       EvSpinLock; EvAtomicAdd delta] ++ grants m l ++
      [EvSmpMb; EvWakeUpProcess tsk; EvPutTaskStruct tsk; EvSpinUnlock;
       EvSetTaskState tsk TASK_UNINTERRUPTIBLE; EvSetTaskState tsk TASK_RUNNING].
Proof.
  intros Hq Hlive Hrd Hlock Ho Hfw Hlen w radj delta Hheld.
  set (R := downgrade_meanwhile fw).
  set (mf := framed RWSEM_WAITING_FOR_READ m).
  set (mq := enqueued tsk w radj mf).
  destruct (framed_facts RWSEM_WAITING_FOR_READ m l Hq) as (Hnin & Hw & Hqf & _).
  fold w in Hnin, Hw. fold mf in Hw, Hqf.
  destruct (enqueued_facts tsk w radj mf l _ Hqf Hw Hnin) as (_ & _ & _ & Htrq & _).
  fold mq in Htrq. change (trace mf) with (trace m) in Htrq.
  destruct (down_failed_run R flags_in_scope waiter_slot (S (S fuel)) tsk
              RWSEM_WAITING_FOR_READ radj m l Hq Hlock)
    as (Hqq & Hflw & Htw & Hc & Hold & Hrun).
  fold w in Hqq, Hflw, Htw, Hc, Hold, Hrun. fold mf in Hqq, Hflw, Htw, Hc, Hold, Hrun.
  fold mq in Hqq, Hflw, Htw, Hc, Hold, Hrun.
  assert (Hcq : count (sem mq) = wrap_long (count (sem m) + radj)).
  { rewrite Hc. unfold interfered. by rewrite Ho. }
  assert (Hoq : others mq = []).
  { subst mq. rewrite enqueued_others. change (others mf) with (others m). by rewrite Ho. }
  assert (Hliveq : forall v, v ∈ l ++ [w] ->
            exists r, stack mq !! v = Some r /\ flags r = RWSEM_WAITING_FOR_READ /\
                      task r <> None).
  { intros v Hv. destruct (queue_is_Some _ _ _ Hqq Hv) as [r Hr]. exists r.
    split; [done|].
    apply elem_of_app in Hv as [Hv|Hv%list_elem_of_singleton].
    - destruct (Hold v Hv) as [H1 H2]. destruct (Hlive v Hv) as (r0 & Hr0 & _ & Ht0).
      specialize (Hrd v Hv). unfold task_of, flags_of in H1, H2, Hrd.
      rewrite Hr in H1, H2. rewrite Hr0 in H1, H2, Hrd. split; congruence.
    - subst v. unfold task_of, flags_of in Htw, Hflw. rewrite Hr in Htw, Hflw.
      split; congruence. }
  set (mu := unlocked mq).
  set (ms := emit EvSchedule (unlocked (locked mu))).
  assert (Hp1 : forall fl, wait_pass R flags_in_scope waiter_slot fl tsk w mu =
                           Ok Again (resuspended R tsk (locked mu))).
  { intros fl. destruct (Hliveq w) as (r & Hr & Hf & Ht); [apply elem_of_app; right; left|].
    assert (Hhd : exists f q, l ++ [w] = f :: q) by (destruct l; simpl; eauto).
    destruct Hhd as (f & q & Hfq).
    destruct (Hliveq f) as (fr & Hfr & Hff & _); [rewrite Hfq; left|].
    apply (reader_head_pass_run R flags_in_scope waiter_slot fl tsk w f q mu r fr);
      [rewrite <- Hfq; by apply unlocked_queue|exact Hfr|by rewrite Hff|exact Hr|exact Ht
      |reflexivity]. }
  assert (Hqs : queue (locked ms) (l ++ [w])) by (by eapply queue_same; [| |exact Hqq]).
  assert (Hlives : live_queue (locked ms) (l ++ [w])).
  { intros v Hv. destruct (Hliveq v Hv) as (r & Hr & Hf & Ht).
    exists r. split; [exact Hr|]. split; [by left|done]. }
  assert (Hlenq : length (l ++ [w]) = S (length l)).
  { rewrite length_app. simpl. lia. }
  assert (Hdw : rwsem_downgrade_wake fw ms =
                Ok tt (unlocked (downgraded (locked ms) (l ++ [w])))).
  { apply rwsem_downgrade_wake_eq; [by eapply queue_same; [| |exact Hqq]|exact Hlives
      |reflexivity|lia|by rewrite Hlenq]. }
  assert (Hn : reader_run (locked ms) (l ++ [w]) = S (length l)).
  { rewrite reader_run_all; [done|].
    intros v Hv. destruct (Hliveq v Hv) as (r & Hr & Hf & _). by exists r. }
  set (d := readers_adjustment true (Z.of_nat (S (length l)))).
  assert (Hd : d = delta).
  { subst d delta. rewrite readers_adjustment_eq. f_equal. lia. }
  set (mg := relinked (hd_ptr (drop (S (length l)) (l ++ [w])) ListHead)
               (granted (take (S (length l)) (l ++ [w])) (atomic_added d (locked ms)))).
  assert (Hdg : downgraded (locked ms) (l ++ [w]) = mg).
  { unfold downgraded. rewrite Hn. reflexivity. }
  rewrite Hdg in Hdw.
  destruct (readers_only_result true (locked ms) (l ++ [w]) (S (length l)) d Hqs Hlives)
    as (Hqg & Hcl & Hcg & Htrg).
  fold mg in Hqg, Hcl, Hcg, Htrg.
  rewrite drop_ge in Hqg by lia. rewrite take_ge in Hcl, Htrg by lia.
  assert (Hres : resuspended R tsk (locked mu) =
                 emit (EvSetTaskState tsk TASK_UNINTERRUPTIBLE) (unlocked mg)).
  { unfold resuspended. fold ms. unfold R, downgrade_meanwhile. by rewrite Hdw. }
  assert (Hwg : exists r, stack mg !! w = Some r /\ task r = None).
  { destruct (granted_records (hd_ptr (drop (S (length l)) (l ++ [w])) ListHead)
                (take (S (length l)) (l ++ [w])) d (locked ms) w) as [r Hr].
    { destruct (Hliveq w) as (r & Hr & _); [apply elem_of_app; right; left|].
      by exists r. }
    fold mg in Hr. exists r. split; [done|].
    assert (Hin : w ∈ l ++ [w]) by (apply elem_of_app; right; left).
    apply (Hcl w Hin) in Hin. unfold task_of in Hin. by rewrite Hr in Hin. }
  destruct Hwg as (rg & Hrg & Htg).
  set (m3 := emit (EvSetTaskState tsk TASK_UNINTERRUPTIBLE) (unlocked mg)) in *.
  assert (Hp2 : forall fl, wait_pass R flags_in_scope waiter_slot fl tsk w m3 = Ok Break m3).
  { intros fl. by apply (break_pass_run R flags_in_scope waiter_slot fl tsk w m3 rg). }
  exists (set_stack (delete w) (emit (EvSetTaskState tsk TASK_RUNNING) m3)).
  split; [|split; [|split; [|split; [|split; [|split]]]]].
  - unfold rwsem_down_read_failed. fold radj. rewrite Hrun.
    rewrite Hcq. apply Z.eqb_neq in Hheld. rewrite Hheld.
    fold mu. unfold wait_for_grant. cbn [wait_loop]. unfold bind at 1. unfold bind at 1.
    unfold bind at 1. rewrite Hp1, Hres. unfold bind at 1. rewrite Hp2.
    reflexivity.
  - apply (queue_frame mg); [done| |exact Hqg].
    intros v Hv. by apply elem_of_nil in Hv.
  - intros v Hv.
    assert (Hin : v ∈ l ++ [w]) by (apply elem_of_app; by left).
    assert (Hne : w <> v) by (by intros ->).
    apply (Hcl v Hin) in Hin. unfold task_of in *. cbn [stack set_stack emit].
    rewrite lookup_delete_ne by done. exact Hin.
  - simpl. apply lookup_delete_eq.
  - reflexivity.
  - change (count (sem mg) = wrap_long (count (sem m) + radj + delta)).
    rewrite Hcg. unfold interfered. change (others (locked ms)) with (others mq).
    rewrite Hoq. change (count (sem (locked ms))) with (count (sem mq)).
    rewrite Hcq, Hd. apply wrap_long_add_l.
  - transitivity (trace m3 ++ [EvSetTaskState tsk TASK_RUNNING]); [reflexivity|].
    assert (Ht3 : trace m3 =
                  trace mg ++ [EvSpinUnlock; EvSetTaskState tsk TASK_UNINTERRUPTIBLE]).
    { transitivity ((trace mg ++ [EvSpinUnlock])
                      ++ [EvSetTaskState tsk TASK_UNINTERRUPTIBLE]); [reflexivity|].
      by rewrite <- app_assoc. }
    assert (Htm : trace (locked ms) =
                  trace mq ++ [EvSpinUnlock; EvSpinLock; EvSpinUnlock; EvSchedule;
                               EvSpinLock]).
    { transitivity (((((trace mq ++ [EvSpinUnlock]) ++ [EvSpinLock]) ++ [EvSpinUnlock])
                       ++ [EvSchedule]) ++ [EvSpinLock]); [reflexivity|].
      by rewrite <- !app_assoc. }
    rewrite Ht3, Htrg, Htm, Htrq, flat_map_app.
    rewrite (flat_map_agree (fun v => grant_events (task_of (locked ms) v))
               (fun v => grant_events (task_of m v)) l).
    + cbn [flat_map]. change (task_of (locked ms) w) with (task_of mq w).
      rewrite Htw, Hd. unfold grants. cbn [grant_events].
      repeat first [rewrite <- app_assoc | progress cbn [app]]. reflexivity.
    + intros v Hv. destruct (Hold v Hv) as [H1 _].
      change (task_of (locked ms) v) with (task_of mq v). by rewrite H1.
Qed.

End ReaderGranted.

(** ** What is left of the entry points *)

Section Remainder.

Context {bias : rwsem_bias}.

(** X15.  [__init_rwsem] from any state, a held lock and a queue with
    waiters included: the counter is [RWSEM_UNLOCKED_VALUE], the lock is
    free and the queue is empty and says so to [list_empty]; no waiter
    record is touched, so the waiters that were queued keep their threads
    and are queued no more (what the check against reinitialising a held
    semaphore is there for). *)
Theorem init_rwsem_resets (m : machine) :
  exists m',
    __init_rwsem m = Ok tt m' /\
    queue m' [] /\
    list_empty ListHead m' = Ok true m' /\
    count (sem m') = RWSEM_UNLOCKED_VALUE /\
    wait_lock (sem m') = false /\
    stack m' = stack m /\
    trace m' = trace m.
Proof.
  eexists. split; [reflexivity|].
  split; [|by repeat split].
  split; [apply NoDup_nil_2|]. by split.
Qed.

(** X17.  Nothing but a waker gets a thread out of a queue with a reader
    at its head: as long as the other threads change the counter only
    (their fast paths) and leave the queue and the waiter records alone,
    the wait loop of a waiter whose [task] is set goes round and round,
    whatever number of passes it is given, whatever the [flags] of line
    186 is and whatever address line 187 passes. *)
Theorem blocked_waiter_keeps_waiting (others_run : machine -> machine)
    (flags_in_scope : Z) (waiter_slot : waiter_ptr) (fuel : nat)
    (tsk : task_struct) (w f : waiter_ptr) (l : list waiter_ptr) (m : machine)
    (r fr : rwsem_waiter) :
  (forall x, stack (others_run x) = stack x /\
             wait_list (sem (others_run x)) = wait_list (sem x) /\
             wait_lock (sem (others_run x)) = wait_lock (sem x)) ->
  queue m (f :: l) ->
  stack m !! f = Some fr ->
  Z.land (flags fr) RWSEM_WAITING_FOR_WRITE = 0 ->
  stack m !! w = Some r ->
  task r <> None ->
  wait_lock (sem m) = false ->
  wait_loop others_run flags_in_scope waiter_slot fuel tsk w m = OutOfFuel.
Proof.
  intros HR. revert m. induction fuel as [|fuel IH]; intros m Hq Hfr Hfl Hr Ht Hlock; [done|].
  cbn [wait_loop]. unfold bind.
  rewrite (reader_head_pass_run others_run flags_in_scope waiter_slot (S fuel) tsk w f l m
             r fr) by done.
  set (ms := emit EvSchedule (unlocked (locked m))).
  destruct (HR ms) as (Hs & Hw & Hl).
  apply IH.
  - eapply queue_same; [| |exact Hq]; [exact Hs|exact Hw].
  - change (stack (others_run ms) !! f = Some fr). by rewrite Hs.
  - exact Hfl.
  - change (stack (others_run ms) !! w = Some r). by rewrite Hs.
  - exact Ht.
  - change (wait_lock (sem (others_run ms)) = false). by rewrite Hl.
Qed.

End Remainder.

(** ** Runs of the entry points *)

Lemma no_waiters_queue (c : Z) : queue (no_waiters c) [].
Proof. split; [apply NoDup_nil_2|]. by split. Qed.

Lemma two_readers_queue (c : Z) : queue (two_readers c) [1; 2]%nat.
Proof. split; [compute_done|]. split; vm_compute; auto. Qed.

Lemma two_readers_live (c : Z) : live_queue (two_readers c) [1; 2]%nat.
Proof.
  intros w Hw. unfold live_waiter.
  repeat (apply elem_of_cons in Hw as [->|Hw]);
    [eexists; split; [reflexivity | split; [auto | done]] ..
    | by apply elem_of_nil in Hw].
Qed.

(** Readers 1 and 2, then writer 3, with the lock free. *)
Lemma readers_then_writer_free_queue (c : Z) :
  queue (set_sem (set_wait_lock false) (readers_then_writer c)) [1; 2; 3]%nat.
Proof. split; [compute_done|]. split; vm_compute; auto. Qed.

Lemma readers_then_writer_free_live (c : Z) :
  live_queue (set_sem (set_wait_lock false) (readers_then_writer c)) [1; 2; 3]%nat.
Proof. exact (readers_then_writer_live c). Qed.

Lemma two_writers_free_queue (c : Z) (i : list Z) :
  queue (set_sem (set_wait_lock false) (two_writers c i)) [1; 2]%nat.
Proof. split; [compute_done|]. split; vm_compute; auto. Qed.

(** Witness of X1: a semaphore without waiters. *)
Lemma wake_on_empty_queue_witness :
  rwsem_wake (bias := bias32) 1 (no_waiters 0) =
    Ok tt (emit EvSpinUnlock (emit EvSpinLock (no_waiters 0))) /\
  rwsem_downgrade_wake (bias := bias32) 1 (no_waiters 0) =
    Ok tt (emit EvSpinUnlock (emit EvSpinLock (no_waiters 0))).
Proof.
  apply (wake_on_empty_queue (bias := bias32) 1 (no_waiters 0)).
  - apply no_waiters_queue.
  - reflexivity.
Defined.


(** Witness of X3: a writer is queued before another. *)
Lemma rwsem_downgrade_wake_writer_head_witness :
  let m := set_sem (set_wait_lock false) (two_writers (-131071) []) in
  rwsem_downgrade_wake (bias := bias32) 2 m = Ok tt (emit EvSpinUnlock (emit EvSpinLock m)).
Proof.
  apply (rwsem_downgrade_wake_writer_head (bias := bias32) 2
           (set_sem (set_wait_lock false) (two_writers (-131071) [])) 1%nat [2%nat]
           (waiter_rec ListHead (ListOf 2%nat) 11%nat RWSEM_WAITING_FOR_WRITE)).
  - apply two_writers_free_queue.
  - reflexivity.
  - vm_compute. discriminate.
  - reflexivity.
Defined.

(** Witness of X4: two readers before a writer; the caller holds the lock
    for read after its downgrade (one active, three waiting). *)
Lemma rwsem_downgrade_wake_grants_readers_witness :
  exists m',
    rwsem_downgrade_wake (bias := bias32) 3
      (set_sem (set_wait_lock false) (readers_then_writer (-196607))) = Ok tt m' /\
    queue m' [3%nat] /\
    count (sem m') = -65533.
Proof.
  destruct (rwsem_downgrade_wake_grants_readers (bias := bias32) 3
              (set_sem (set_wait_lock false) (readers_then_writer (-196607)))
              1%nat [2; 3]%nat
              (waiter_rec ListHead (ListOf 2%nat) 11%nat RWSEM_WAITING_FOR_READ))
    as (m' & H1 & _ & H3 & _ & H5 & _).
  - apply readers_then_writer_free_queue.
  - apply readers_then_writer_free_live.
  - reflexivity.
  - reflexivity.
  - reflexivity.
  - simpl. lia.
  - simpl. lia.
  - exists m'. split; [exact H1|]. split; [exact H3|exact H5].
Defined.

(** Witness of X5, on the same queue. *)
Lemma rwsem_downgrade_wake_grants_front_witness :
  exists m',
    rwsem_downgrade_wake (bias := bias32) 3
      (set_sem (set_wait_lock false) (readers_then_writer (-196607))) = Ok tt m' /\
    queue m' [3%nat] /\
    live_queue m' [3%nat] /\
    cleared_are_unlinked m'.
Proof.
  destruct (rwsem_downgrade_wake_grants_front (bias := bias32) 3
              (set_sem (set_wait_lock false) (readers_then_writer (-196607)))
              [1; 2; 3]%nat)
    as (m' & H1 & H2 & H3 & _ & _ & H6).
  - apply readers_then_writer_free_queue.
  - apply readers_then_writer_free_live.
  - reflexivity.
  - simpl. lia.
  - simpl. lia.
  - exists m'. split; [exact H1|]. split; [exact H2|]. split; [exact H3|exact H6].
Defined.

(** Witness of X6, on the same queue. *)
Lemma rwsem_downgrade_wake_twice_witness :
  exists m',
    rwsem_downgrade_wake (bias := bias32) 3
      (set_sem (set_wait_lock false) (readers_then_writer (-196607))) = Ok tt m' /\
    rwsem_downgrade_wake (bias := bias32) 3 m' =
      Ok tt (emit EvSpinUnlock (emit EvSpinLock m')).
Proof.
  apply (rwsem_downgrade_wake_twice (bias := bias32) 3
           (set_sem (set_wait_lock false) (readers_then_writer (-196607)))
           [1; 2; 3]%nat).
  - apply readers_then_writer_free_queue.
  - apply readers_then_writer_free_live.
  - reflexivity.
  - simpl. lia.
  - simpl. lia.
Defined.

(** Witness of X9: no interference pending, one pass. *)
Lemma try_get_writer_sem_terminates_witness :
  try_get_writer_sem (bias := bias32) 1 2%nat (two_writers (-131072) []) <> OutOfFuel.
Proof.
  apply (try_get_writer_sem_terminates (bias := bias32) 1 2%nat (two_writers (-131072) [])).
  simpl. lia.
Defined.

(** Witness of X10: writer 3 behind the readers 1 and 2; the [flags] of
    line 186 is [RWSEM_WAITING_FOR_WRITE], so the helper is called, for
    the address 9. *)
Lemma wait_pass_behind_reader_witness :
  let m := set_sem (set_wait_lock false) (readers_then_writer (-196607)) in
  wait_pass (bias := bias32) (fun m => m) RWSEM_WAITING_FOR_WRITE 9%nat 1 13%nat 3%nat m =
    Ok Again (resuspended (fun m => m) 13%nat (locked m)) /\
  wait_loop (bias := bias32) (fun m => m) RWSEM_WAITING_FOR_WRITE 9%nat 2 13%nat 3%nat m =
    wait_loop (bias := bias32) (fun m => m) RWSEM_WAITING_FOR_WRITE 9%nat 1 13%nat 3%nat
      (resuspended (fun m => m) 13%nat (locked m)).
Proof.
  apply (wait_pass_behind_reader (bias := bias32) (fun m => m) RWSEM_WAITING_FOR_WRITE
           9%nat 1 13%nat 3%nat 1%nat [2; 3]%nat
           (set_sem (set_wait_lock false) (readers_then_writer (-196607)))
           (waiter_rec (ListOf 2%nat) ListHead 13%nat RWSEM_WAITING_FOR_WRITE)
           (waiter_rec ListHead (ListOf 2%nat) 11%nat RWSEM_WAITING_FOR_READ)).
  - apply readers_then_writer_free_queue.
  - reflexivity.
  - reflexivity.
  - reflexivity.
  - discriminate.
  - reflexivity.
Defined.

(** Witness of X11: writer 2 steals behind writer 1. *)
Lemma try_get_writer_sem_frame_witness :
  exists m',
    try_get_writer_sem (bias := bias32) 1 2%nat (two_writers (-131072) []) = Ok 1 m' /\
    (1 = 0 \/ 1 = 1) /\
    wait_lock (sem m') = wait_lock (sem (two_writers (-131072) [])) /\
    forall u, task_of m' u = task_of (two_writers (-131072) []) u /\
              flags_of m' u = flags_of (two_writers (-131072) []) u.
Proof.
  eexists. split; [vm_compute; reflexivity|].
  apply (try_get_writer_sem_frame (bias := bias32) 1 2%nat (two_writers (-131072) [])).
  vm_compute. reflexivity.
Defined.


(** Witness of X14: thread 13 joins the readers 1 and 2 behind an active
    writer, which then downgrades. *)
Lemma reader_granted_by_downgrade_witness :
  exists m',
    rwsem_down_read_failed (bias := bias32) (downgrade_meanwhile (bias := bias32) 3)
      RWSEM_WAITING_FOR_WRITE 9%nat 2 13%nat (two_readers (-196606)) = Ok tt m' /\
    queue m' [] /\
    count (sem m') = -65532.
Proof.
  destruct (reader_granted_by_downgrade (bias := bias32) RWSEM_WAITING_FOR_WRITE 9%nat
              3 0 13%nat (two_readers (-196606)) [1; 2]%nat)
    as (m' & H1 & H2 & _ & _ & _ & H6 & _).
  - apply two_readers_queue.
  - apply two_readers_live.
  - intros v Hv.
    repeat (apply elem_of_cons in Hv as [->|Hv]); [reflexivity..|by apply elem_of_nil in Hv].
  - reflexivity.
  - reflexivity.
  - simpl. lia.
  - simpl. lia.
  - vm_compute. discriminate.
  - exists m'. split; [exact H1|]. split; [exact H2|exact H6].
Defined.

(** Witness of X17: writer 3 behind the readers 1 and 2, while the holder
    of the lock releases it again and again. *)
Lemma blocked_waiter_keeps_waiting_witness :
  wait_loop (bias := bias32) holder_releases RWSEM_WAITING_FOR_WRITE 9%nat 5 13%nat 3%nat
    (set_sem (set_wait_lock false) (readers_then_writer (-196607))) = OutOfFuel.
Proof.
  apply (blocked_waiter_keeps_waiting (bias := bias32) holder_releases
           RWSEM_WAITING_FOR_WRITE 9%nat 5 13%nat 3%nat 1%nat
           [2; 3]%nat
           (set_sem (set_wait_lock false) (readers_then_writer (-196607)))
           (waiter_rec (ListOf 2%nat) ListHead 13%nat RWSEM_WAITING_FOR_WRITE)
           (waiter_rec ListHead (ListOf 2%nat) 11%nat RWSEM_WAITING_FOR_READ)).
  - intros x. repeat split.
  - apply readers_then_writer_free_queue.
  - reflexivity.
  - reflexivity.
  - reflexivity.
  - discriminate.
  - reflexivity.
Defined.
